(* ===== verification/_CoqProject ===== *)
-Q . S2P
Prelude.v
PyStr.v
Imghdr.v
Config.v
Validator.v
Batching.v
PyNum.v
Dataset.v
TopK.v
Model.v
Writer.v
Pipeline.v
Loader.v
Rows.v
PartialRun.v
Footprint.v
Entry.v
