(* ===== verification/Prelude.v ===== *)
(** * A verification development of zalo-landmark's batch inference script

    The repository (tle4336/zalo-landmark) ships one program under
    src/: [src/src/predict.py], the script that classifies every image
    of a directory with a trained network and writes a ranked top-3
    submission file.  Its parts, in the order control flows through them:

    - configuration: the [tf.flags] definitions (predict.py 13-32);
    - file validator: [is_valid] and [list_files] (35-54), which scan
      [data_dir], sniff each entry's header with [imghdr.what] and split
      the entries into usable paths/ids and corrupted ids;
    - batch loader: [init_data_generator] (57-73), which computes
      [num_batches] and builds a [tf.data] pipeline
      (from_tensor_slices, map with a parallel decoder, batch, prefetch)
      consumed through an iterator's [get_next];
    - inference engine: [init_model] (77-86), whose outputs are
      [classes = tf.argmax(logits, axis=1)] and
      [top_3 = tf.nn.top_k(logits, k=3)[1]];
    - result writer and driver: [main] (89-124), which opens a fresh
      submission file named after the number of files already in
      [submissions/], writes the header, restores the checkpoint, runs
      the batches, writes one row per usable image, then the fixed
      fallback row [93 83 2] for every corrupted one;
    - entry point: [tf.app.run()] (127-128), which calls [main] on the
      parsed flags and turns its outcome into the exit status.

    The script imports two modules that are not in the repository,
    [data_generator._parse_function_test] (read and decode an image) and
    [model.MyModel] (the network); they are the interfaces [ImageCodec]
    of [Pipeline] and [Classifier] of [Model].

    ** Files, and what they model

    - [Prelude] (this file): the error and state monads the models are
      written in ([result], [st]) with their notations in [zl_scope],
      the Python/TensorFlow exceptions the script can raise ([exn]),
      the shared tactics, the hint databases [zl] and [zl_rw] and
      generic list and monad lemmas (including the inversions of a
      successful bind, [st_bind_inv_ok]).
    - [PyStr]: the Python string operations the script uses:
      [str.split(sep)[0]] ([py_split_head]), [os.path.join]
      ([os_path_join]), [str] on integers ([py_str_Z]) and
      [str.join] ([py_join]), with readers for the round trips.
    - [Imghdr]: the header tests of Python's [imghdr.what] (a library
      the script calls, modelled from its documented behaviour), in
      their order of evaluation.
    - [Config]: the record [config] of the seven flags and
      [default_config], their defaults.
    - [Validator] (module [Validator]): the file system as a [gmap]
      from paths to nodes, [getsize], [imghdr_what], [is_valid] and
      [list_files] (35-54) with its loop [list_files_loop].
    - [PyNum] (module [PyNum]): the numerics of lines 59 and 65:
      Python's true division of two ints as CPython computes it (the
      quotient correctly rounded to a binary64 [dbl], ties to even,
      subnormals, [OverflowError]), [np.ceil], [int]
      ([num_batches_py]) and the int64 conversion of the batch size by
      [dataset.batch] ([to_int64]).
    - [Batching] (module [Batching]): [num_batches] (line 59, the exact
      ceiling), the
      batch-size check of [Dataset.batch] ([batch_init]), the
      iterator's [get_next] and [k] calls of it ([run_batches], the loop
      of 110-113).
    - [Dataset] (module [Dataset]): the pipeline of lines 63-66 at run
      time as a concurrent state machine: [dstate] (untaken input,
      elements in decoder threads, the batch being built, the prefetch
      buffer, the batches handed to [get_next]) and [dstep], one
      constructor per event (a decoder starts, a decoder finishes in any
      order, the batch stage collects, a batch is emitted to the buffer,
      [get_next]); [dexec] replays a schedule of events.
    - [TopK] (module [TopK]): [tf.nn.top_k] (line 83) as a selection
      kernel, a stable descending sort as reference, and the abstract
      top-k contract [is_topk].
    - [Model] (module [Model]): [init_model] (77-86) as the record
      [predictions] of both outputs on a fed batch, [argmax] (the
      [ArgMax] reduction, first maximum kept), and the interface
      [Classifier] of [MyModel].
    - [Writer] (module [Writer]): the text of the header, rows and
      fallback rows (99, 117-121) and a CSV reader of that text.
    - [Pipeline] (module [Pipeline]): [main] (89-124) as a program of
      the state-and-error monad over a [world] (file system, latest
      checkpoint of each directory, open handles), with [open_w],
      [write_str], [restore], [close], [inference_loop] and
      [init_data_generator] (57-73: the batch count of
      [PyNum.num_batches_py], the dataset of pairs, the int64
      conversion); the decoder is the type class [ImageCodec];
      [predict_batch] fetches ['top_3'] of [Model.init_model];
      [session_block] is the body of [with tf.Session(...)] (103-123).
    - [PartialRun] (module [PartialRun]): the run when a usable image
      does not decode, and a directory with a truncated image.
    - [Footprint] (module [Footprint]): the entries of the file system a
      run may change ([keeps], composed along the monad's binds) and two
      successive runs.
    - [Loader] (module [Loader]): [Dataset] instantiated with the
      script's map function ([parse_elem], [_parse_function_test]),
      [cpu_count()] decoders and [FLAGS.batch_size] as batch size and
      prefetch depth ([script_step]).
    - [Rows] (module [Rows]): what a prediction row holds.
    - [Entry] (module [Entry]): [tf.app.run()] ([app_run]): [main] on
      the parsed flags, the exit status of [sys.exit(main(argv))]
      ([exit_status]) and the handles released at exit
      ([process_exit]); the inversion of a successful run
      ([main_ok_inv], [inference_loop_ok_inv]).

    ** What the theorems show

    - end to end ([Pipeline.main_ok]): a run whose preconditions hold
      writes exactly header, predicted rows in listing order, fallback
      rows, and closes the file; the result does not depend on the batch
      size ([main_batch_size_independent]); each fatal error (failed
      scan, batch size 0, a batch size outside int64
      ([main_batch_size_overflow]), missing checkpoint, negative batch
      size) stops
      the run in a described world, the last two after a header-only
      file exists; conversely the process exits with status 0 exactly
      when those preconditions hold ([Entry.app_run_status]), so no
      other condition makes the script fail; an undecodable image
      leaves the rows of the complete batches before it
      ([PartialRun.main_decode_error]); whatever the outcome, a run
      changes only [submissions/] and its own file
      ([Footprint.main_footprint]), so a second run keeps the first run's
      file ([rerun_keeps_previous]), except when the counter names a
      file that already exists, which the run overwrites without
      growing the listing ([Pipeline.main_overwrites_prior_artifact]);
    - validator: [list_files] is the in-order partition of the listing
      ([list_files_spec], [list_files_counts]); its error is the first
      failing entry's ([list_files_loop_err]); zero-byte files and bad
      headers are corrupted, a subdirectory raises; two usable names
      equal up to their first dot give one id twice
      ([list_files_duplicate_ids]);
    - batch loader: [num_batches] is the exact ceiling, and line 59's
      float computation equals it below [2 ^ 53] images
      ([PyNum.num_batches_py_exact]) but not above: between 2^53 and
      2^54 images it drops the last image or runs the loop past the end
      ([num_batches_py_miscount]); the loop of
      [main] consumes the input in order without an [OutOfRangeError],
      every batch but the last is full ([main_loop_drains],
      [batch_sizes], [run_batches_spec]); the concurrent pipeline keeps
      the invariant [dinv] ([dataset_invariant], by induction over
      executions), delivers under every interleaving the sequential
      batches in order ([Loader.loader_refines]), has no infinite
      execution and at most [8n] events ([dataset_terminates],
      [dataset_steps_bound]), never blocks before the end
      ([dataset_no_deadlock]) and can always go on to deliver every batch
      ([dataset_eventually_delivers]);
    - top-k: the kernel and the reference both meet the contract, which
      has one solution, so they are equal ([kernel_eq_ref]) and [top_k]
      returns exactly the contract's list or its error ([top_k_spec]);
      every row carries its image's id and three distinct class indices
      below [num_classes] ([Rows.rows_typed]); the unused output
      [classes] is the first index of ['top_3'] on every batch
      ([Model.classes_first_of_top_3]);
    - writer: the file reads back to its rows when ids hold no comma
      or newline ([submission_roundtrip]), and an id holding a newline
      makes two different submissions render to the same text
      ([render_submission_newline_collision]); integer printing
      round-trips.

    ** Bounds and fuel

    Line 59 is modelled as Python computes it ([PyNum.num_batches_py]):
    the quotient is rounded to 53 significant bits with exponents down
    to -1074 and overflows at 2^1024.  It equals the exact ceiling
    [num_batches] for fewer than 2^53 images and a batch size below
    2^1075, so the theorems about a run that reaches the loop assume
    fewer than 2^53 usable images, and a batch size in the int64 range,
    [[-2^63, 2^63)], which line 65 requires.  Printing an integer uses
    [to_digits] with fuel [log2 n + 1], at least the number of decimal
    digits of [n] ([digits_fuel_enough]).  The inference loop runs
    exactly [num_batches] iterations, as [range(num_batches)] does.
    The dataset pipeline is proved for any number [P > 0] of decoder
    threads ([cpu_count()] is not fixed) and any batch size and prefetch
    depth; its executions are bounded by the measure [measure], at most
    [8] events per input element.
    Integers of the script are Python integers (unbounded), kept as [Z].

    ** Not modelled

    The network's numerics and the TensorFlow session (an interface
    whose logits rows have a fixed length), image resizing and
    normalisation (inside the decoder interface), what the batch stage
    does after a failed element (the script stops at the first failed
    batch, so the consumer of [Dataset] stops there too), the parsing
    of the command line into [FLAGS] (absl's parser, a library the
    script only calls and the spec leaves out of scope: [app_run] takes
    its outcome), the shapes of the placeholder and of the decoded
    images (the decoder's output is assumed to have the placeholder's
    shape, as the spec states), progress bars and prints, device
    placement.  The import lines 1-8 and the comments are not code.
    [tf.argmax] is modelled by its reduction order (the lowest index
    among equal maxima, which the [ArgMax] kernel's reducer keeps);
    TensorFlow documents ties as unspecified, and the script never
    fetches [classes].

    With these, every line of [predict.py] that is code has its model;
    what remains outside is outside the repository: [model.py] and
    [data_generator.py] are not in it (the network and the decoder stay
    the interfaces [Classifier] and [ImageCodec]), and absl's flag
    parser is library code the spec excludes.

    ** Findings

    The id is the name up to its first dot, not the name without its
    extension, so two images can share an id; a missing checkpoint leaves a header-only file with its
    handle open; the name counter can truncate an earlier submission;
    JPEGs without a JFIF or Exif marker are routed to the fallback
    ranking; a subdirectory of [data_dir] aborts the run; ids holding a
    newline make the file ambiguous; a negative batch size and an image
    that passes [imghdr] but does not decode abort the run after the
    header, the second leaving a number of rows that depends on the
    batch size; a batch size of 2^63 or more is rejected by the int64
    conversion of line 65 before the file is opened; above 2^53 usable
    images the float division of line 59 rounds, so the loop stops
    early and the last image gets no row, or runs past the end of the
    dataset and raises [OutOfRangeError].  The witnesses of [Validator]
    and [Pipeline] show each on a concrete directory. *)

From stdpp Require Export base list strings gmap.
From Stdlib Require Export ZArith Lia.
From Stdlib Require Export Strings.Byte Ascii.

(** * Results and the state-and-error monad *)

(** The exceptions the script can raise (each one aborts the run). *)
Inductive exn : Type :=
| OSError (path : string)              (** [os.path.getsize] on a missing path *)
| IsADirectoryError (path : string)    (** [open(path, 'rb')] on a directory *)
| NotFoundError (path : string)        (** [tf.gfile]/[tf.read_file] on a missing path *)
| ZeroDivisionError                    (** [len(img_paths) / batch_size] with size 0 *)
| InvalidArgumentError (what : string) (** a TensorFlow kernel rejects its input *)
| OutOfRangeError                      (** [get_next] on an exhausted iterator *)
| ValueError (what : string)           (** [saver.restore] without a checkpoint *)
| OverflowError (what : string).       (** a float or int64 conversion out of range *)

#[export] Instance byte_eq_decision : EqDecision byte := Byte.byte_eq_dec.

#[export] Instance exn_eq_dec : EqDecision exn.
Proof. solve_decision. Defined.

Inductive result (E A : Type) : Type :=
| Ok (a : A)
| Err (e : E).
Arguments Ok {E A} a.
Arguments Err {E A} e.

Definition rbind {E A B} (m : result E A) (k : A -> result E B) : result E B :=
  match m with Ok a => k a | Err e => Err e end.

(** Apply a fallible function to every element, stopping at the first error. *)
Fixpoint result_map {E A B} (f : A -> result E B) (l : list A) : result E (list B) :=
  match l with
  | [] => Ok []
  | x :: l' => rbind (f x) (fun y => rbind (result_map f l') (fun ys => Ok (y :: ys)))
  end.

(** A computation over a state [S] that may raise [E]: the state reached
    before an exception is kept, as the effects of the script are. *)
Definition st (S E A : Type) : Type := S -> S * result E A.

Definition st_ret {S E A} (a : A) : st S E A := fun s => (s, Ok a).
Definition st_bind {S E A B} (m : st S E A) (k : A -> st S E B) : st S E B :=
  fun s => match m s with
           | (s', Ok a) => k a s'
           | (s', Err e) => (s', Err e)
           end.
Definition st_get {S E} : st S E S := fun s => (s, Ok s).
Definition st_modify {S E} (f : S -> S) : st S E unit := fun s => (f s, Ok tt).
Definition st_lift {S E A} (r : result E A) : st S E A := fun s => (s, r).

Declare Scope zl_scope.
Delimit Scope zl_scope with zl.
Notation "x <-? m ;; k" := (rbind m (fun x => k))
  (at level 95, m at level 94, right associativity) : zl_scope.
Notation "x <- m ;; k" := (st_bind m (fun x => k))
  (at level 95, m at level 94, right associativity) : zl_scope.
Notation "'let?' p := m 'in' k" := (rbind m (fun p => k))
  (at level 10, p pattern, m at level 100, k at level 200) : zl_scope.
Notation "'let!' p := m 'in' k" := (st_bind m (fun p => k))
  (at level 10, p pattern, m at level 100, k at level 200) : zl_scope.
Notation "m ;;; k" := (st_bind m (fun _ => k))
  (at level 95, right associativity) : zl_scope.
Open Scope zl_scope.

Lemma st_bind_ok {S E A B} (m : st S E A) (k : A -> st S E B) s s' a :
  m s = (s', Ok a) -> st_bind m k s = k a s'.
Proof. unfold st_bind. by intros ->. Qed.

Lemma st_bind_err {S E A B} (m : st S E A) (k : A -> st S E B) s s' e :
  m s = (s', Err e) -> st_bind m k s = (s', Err e).
Proof. unfold st_bind. by intros ->. Qed.

(** A bind that succeeds ran both its parts successfully. *)
Lemma st_bind_inv_ok {S E A B} (m : st S E A) (k : A -> st S E B) s s' b :
  st_bind m k s = (s', Ok b) -> exists s1 a, m s = (s1, Ok a) /\ k a s1 = (s', Ok b).
Proof. unfold st_bind. destruct (m s) as [s1 [a|e]]; [eauto|done]. Qed.

Lemma st_lift_inv {S E A} (r : result E A) (s s' : S) a :
  st_lift r s = (s', Ok a) -> r = Ok a /\ s' = s.
Proof. by intros [= -> ->]. Qed.

Lemma st_get_inv {S E} (s s' a : S) : @st_get S E s = (s', Ok a) -> s' = s /\ a = s.
Proof. by intros [= -> ->]. Qed.

(** * Shared tactics and hints *)

Create HintDb zl discriminated.

Lemma st_get_ok {S E} (s : S) : @st_get S E s = (s, Ok s).
Proof. reflexivity. Qed.

Lemma st_lift_ok {S E A} (r : result E A) a (s : S) : r = Ok a -> st_lift r s = (s, Ok a).
Proof. unfold st_lift. by intros ->. Qed.

Lemma st_lift_err {S E A} (r : result E A) e (s : S) : r = Err e -> st_lift r s = (s, Err e).
Proof. unfold st_lift. by intros ->. Qed.

#[export] Hint Resolve st_get_ok st_lift_ok st_lift_err : zl.
#[export] Hint Extern 4 (not (@eq Z _ _)) => lia : zl.
#[export] Hint Extern 4 (Z.lt _ _) => lia : zl.
#[export] Hint Extern 4 (Z.le _ _) => lia : zl.

(** Run the binds of a computation as far as the hints of [zl] (and the
    hypotheses) evaluate its steps. *)
Ltac st_run :=
  repeat (first [ erewrite st_bind_ok by (solve [eauto with zl])
                | erewrite st_bind_err by (solve [eauto with zl]) ]; cbv beta iota).

(** * Strings

    stdpp declares [String.append] [simpl never]; its defining equations
    are rewritten instead. *)

Lemma str_app_String x (a b : string) : (String x a ++ b)%string = String x (a ++ b)%string.
Proof. reflexivity. Qed.

Lemma str_app_nil_l (b : string) : ("" ++ b)%string = b.
Proof. reflexivity. Qed.

Create Rewrite HintDb zl_rw.
#[export] Hint Rewrite str_app_String str_app_nil_l : zl_rw.

Lemma list_byte_of_string_String c (a : string) :
  String.list_byte_of_string (String c a) = Ascii.byte_of_ascii c :: String.list_byte_of_string a.
Proof. reflexivity. Qed.

Lemma list_byte_of_string_app (a b : string) :
  String.list_byte_of_string (a ++ b) = String.list_byte_of_string a ++ String.list_byte_of_string b.
Proof.
  induction a as [|c a IH]; [done|].
  by rewrite str_app_String, !list_byte_of_string_String, IH.
Qed.

(** * Generic list lemmas *)

Lemma map_filter_length {A B} (f : A -> B) (p : A -> bool) (l : list A) :
  length (map f (List.filter p l)) + length (map f (List.filter (fun x => negb (p x)) l))
  = length l.
Proof.
  rewrite !length_map. induction l as [|x l IH]; simpl; [done|].
  destruct (p x); simpl; lia.
Qed.

Lemma filter_sublist' {A} (p : A -> bool) (l : list A) :
  List.filter p l `sublist_of` l.
Proof.
  induction l as [|x l IH]; simpl; [constructor|].
  destruct (p x); by constructor.
Qed.
#[export] Hint Resolve filter_sublist' : zl.

Lemma NoDup_incl_length' {A} (l k : list A) :
  NoDup l -> (forall x, x ∈ l -> x ∈ k) -> length l <= length k.
Proof.
  intros Hnd Hincl. apply NoDup_incl_length; [by apply NoDup_ListNoDup|].
  intros x Hx. apply list_elem_of_In, Hincl. by apply list_elem_of_In.
Qed.

Lemma result_map_app_inv {E A B} (f : A -> result E B) (l1 l2 : list A) ys :
  result_map f (l1 ++ l2) = Ok ys ->
  exists ys1 ys2, ys = ys1 ++ ys2 /\ result_map f l1 = Ok ys1 /\ result_map f l2 = Ok ys2.
Proof.
  revert ys. induction l1 as [|x l1 IH]; intros ys; simpl.
  - intros H. by exists [], ys.
  - destruct (f x) as [y|e]; simpl; [|done].
    destruct (result_map f (l1 ++ l2)) as [zs|e] eqn:Hz; simpl; [|done].
    intros [= <-]. destruct (IH zs eq_refl) as (ys1 & ys2 & -> & H1 & H2).
    exists (y :: ys1), ys2. split; [done|]. by rewrite H1, H2.
Qed.

Lemma Forall_zip_fst {A B} (l1 : list A) (l2 : list B) : Forall (fun x => x.1 ∈ l1) (zip l1 l2).
Proof.
  revert l2. induction l1 as [|a l1 IH]; intros [|b l2]; cbn; constructor; [set_solver|].
  eapply Forall_impl; [apply IH|]. set_solver.
Qed.

Lemma result_map_length {E A B} (f : A -> result E B) (l : list A) ys :
  result_map f l = Ok ys -> length ys = length l.
Proof.
  revert ys. induction l as [|x l IH]; intros ys; simpl; [by intros [= <-]|].
  destruct (f x); simpl; [|done]. destruct (result_map f l) eqn:Hl; simpl; [|done].
  intros [= <-]. simpl. by rewrite (IH _ eq_refl).
Qed.

Lemma result_map_app_ok {E A B} (f : A -> result E B) (l1 l2 : list A) ys1 ys2 :
  result_map f l1 = Ok ys1 -> result_map f l2 = Ok ys2 -> result_map f (l1 ++ l2) = Ok (ys1 ++ ys2).
Proof.
  revert ys1. induction l1 as [|x l1 IH]; intros ys1; simpl; [by intros [= <-]|].
  destruct (f x); simpl; [|done]. destruct (result_map f l1) eqn:Hl; simpl; [|done].
  intros [= <-] H2. by rewrite (IH _ eq_refl H2).
Qed.

(** [result_map] fails with the error of the first element that fails. *)
Lemma result_map_err_inv {E A B} (f : A -> result E B) (l : list A) e :
  result_map f l = Err e ->
  exists pre x post ys, l = pre ++ x :: post /\ result_map f pre = Ok ys /\ f x = Err e.
Proof.
  induction l as [|x l IH]; simpl; [done|].
  destruct (f x) as [y|e'] eqn:Hx; simpl.
  - destruct (result_map f l) as [zs|e'] eqn:Hl; simpl; [done|]. intros [= ->].
    destruct (IH eq_refl) as (pre & x' & post & ys & -> & Hpre & Hx').
    exists (x :: pre), x', post, (y :: ys). simpl. by rewrite Hx, Hpre.
  - intros [= ->]. by exists [], x, l, [].
Qed.

Lemma result_map_err_mid {E A B} (f : A -> result E B) pre x post ys e :
  result_map f pre = Ok ys -> f x = Err e -> result_map f (pre ++ x :: post) = Err e.
Proof.
  revert ys. induction pre as [|y pre IH]; intros ys; simpl; [by intros _ ->|].
  destruct (f y); simpl; [|done]. destruct (result_map f pre) eqn:Hp; simpl; [|done].
  intros _ Hx. by rewrite (IH _ eq_refl Hx).
Qed.
