(* ===== verification/PyStr.v ===== *)
(** * Python string operations used by predict.py

    - [py_split_head sep s] is [s.split(sep)[0]] (lines 51 and 53:
      the id of an entry is [str(fn).split('.')[0]]);
    - [os_path_join] is [posixpath.join] with two arguments (line 48);
    - [py_str_Z] is [str] on an integer (line 118, [str(p)]);
    - [py_join] is [sep.join(list)] (line 118).

    The theorems: [split_head] returns the longest dot-free prefix,
    [py_str_Z] prints canonical decimal numerals that [py_int_of_string]
    reads back, and [py_join] is inverted by a splitter on the separator. *)

From S2P Require Import Prelude.
From Stdlib Require Import Ascii String.
Local Open Scope string_scope.
Local Open Scope Z_scope.

Module PyStr.

(** ** [str.split(sep)[0]] *)

Fixpoint py_split_head (sep : ascii) (s : string) : string :=
  match s with
  | EmptyString => EmptyString
  | String c s' => if Ascii.eqb c sep then EmptyString else String c (py_split_head sep s')
  end.

(** ** [os.path.join(a, b)] (posixpath) *)

Fixpoint ends_with_slash (s : string) : bool :=
  match s with
  | EmptyString => false
  | String c EmptyString => Ascii.eqb c "/"
  | String _ s' => ends_with_slash s'
  end.

Definition starts_with_slash (s : string) : bool :=
  match s with
  | String c _ => Ascii.eqb c "/"
  | EmptyString => false
  end.

Definition os_path_join (a b : string) : string :=
  if starts_with_slash b then b
  else if String.eqb a "" || ends_with_slash a then a ++ b
  else a ++ "/" ++ b.

(** ** [str(n)] on integers *)

Definition digit_char (d : Z) : ascii := ascii_of_nat (48 + Z.to_nat d).

(** The decimal digits of [n >= 0], most significant first; [fuel] bounds
    the number of digits. *)
Fixpoint to_digits (fuel : nat) (n : Z) : list Z :=
  match fuel with
  | O => []
  | S f => if n <? 10 then [n] else app (to_digits f (n / 10)) [n mod 10]
  end.

(** A number has at most [log2 n + 1] decimal digits. *)
Definition digits_fuel (n : Z) : nat := S (Z.to_nat (Z.log2 n)).

Definition digits_string (ds : list Z) : string :=
  string_of_list_ascii (map digit_char ds).

Definition py_str_Z (z : Z) : string :=
  if z <? 0 then String "-" (digits_string (to_digits (digits_fuel (- z)) (- z)))
  else digits_string (to_digits (digits_fuel z) z).

(** ** [sep.join(l)] *)

Fixpoint py_join (sep : string) (l : list string) : string :=
  match l with
  | [] => ""
  | [x] => x
  | x :: l' => x ++ sep ++ py_join sep l'
  end.

(** ** Readers used to state the round trips *)

Definition char_digit (c : ascii) : option Z :=
  let n := nat_of_ascii c in
  if (48 <=? n)%nat && (n <=? 57)%nat then Some (Z.of_nat (n - 48)) else None.

Fixpoint parse_digits (s : string) (acc : Z) : option Z :=
  match s with
  | EmptyString => Some acc
  | String c s' =>
      match char_digit c with
      | Some d => parse_digits s' (acc * 10 + d)
      | None => None
      end
  end.

Definition py_int_of_string (s : string) : option Z :=
  match s with
  | EmptyString => None
  | String c s' =>
      if Ascii.eqb c "-" then
        match s' with
        | EmptyString => None
        | _ => option_map Z.opp (parse_digits s' 0)
        end
      else parse_digits s 0
  end.

Definition of_digits (ds : list Z) : Z := fold_left (fun acc d => acc * 10 + d) ds 0.

(** [s.split(c)] for a one-character separator, used to read rows back. *)
Fixpoint split_char (c : ascii) (s : string) : list string :=
  match s with
  | EmptyString => [EmptyString]
  | String d s' =>
      if Ascii.eqb d c then EmptyString :: split_char c s'
      else match split_char c s' with
           | [] => [String d EmptyString]
           | x :: r => String d x :: r
           end
  end.

Fixpoint has_char (c : ascii) (s : string) : bool :=
  match s with
  | EmptyString => false
  | String d s' => Ascii.eqb d c || has_char c s'
  end.

(** ** Lemmas on splitting *)

Lemma split_char_nil c s : split_char c s <> [].
Proof.
  induction s as [|d s IH]; simpl; [done|].
  destruct (Ascii.eqb d c); [done|]. by destruct (split_char c s).
Qed.

Lemma split_char_no_sep c s : has_char c s = false -> split_char c s = [s].
Proof.
  induction s as [|d s IH]; simpl; [done|].
  intros [Hd Hs]%orb_false_iff. rewrite Hd, IH by done. done.
Qed.

Lemma split_char_app c x r :
  has_char c x = false -> split_char c (x ++ String c r) = x :: split_char c r.
Proof.
  induction x as [|d x IH]; simpl.
  - by rewrite Ascii.eqb_refl.
  - intros [Hd Hx]%orb_false_iff. by rewrite Hd, IH.
Qed.

Lemma py_split_head_hd c s : py_split_head c s = hd EmptyString (split_char c s).
Proof.
  induction s as [|d s IH]; simpl; [done|].
  destruct (Ascii.eqb d c); [done|].
  rewrite IH. pose proof (split_char_nil c s). by destruct (split_char c s).
Qed.

(** ** Lemmas on decimal printing *)

Lemma of_digits_snoc ds d : of_digits (ds ++ [d]) = of_digits ds * 10 + d.
Proof. unfold of_digits. by rewrite fold_left_app. Qed.

Lemma to_digits_S f n :
  to_digits (S f) n = if n <? 10 then [n] else app (to_digits f (n / 10)) [n mod 10].
Proof. reflexivity. Qed.

Lemma to_digits_spec f n :
  0 <= n < 10 ^ Z.of_nat (S f) ->
  of_digits (to_digits (S f) n) = n /\ Forall (fun d => 0 <= d < 10) (to_digits (S f) n)
  /\ to_digits (S f) n <> [].
Proof.
  revert n. induction f as [|f IH]; intros n Hn; rewrite to_digits_S;
    destruct (Z.ltb_spec n 10).
  - split; [unfold of_digits; simpl; lia|]. split; [|done]. constructor; [lia|constructor].
  - simpl in Hn. lia.
  - split; [unfold of_digits; simpl; lia|]. split; [|done]. constructor; [lia|constructor].
  - rewrite Nat2Z.inj_succ, Z.pow_succ_r in Hn by lia.
    destruct (IH (n / 10)) as (Hv & Hd & _).
    { split; [apply Z.div_pos; lia|]. apply Z.div_lt_upper_bound; lia. }
    rewrite of_digits_snoc, Hv. split; [|split].
    + pose proof (Z.div_mod n 10). lia.
    + apply Forall_app; split; [done|]. constructor; [|constructor].
      apply Z.mod_pos_bound. lia.
    + by destruct (to_digits (S f) (n / 10)).
Qed.

Lemma digits_fuel_enough n : 0 <= n -> n < 10 ^ Z.of_nat (digits_fuel n).
Proof.
  intros Hn. unfold digits_fuel. rewrite Nat2Z.inj_succ, Z2Nat.id by apply Z.log2_nonneg.
  apply Z.lt_le_trans with (2 ^ Z.succ (Z.log2 n)).
  - destruct (Z.eq_dec n 0) as [->|]; [done|]. apply Z.log2_spec. lia.
  - apply Z.pow_le_mono_l. pose proof (Z.log2_nonneg n). lia.
Qed.

Lemma char_digit_char d : 0 <= d < 10 -> char_digit (digit_char d) = Some d.
Proof.
  intros Hd. unfold char_digit, digit_char.
  rewrite nat_ascii_embedding by lia.
  replace ((48 <=? 48 + Z.to_nat d)%nat && (48 + Z.to_nat d <=? 57)%nat) with true
    by (symmetry; apply andb_true_iff; split; apply Nat.leb_le; lia).
  f_equal. lia.
Qed.

Lemma digits_string_cons d ds :
  digits_string (d :: ds) = String (digit_char d) (digits_string ds).
Proof. reflexivity. Qed.

Lemma parse_digits_String c s acc :
  parse_digits (String c s) acc =
  match char_digit c with Some d => parse_digits s (acc * 10 + d) | None => None end.
Proof. reflexivity. Qed.

Lemma parse_digits_string ds acc :
  Forall (fun d => 0 <= d < 10) ds ->
  parse_digits (digits_string ds) acc = Some (fold_left (fun a d => a * 10 + d) ds acc).
Proof.
  revert acc. induction ds as [|d ds IH]; intros acc Hds; [done|].
  inversion Hds; subst. rewrite digits_string_cons, parse_digits_String, char_digit_char by done.
  by apply IH.
Qed.

Lemma digit_char_not_minus d : 0 <= d < 10 -> Ascii.eqb (digit_char d) "-"%char = false.
Proof.
  intros Hd. apply Ascii.eqb_neq. intros Heq.
  apply (f_equal nat_of_ascii) in Heq. unfold digit_char in Heq.
  rewrite nat_ascii_embedding in Heq by lia.
  change (nat_of_ascii "-"%char) with 45%nat in Heq. lia.
Qed.

Lemma parse_nonneg_digits n :
  0 <= n ->
  parse_digits (digits_string (to_digits (digits_fuel n) n)) 0 = Some n
  /\ exists c s, digits_string (to_digits (digits_fuel n) n) = String c s
                 /\ Ascii.eqb c "-"%char = false.
Proof.
  intros Hn. destruct (to_digits_spec (Z.to_nat (Z.log2 n)) n) as (Hv & Hd & Hne);
    [split; [done | by apply digits_fuel_enough]|].
  unfold digits_fuel. split; [rewrite parse_digits_string by done; f_equal; exact Hv|].
  destruct (to_digits _ n) as [|d ds]; [done|].
  inversion Hd; subst. eexists _, _. split; [reflexivity|]. by apply digit_char_not_minus.
Qed.

(** ** Characters of printed numbers *)

Lemma str_app_assoc (a b c : string) : (a ++ b) ++ c = a ++ (b ++ c).
Proof. induction a as [|x a IH]; [done|]. autorewrite with zl_rw. by rewrite IH. Qed.

Lemma str_app_inv_l (a b c : string) : a ++ b = a ++ c -> b = c.
Proof.
  induction a as [|x a IH]; [by rewrite !str_app_nil_l|].
  rewrite !str_app_String. intros [= H]. by apply IH.
Qed.

Lemma has_char_app c a b : has_char c (a ++ b) = has_char c a || has_char c b.
Proof.
  induction a as [|x a IH]; [done|]. autorewrite with zl_rw. cbn [has_char].
  rewrite IH. apply orb_assoc.
Qed.

Lemma digit_char_code d : 0 <= d < 10 -> nat_of_ascii (digit_char d) = (48 + Z.to_nat d)%nat.
Proof. intros Hd. unfold digit_char. apply nat_ascii_embedding. lia. Qed.

Lemma has_char_digits c ds :
  (nat_of_ascii c < 48 \/ 58 <= nat_of_ascii c)%nat -> Forall (fun d => 0 <= d < 10) ds ->
  has_char c (digits_string ds) = false.
Proof.
  intros Hc. induction 1 as [|d ds Hd _ IH]; [done|].
  rewrite digits_string_cons. cbn [has_char]. rewrite IH, orb_false_r.
  apply Ascii.eqb_neq. intros Heq. apply (f_equal nat_of_ascii) in Heq.
  rewrite digit_char_code in Heq by done. lia.
Qed.

(** Printed integers hold only digits and ['-']: no space, comma or
    newline (every character below ['-'], code 45) and no letter or
    underscore (every character above ['9'], code 57). *)
Lemma py_str_Z_no_char c z :
  (nat_of_ascii c < 45 \/ 58 <= nat_of_ascii c)%nat -> has_char c (py_str_Z z) = false.
Proof.
  intros Hc. unfold py_str_Z.
  assert (Hd : forall n, 0 <= n -> has_char c (digits_string (to_digits (digits_fuel n) n)) = false).
  { intros n Hn. apply has_char_digits; [lia|].
    apply (to_digits_spec (Z.to_nat (Z.log2 n)) n). split; [done|]. by apply digits_fuel_enough. }
  destruct (Z.ltb_spec z 0); [|apply Hd; lia].
  cbn [has_char]. rewrite Hd by lia. rewrite orb_false_r. apply Ascii.eqb_neq.
  intros <-. change (nat_of_ascii "-") with 45%nat in Hc. lia.
Qed.

(** ** Properties *)

(** [s.split(c)[0]] is the longest prefix of [s] free of [c]: what follows
    it is empty or starts with [c]. *)
Lemma py_split_head_spec c s :
  has_char c (py_split_head c s) = false /\
  exists rest, s = py_split_head c s ++ rest /\
               (rest = EmptyString \/ exists r, rest = String c r).
Proof.
  induction s as [|d s (Hh & rest & Hs & Hr)]; simpl.
  - split; [done|]. exists EmptyString. auto.
  - destruct (Ascii.eqb_spec d c) as [->|Hne].
    + split; [done|]. exists (String c s). eauto.
    + simpl. split; [apply orb_false_iff; split; [by apply Ascii.eqb_neq|done]|].
      exists rest. split; [rewrite Hs at 1; reflexivity | done].
Qed.

Lemma py_str_Z_parse z : py_int_of_string (py_str_Z z) = Some z.
Proof.
  unfold py_str_Z. destruct (Z.ltb_spec z 0).
  - destruct (parse_nonneg_digits (- z)) as (Hp & c & s & Hs & _); [lia|].
    rewrite Hs in Hp |- *. unfold py_int_of_string. rewrite Ascii.eqb_refl, Hp.
    simpl. f_equal. lia.
  - destruct (parse_nonneg_digits z) as (Hp & c & s & Hs & Hc); [lia|].
    rewrite Hs in Hp |- *. unfold py_int_of_string. rewrite Hc. exact Hp.
Qed.



(** C34: [str] on integers is read back by [int]: the printed numeral of
    every integer, negative ones included, denotes that integer. *)
Theorem py_str_Z_roundtrip z : py_int_of_string (py_str_Z z) = Some z.
Proof. apply py_str_Z_parse. Qed.

Lemma py_join_cons sep x y l : py_join sep (x :: y :: l) = x ++ sep ++ py_join sep (y :: l).
Proof. reflexivity. Qed.

Lemma has_char_py_join c sep l :
  has_char c sep = false -> Forall (fun x => has_char c x = false) l ->
  has_char c (py_join sep l) = false.
Proof.
  intros Hsep. induction 1 as [|x l Hx _ IH]; [done|].
  destruct l as [|y l]; [done|]. rewrite py_join_cons, !has_char_app, Hx, Hsep, IH. done.
Qed.

(** [sep.join] with a one-character separator is undone by [split] when
    no item contains the separator. *)
Lemma py_join_split c l :
  l <> [] -> Forall (fun x => has_char c x = false) l ->
  split_char c (py_join (String c EmptyString) l) = l.
Proof.
  induction l as [|x [|y l] IH]; intros Hne Hl; [done| |].
  - inversion Hl; subst. by apply split_char_no_sep.
  - inversion Hl; subst. rewrite py_join_cons.
    change (String c EmptyString ++ py_join (String c EmptyString) (y :: l))
      with (String c (py_join (String c EmptyString) (y :: l))).
    rewrite split_char_app by done. f_equal. by apply IH.
Qed.

Lemma py_split_head_app c x r : has_char c x = false -> py_split_head c (x ++ String c r) = x.
Proof. intros H. by rewrite py_split_head_hd, split_char_app. Qed.

(** A printed integer followed by a separator that is neither a digit nor
    ['-'] determines the integer. *)
Lemma py_str_Z_sep_inj (c : ascii) a b s t :
  (nat_of_ascii c < 45 \/ 58 <= nat_of_ascii c)%nat ->
  py_str_Z a ++ String c s = py_str_Z b ++ String c t -> a = b.
Proof.
  intros Hc Heq. apply (f_equal (py_split_head c)) in Heq.
  rewrite !py_split_head_app in Heq by (by apply py_str_Z_no_char).
  apply (f_equal py_int_of_string) in Heq. rewrite !py_str_Z_parse in Heq. congruence.
Qed.

End PyStr.
