(* ===== verification/Imghdr.v ===== *)
(** * The header tests of Python's [imghdr.what]

    [is_valid] (predict.py 38) asks [imghdr.what(img_path)] for the
    format of a file and keeps it when the answer is jpeg, png or gif.
    [imghdr] is a standard-library module the script calls, not code of
    the repository; it is modelled here from its documented behaviour:
    [what] reads the first 32 bytes of the file and returns the answer of
    the first of its tests that recognises them, in the order of the
    module's [tests] list.  The tests are those of the CPython releases
    TensorFlow 1 runs on (3.5 to 3.7): [test_jpeg] recognises only the
    JFIF and Exif markers at offset 6 (the raw [FF D8 FF DB] test came
    in a later release).

    The theorems: the verdict of [is_valid] on a header depends only on
    the jpeg, png and gif tests ([what_valid_iff]) because they come
    first; and a real JPEG whose first segment is neither JFIF nor Exif
    is not recognised ([jpeg_without_jfif_rejected]). *)

From S2P Require Import Prelude.
Local Open Scope string_scope.

Module Imghdr.

Inductive imgtype : Type :=
| jpeg | png | gif | tiff | rgb | pbm | pgm | ppm | rast | xbm | bmp | webp | exr.

#[export] Instance imgtype_eq_dec : EqDecision imgtype.
Proof. solve_decision. Defined.

(** ** Python bytes operations *)

Definition bytes_of (s : string) : list byte := String.list_byte_of_string s.

(** [h[i:j]] *)
Definition py_slice (h : list byte) (i j : nat) : list byte := take (j - i) (drop i h).

(** [h.startswith(p)] *)
Definition startswith (h p : list byte) : bool := bool_decide (take (length p) h = p).

(** [h[i] in s] for a byte string [s], false when [h] is too short. *)
Definition byte_in (h : list byte) (i : nat) (s : list byte) : bool :=
  match h !! i with Some b => bool_decide (b ∈ s) | None => false end.

(** ** The tests, in the order of [imghdr.tests] *)

Definition test_jpeg (h : list byte) : option imgtype :=
  if bool_decide (py_slice h 6 10 = bytes_of "JFIF")
     || bool_decide (py_slice h 6 10 = bytes_of "Exif")
  then Some jpeg else None.

Definition png_magic : list byte := [x89; x50; x4e; x47; x0d; x0a; x1a; x0a].

Definition test_png (h : list byte) : option imgtype :=
  if startswith h png_magic then Some png else None.

Definition test_gif (h : list byte) : option imgtype :=
  if bool_decide (py_slice h 0 6 = bytes_of "GIF87a")
     || bool_decide (py_slice h 0 6 = bytes_of "GIF89a")
  then Some gif else None.

Definition test_tiff (h : list byte) : option imgtype :=
  if bool_decide (py_slice h 0 2 = bytes_of "MM")
     || bool_decide (py_slice h 0 2 = bytes_of "II")
  then Some tiff else None.

Definition test_rgb (h : list byte) : option imgtype :=
  if startswith h [x01; xda] then Some rgb else None.

(** [len(h) >= 3 and h[0] == ord(b'P') and h[1] in digits and
    h[2] in b' \t\n\r'], shared by the three portable-anymap tests. *)
Definition pnm_header (digits : list byte) (h : list byte) : bool :=
  (3 <=? length h)%nat && byte_in h 0 (bytes_of "P") && byte_in h 1 digits
  && byte_in h 2 [x20; x09; x0a; x0d].

Definition test_pbm (h : list byte) : option imgtype :=
  if pnm_header (bytes_of "14") h then Some pbm else None.

Definition test_pgm (h : list byte) : option imgtype :=
  if pnm_header (bytes_of "25") h then Some pgm else None.

Definition test_ppm (h : list byte) : option imgtype :=
  if pnm_header (bytes_of "36") h then Some ppm else None.

Definition test_rast (h : list byte) : option imgtype :=
  if startswith h [x59; xa6; x6a; x95] then Some rast else None.

Definition test_xbm (h : list byte) : option imgtype :=
  if startswith h (bytes_of "#define ") then Some xbm else None.

Definition test_bmp (h : list byte) : option imgtype :=
  if startswith h (bytes_of "BM") then Some bmp else None.

Definition test_webp (h : list byte) : option imgtype :=
  if startswith h (bytes_of "RIFF") && bool_decide (py_slice h 8 12 = bytes_of "WEBP")
  then Some webp else None.

Definition test_exr (h : list byte) : option imgtype :=
  if startswith h [x76; x2f; x31; x01] then Some exr else None.

Definition tests : list (list byte -> option imgtype) :=
  [test_jpeg; test_png; test_gif; test_tiff; test_rgb; test_pbm; test_pgm;
   test_ppm; test_rast; test_xbm; test_bmp; test_webp; test_exr].

(** [for tf in tests: res = tf(h, f); if res: return res] then [None]. *)
Fixpoint first_match (ts : list (list byte -> option imgtype)) (h : list byte)
  : option imgtype :=
  match ts with
  | [] => None
  | t :: ts' => match t h with Some r => Some r | None => first_match ts' h end
  end.

(** [imghdr.what] on the contents of a file: [h = f.read(32)]. *)
Definition what (data : list byte) : option imgtype := first_match tests (take 32 data).

(** The condition of predict.py line 38, on the answer of [what]. *)
Definition accepted (t : option imgtype) : bool :=
  match t with Some jpeg | Some png | Some gif => true | _ => false end.

(** ** Lemmas *)

Definition found (t : option imgtype) : bool := match t with Some _ => true | None => false end.

(** The tests after [test_gif] never answer jpeg, png or gif. *)
Lemma later_tests_not_accepted h :
  accepted (first_match (drop 3 tests) h) = false.
Proof.
  cbn [drop tests first_match].
  unfold test_tiff, test_rgb, test_pbm, test_pgm, test_ppm, test_rast, test_xbm,
    test_bmp, test_webp, test_exr.
  repeat case_match; simplify_eq; done.
Qed.

Lemma test_jpeg_answer h : test_jpeg h = None \/ test_jpeg h = Some jpeg.
Proof. unfold test_jpeg. case_match; auto. Qed.

Lemma test_png_answer h : test_png h = None \/ test_png h = Some png.
Proof. unfold test_png. case_match; auto. Qed.

Lemma test_gif_answer h : test_gif h = None \/ test_gif h = Some gif.
Proof. unfold test_gif. case_match; auto. Qed.

Lemma take_prefix_mismatch (h p q : list byte) n :
  (length q <= n)%nat -> take (length q) h = q -> take (length q) p <> q -> take n h <> p.
Proof.
  intros Hn Hq Hp Heq. apply Hp. rewrite <- Heq, take_take. by rewrite Nat.min_l.
Qed.

(** ** The verdict of [is_valid] on a header *)

Lemma accepted_what data :
  accepted (what data) =
  found (test_jpeg (take 32 data)) || found (test_png (take 32 data))
  || found (test_gif (take 32 data)).
Proof.
  unfold what. set (h := take 32 data).
  pose proof (later_tests_not_accepted h) as Hl. cbn [drop tests first_match] in Hl |- *.
  destruct (test_jpeg_answer h) as [-> | ->]; [|done].
  destruct (test_png_answer h) as [-> | ->]; [|done].
  destruct (test_gif_answer h) as [-> | ->]; done.
Qed.

(** C10: [accepted (what data)] holds exactly when one of the first three
    tests (jpeg, png, gif) recognises the first 32 bytes: the later tests
    of [imghdr] cannot make a file usable, nor can they hide a usable one. *)
Theorem what_valid_iff data :
  accepted (what data) =
  found (test_jpeg (take 32 data)) || found (test_png (take 32 data))
  || found (test_gif (take 32 data)).
Proof. apply accepted_what. Qed.

(** C32: A file that starts with the JPEG start-of-image marker [FF D8] but
    whose bytes 6 to 9 are neither "JFIF" nor "Exif" (a JPEG whose first
    segment is an Adobe [APP14] or an ICC [APP2] segment, or a raw
    quantisation table) is not accepted: [is_valid] routes such a
    well-formed JPEG to the corrupted files. *)
Theorem jpeg_without_jfif_rejected data :
  take 2 data = [xff; xd8] ->
  py_slice data 6 10 <> bytes_of "JFIF" -> py_slice data 6 10 <> bytes_of "Exif" ->
  accepted (what data) = false.
Proof.
  intros Hsoi Hj He. rewrite accepted_what.
  assert (Hs : py_slice (take 32 data) 6 10 = py_slice data 6 10).
  { unfold py_slice. rewrite skipn_firstn_comm, take_take. f_equal. }
  assert (Hsoi' : take 2 (take 32 data) = [xff; xd8]) by (rewrite take_take; exact Hsoi).
  unfold test_jpeg, test_png, test_gif, startswith. rewrite Hs.
  rewrite !bool_decide_eq_false_2; try done.
  - eapply take_prefix_mismatch with (q := [xff; xd8]); [simpl; lia | done | done].
  - eapply take_prefix_mismatch with (q := [xff; xd8]); [simpl; lia | done | done].
  - eapply take_prefix_mismatch with (q := [xff; xd8]); [simpl; lia | done | done].
Qed.

(** ** Witnesses *)

(** The header of a JPEG that opens with an Adobe [APP14] segment. *)
Lemma jpeg_without_jfif_rejected_witness :
  accepted (what (app [xff; xd8; xff; xee; x00; x0e] (bytes_of "Adobe"))) = false.
Proof.
  apply jpeg_without_jfif_rejected; vm_compute; [reflexivity | discriminate | discriminate].
Defined.

End Imghdr.
