(* ===== verification/Config.v ===== *)
(** * The command-line flags of predict.py (lines 13-32)

    [tf.flags] defines seven options with defaults; the script reads them
    through the global [FLAGS].  They are modelled as one immutable record
    passed to every component, with [default_config] holding the defaults.
    [num_threads] and [allow_soft_placement] are carried but do not change
    what the script computes. *)

From S2P Require Import Prelude.
Local Open Scope string_scope.

Record config : Type := {
  data_dir : string;
  checkpoint_dir : string;
  batch_size : Z;
  num_threads : Z;
  image_size : Z;
  net : string;
  allow_soft_placement : bool
}.

Definition default_config : config := {|
  data_dir := "data/Public";
  checkpoint_dir := "models/0_inception_resnet_v2";
  batch_size := 16;
  num_threads := 8;
  image_size := 299;
  net := "inception_resnet_v2";
  allow_soft_placement := true
|}.
