(* ===== verification/Validator.v ===== *)
(** * The file validator: [is_valid] and [list_files] (predict.py 35-54)

    The file system is a finite map from path strings to nodes: a regular
    file holds its bytes, a directory holds the size [os.path.getsize]
    reports for it and its entry names in the order [ListDirectory]
    returns them.  Keys are the strings the script passes (it never
    normalises a path), so [os.path.join(data_dir, fn)] is looked up as
    written.

    - [getsize], [imghdr_what]: [os.path.getsize] and [imghdr.what] on a
      path, with the exceptions they raise on a missing path or on a
      directory;
    - [is_valid] (35-40): size zero gives [False], then the header test;
    - [list_directory]: [tf.gfile.ListDirectory], which raises
      [NotFoundError] unless the path is a directory;
    - [list_files_loop], [list_files] (43-54): the loop over the listing
      with its three accumulators.

    The theorems: the partition of the listing into usable and corrupted
    entries, in order and without loss ([list_files_spec], [list_files_counts]); the
    error of a failed scan is the one of the first entry whose check
    fails ([list_files_loop_err]); the routing of zero-byte and
    bad-header files; the crash on a subdirectory; the repeated id of
    two usable names that agree up to their first dot. *)

From S2P Require Import Prelude PyStr Imghdr Config.
Import PyStr Imghdr.
Local Open Scope string_scope.
Local Open Scope Z_scope.

Module Validator.

Inductive node : Type :=
| File (data : list byte)
| Dir (size : Z) (entries : list string).

(** ** Operations on paths *)

Definition getsize (fs : gmap string node) (path : string) : result exn Z :=
  match fs !! path with
  | None => Err (OSError path)
  | Some (File d) => Ok (Z.of_nat (length d))
  | Some (Dir sz _) => Ok sz
  end.

(** [imghdr.what(path)] opens the file and reads its first 32 bytes. *)
Definition imghdr_what (fs : gmap string node) (path : string) : result exn (option imgtype) :=
  match fs !! path with
  | None => Err (OSError path)
  | Some (Dir _ _) => Err (IsADirectoryError path)
  | Some (File d) => Ok (what d)
  end.

Definition list_directory (fs : gmap string node) (dir : string) : result exn (list string) :=
  match fs !! dir with
  | Some (Dir _ es) => Ok es
  | _ => Err (NotFoundError dir)
  end.

(** ** [is_valid] (lines 35-40) *)

Definition is_valid (fs : gmap string node) (img_path : string) : result exn bool :=
  sz <-? getsize fs img_path ;;
  if Z.eqb sz 0 then Ok false
  else t <-? imghdr_what fs img_path ;;
       if accepted t then Ok true else Ok false.

(** ** [list_files] (lines 43-54) *)

(** [str(fn).split('.')[0]] *)
Definition file_id (fn : string) : string := py_split_head "."%char fn.

Fixpoint list_files_loop (fs : gmap string node) (dir : string) (fns : list string)
    (img_paths ids corrupted : list string)
    : result exn (list string * list string * list string) :=
  match fns with
  | [] => Ok (img_paths, ids, corrupted)
  | fn :: rest =>
      let img_path := os_path_join dir fn in
      v <-? is_valid fs img_path ;;
      if v then list_files_loop fs dir rest (app img_paths [img_path]) (app ids [file_id fn]) corrupted
      else list_files_loop fs dir rest img_paths ids (app corrupted [file_id fn])
  end.

Definition list_files (cfg : config) (fs : gmap string node)
    : result exn (list string * list string * list string) :=
  fns <-? list_directory fs (data_dir cfg) ;;
  list_files_loop fs (data_dir cfg) fns [] [] [].

(** The verdict of an entry, [false] when its check raises. *)
Definition entry_ok (fs : gmap string node) (dir fn : string) : bool :=
  match is_valid fs (os_path_join dir fn) with Ok b => b | Err _ => false end.

Definition partition_of (fs : gmap string node) (dir : string) (fns : list string)
    : list string * list string * list string :=
  (map (os_path_join dir) (List.filter (entry_ok fs dir) fns),
   map file_id (List.filter (entry_ok fs dir) fns),
   map file_id (List.filter (fun fn => negb (entry_ok fs dir fn)) fns)).

Definition checks_pass (fs : gmap string node) (dir : string) (fns : list string) : Prop :=
  Forall (fun fn => exists b, is_valid fs (os_path_join dir fn) = Ok b) fns.

(** ** A data directory used by the examples

    [d] lists a GIF file saved as [a.jpg], a text file saved as [b.jpg]
    and an empty [c.png] (the scenario of the spec's section 8), and
    holds a subdirectory [d/sub] that it does not list. *)

Definition demo_fs : gmap string node :=
  <[ "d" := Dir 4096 ["a.jpg"; "b.jpg"; "c.png"] ]>
  (<[ "d/a.jpg" := File (app (bytes_of "GIF89a") [x01; x00; x01; x00]) ]>
  (<[ "d/b.jpg" := File (bytes_of "plain text") ]>
  (<[ "d/c.png" := File [] ]>
  (<[ "d/sub" := Dir 4096 [] ]> ∅)))).

(** [e] lists two GIF files whose names agree up to the first dot. *)
Definition dup_fs : gmap string node :=
  <[ "e" := Dir 4096 ["a.b.jpg"; "a.c.jpg"] ]>
  (<[ "e/a.b.jpg" := File (app (bytes_of "GIF89a") [x01; x00; x01; x00]) ]>
  (<[ "e/a.c.jpg" := File (app (bytes_of "GIF87a") [x02; x00; x02; x00]) ]> ∅)).

Definition demo_cfg : config := {|
  data_dir := "d"; checkpoint_dir := "m"; batch_size := 2; num_threads := 8;
  image_size := 299; net := "toy"; allow_soft_placement := true |}.

(** ** [is_valid] on each kind of path *)

(** A path of size zero is corrupted, whatever its name or its content. *)
Lemma is_valid_size_zero fs p :
  getsize fs p = Ok 0 -> is_valid fs p = Ok false.
Proof. unfold is_valid. by intros ->. Qed.

(** C11: A non-empty regular file is usable exactly when [imghdr] recognises
    its first bytes as jpeg, png or gif; its name plays no part. *)
Lemma is_valid_file fs p d :
  fs !! p = Some (File d) -> d <> [] -> is_valid fs p = Ok (accepted (what d)).
Proof.
  intros Hp Hd. unfold is_valid, getsize, imghdr_what. rewrite Hp. simpl.
  destruct d; [done|]. simpl. by destruct (accepted (what _)).
Qed.

(** C33: A subdirectory of non-zero size makes [imghdr.what] open a directory:
    the check raises instead of classifying the entry. *)
Lemma is_valid_subdirectory fs p sz es :
  fs !! p = Some (Dir sz es) -> sz <> 0 -> is_valid fs p = Err (IsADirectoryError p).
Proof.
  intros Hp Hsz. unfold is_valid, getsize, imghdr_what. rewrite Hp. simpl.
  by destruct (Z.eqb_spec sz 0).
Qed.

(** ** The loop of [list_files] *)

Lemma list_files_loop_ok fs dir fns p i c :
  checks_pass fs dir fns ->
  list_files_loop fs dir fns p i c =
  Ok (app p (map (os_path_join dir) (List.filter (entry_ok fs dir) fns)),
      app i (map file_id (List.filter (entry_ok fs dir) fns)),
      app c (map file_id (List.filter (fun fn => negb (entry_ok fs dir fn)) fns))).
Proof.
  revert p i c. induction fns as [|fn fns IH]; intros p i c Hpass; simpl.
  - by rewrite !app_nil_r.
  - inversion Hpass as [|? ? [b Hb] Hrest]; subst.
    assert (Hok : entry_ok fs dir fn = b) by (unfold entry_ok; by rewrite Hb).
    rewrite Hb, Hok. simpl.
    destruct b; simpl; rewrite IH by done; by rewrite <- !app_assoc.
Qed.

Lemma list_files_loop_ok_inv fs dir fns p i c r :
  list_files_loop fs dir fns p i c = Ok r -> checks_pass fs dir fns.
Proof.
  revert p i c. induction fns as [|fn fns IH]; intros p i c; cbn [list_files_loop];
    [constructor|].
  destruct (is_valid fs (os_path_join dir fn)) as [b|e] eqn:Hb; cbn [rbind]; [|done].
  intros H. constructor; [eauto|]. destruct b; exact (IH _ _ _ H).
Qed.

(** C31: the scan fails exactly when the check of some entry raises, and
    then with the exception of the first such entry, every entry before
    it having been checked successfully. *)
Theorem list_files_loop_err fs dir fns p i c e :
  list_files_loop fs dir fns p i c = Err e <->
  exists pre fn post, fns = app pre (fn :: post) /\ checks_pass fs dir pre /\
                      is_valid fs (os_path_join dir fn) = Err e.
Proof.
  revert p i c. induction fns as [|fn fns IH]; intros p i c; cbn [list_files_loop].
  - split; [done|]. intros ([|??] & ? & ? & ? & _); done.
  - destruct (is_valid fs (os_path_join dir fn)) as [b|e'] eqn:Hb; cbn [rbind].
    + transitivity (exists pre fn' post, fns = app pre (fn' :: post) /\
        checks_pass fs dir pre /\ is_valid fs (os_path_join dir fn') = Err e);
        [destruct b; apply IH|].
      split.
      * intros (pre & fn' & post & -> & Hpre & He).
        exists (fn :: pre), fn', post. split; [done|]. split; [constructor; eauto|done].
      * intros ([|x pre] & fn' & post & Heq & Hpre & He); simplify_eq/=; [congruence|].
        inversion Hpre; eauto 10.
    + split.
      * intros [= <-]. exists [], fn, fns. split; [done|]. split; [constructor|done].
      * intros ([|x pre] & fn' & post & Heq & Hpre & He); simplify_eq/=; [congruence|].
        inversion Hpre as [|? ? [b Hb'] _]. congruence.
Qed.

(** ** [list_files] *)

Lemma list_files_ok_partition cfg fs r :
  list_files cfg fs = Ok r ->
  exists fns, list_directory fs (data_dir cfg) = Ok fns /\
              checks_pass fs (data_dir cfg) fns /\ r = partition_of fs (data_dir cfg) fns.
Proof.
  unfold list_files. destruct (list_directory fs (data_dir cfg)) as [fns|e]; cbn [rbind]; [|done].
  intros H. exists fns. split; [done|].
  pose proof (list_files_loop_ok_inv _ _ _ _ _ _ _ H) as Hp. split; [done|].
  rewrite list_files_loop_ok in H by done. by injection H as <-.
Qed.

(** Every usable path is a regular file of the file system. *)
Lemma list_files_paths_files cfg fs paths ids cor :
  list_files cfg fs = Ok (paths, ids, cor) ->
  Forall (fun p => exists d, fs !! p = Some (File d)) paths.
Proof.
  intros (fns & _ & _ & Hr)%list_files_ok_partition. unfold partition_of in Hr. simplify_eq.
  apply Forall_forall. intros p (fn & -> & Hfn)%list_elem_of_fmap_1.
  apply list_elem_of_In, filter_In in Hfn as [_ Hok]. unfold entry_ok, is_valid in Hok.
  unfold getsize, imghdr_what in Hok.
  destruct (fs !! os_path_join (data_dir cfg) fn) as [[d|sz es]|]; cbn [rbind] in Hok; [eauto|..|done].
  by destruct (Z.eqb sz 0).
Qed.

(** C3: [list_files] succeeds exactly when [data_dir] is a directory and
    every entry's check succeeds; its result is then the partition of the
    listing, in listing order, into the paths and ids of the usable
    entries and the ids of the corrupted ones. *)
Theorem list_files_spec cfg fs r :
  list_files cfg fs = Ok r <->
  exists fns, list_directory fs (data_dir cfg) = Ok fns /\
              checks_pass fs (data_dir cfg) fns /\ r = partition_of fs (data_dir cfg) fns.
Proof.
  split; [apply list_files_ok_partition|].
  intros (fns & Hd & Hp & ->). unfold list_files. rewrite Hd. cbn [rbind].
  by rewrite list_files_loop_ok.
Qed.

(** C22: every entry of the listing lands in exactly one of the two lists:
    the usable and corrupted ids together are as many as the entries, the
    usable paths match the usable ids one for one, and both id lists are
    subsequences of the listing's ids. *)
Corollary list_files_counts cfg fs paths ids cor :
  list_files cfg fs = Ok (paths, ids, cor) ->
  exists fns, list_directory fs (data_dir cfg) = Ok fns /\
    (length ids + length cor = length fns)%nat /\ length paths = length ids /\
    ids `sublist_of` map file_id fns /\ cor `sublist_of` map file_id fns.
Proof.
  intros (fns & Hd & _ & Hr)%list_files_ok_partition. unfold partition_of in Hr. simplify_eq.
  exists fns. split; [done|]. split; [apply map_filter_length|].
  split; [by rewrite !length_map|].
  split; apply (fmap_sublist file_id); apply filter_sublist'.
Qed.

(** Two distinct elements of a list with the same image under [f]
    make [map f] of the list repeat a value. *)
Lemma NoDup_map_eq {A B} (f : A -> B) l u v :
  NoDup (map f l) -> u ∈ l -> v ∈ l -> f u = f v -> u = v.
Proof.
  induction l as [|z l IH]; intros Hnd Hu Hv Hf; [set_solver|].
  cbn [map] in Hnd. apply NoDup_cons in Hnd as [Hz Hnd].
  apply elem_of_cons in Hu as [->|Hu], Hv as [->|Hv]; auto.
  - destruct Hz. rewrite Hf. by apply list_elem_of_fmap_2.
  - destruct Hz. rewrite <- Hf. by apply list_elem_of_fmap_2.
Qed.

Lemma entry_ok_filter fs dir fns fn :
  fn ∈ fns -> is_valid fs (os_path_join dir fn) = Ok true -> fn ∈ List.filter (entry_ok fs dir) fns.
Proof.
  intros Hin Hv. apply list_elem_of_In, filter_In. split; [by apply list_elem_of_In|].
  unfold entry_ok. by rewrite Hv.
Qed.

(** C38: the id of an entry is its name up to the first dot, not the
    name without its extension: when the data directory lists two
    distinct usable images whose names agree up to their first dot,
    such as [a.b.jpg] and [a.c.jpg], the ids [list_files] returns hold
    that prefix and repeat it, so the submission has two rows for one id. *)
Theorem list_files_duplicate_ids cfg fs fns paths ids cor a x y :
  has_char "."%char a = false -> x <> y ->
  list_directory fs (data_dir cfg) = Ok fns ->
  a ++ "." ++ x ∈ fns -> a ++ "." ++ y ∈ fns ->
  is_valid fs (os_path_join (data_dir cfg) (a ++ "." ++ x)) = Ok true ->
  is_valid fs (os_path_join (data_dir cfg) (a ++ "." ++ y)) = Ok true ->
  list_files cfg fs = Ok (paths, ids, cor) ->
  a ∈ ids /\ ~ NoDup ids.
Proof.
  intros Ha Hxy Hd Hx Hy Hvx Hvy (fns' & Hd' & _ & Hr)%list_files_ok_partition.
  rewrite Hd in Hd'. injection Hd' as <-. unfold partition_of in Hr. simplify_eq.
  pose proof (entry_ok_filter _ _ _ _ Hx Hvx) as Hfx.
  pose proof (entry_ok_filter _ _ _ _ Hy Hvy) as Hfy.
  assert (Hid : forall r, file_id (a ++ "." ++ r) = a) by (intros r; by apply py_split_head_app).
  split; [rewrite <- (Hid x); by apply list_elem_of_fmap_2|].
  intros Hnd. apply Hxy, (str_app_inv_l "."), (str_app_inv_l a).
  apply (NoDup_map_eq file_id _ _ _ Hnd Hfx Hfy). by rewrite !Hid.
Qed.

(** ** Examples and witnesses *)

(** The scenario of the spec: [a] is usable, [b] (text under a [.jpg]
    name) and [c] (zero bytes) are corrupted, in listing order. *)
Example spec_scenario : list_files demo_cfg demo_fs = Ok (["d/a.jpg"], ["a"], ["b"; "c"]).
Proof. vm_compute. reflexivity. Qed.

Lemma is_valid_size_zero_witness : is_valid demo_fs "d/c.png" = Ok false.
Proof. apply is_valid_size_zero. vm_compute. reflexivity. Defined.

Lemma is_valid_file_witness :
  is_valid demo_fs "d/b.jpg" = Ok (accepted (what (bytes_of "plain text"))).
Proof. apply is_valid_file; vm_compute; [reflexivity | discriminate]. Defined.

Lemma is_valid_subdirectory_witness : is_valid demo_fs "d/sub" = Err (IsADirectoryError "d/sub").
Proof. apply (is_valid_subdirectory demo_fs "d/sub" 4096 []); [vm_compute; reflexivity | lia]. Defined.

Lemma list_files_counts_witness :
  exists fns, list_directory demo_fs (data_dir demo_cfg) = Ok fns /\
    (length ["a"] + length ["b"; "c"] = length fns)%nat /\ length ["d/a.jpg"] = length ["a"] /\
    ["a"] `sublist_of` map file_id fns /\ ["b"; "c"] `sublist_of` map file_id fns.
Proof. apply list_files_counts. vm_compute. reflexivity. Defined.

Lemma list_files_duplicate_ids_witness :
  list_files (Config.Build_config "e" "m" 2 8 299 "toy" true) dup_fs =
    Ok (["e/a.b.jpg"; "e/a.c.jpg"], ["a"; "a"], []) /\
  "a" ∈ ["a"; "a"] /\ ~ NoDup ["a"; "a"].
Proof.
  split; [vm_compute; reflexivity|].
  apply (list_files_duplicate_ids (Config.Build_config "e" "m" 2 8 299 "toy" true) dup_fs
           ["a.b.jpg"; "a.c.jpg"] ["e/a.b.jpg"; "e/a.c.jpg"] ["a"; "a"] [] "a" "b.jpg" "c.jpg");
    first [vm_compute; reflexivity | discriminate | apply (bool_decide_unpack _); vm_compute; exact I].
Defined.

End Validator.
