(* ===== verification/Batching.v ===== *)
(** * The batch loader: [num_batches] and the batch iterator

    [init_data_generator] (predict.py 57-73) computes
    [num_batches = int(np.ceil(len(img_paths) / FLAGS.batch_size))] and
    builds [Dataset.from_tensor_slices(...).map(parse).batch(B).prefetch(B)];
    [main] initialises the iterator (line 109) and calls [get_next]
    exactly [num_batches] times (110-113).

    - [num_batches]: the count as the exact ceiling [- ((- n) / B)]
      over [Z], [ZeroDivisionError] on a batch size of 0.  Python's [/]
      is a float division: [PyNum.num_batches_py] is line 59 as the
      script computes it, and equals [num_batches] for fewer than 2^53
      images ([PyNum.num_batches_py_exact]); [main] runs the former.
    - [batch_init]: the [BatchDataset] kernel rejects a batch size that
      is not positive when the iterator is initialised.
    - [get_next]: the next batch of the single-pass iterator, whose state
      is the list of elements not yet consumed: up to [B] elements, a
      shorter last batch, [OutOfRangeError] once nothing is left.
    - [run_batches]: [k] successive calls of [get_next], the loop of
      lines 110-113 without its body.

    The theorems: [num_batches] is the ceiling, the loop run for
    [num_batches] iterations consumes the whole input and never raises,
    the batches concatenate to the input, all have [B] elements but the
    last, and one more call would raise [OutOfRangeError].  The map step
    and the prefetch buffer do not reorder elements; the order argument
    is the subject of a later file. *)

From S2P Require Import Prelude.
Local Open Scope Z_scope.

Module Batching.

Definition num_batches (n : nat) (batch_size : Z) : result exn Z :=
  if Z.eqb batch_size 0 then Err ZeroDivisionError
  else Ok (- ((- Z.of_nat n) / batch_size)).

Definition batch_init (batch_size : Z) : result exn nat :=
  if batch_size <=? 0 then Err (InvalidArgumentError "Batch size must be greater than zero.")
  else Ok (Z.to_nat batch_size).

Section Iterator.
Context {A : Type}.

(** [sess.run(get_next)] on the batched dataset. *)
Definition get_next (B : nat) (it : list A) : result exn (list A * list A) :=
  match it with
  | [] => Err OutOfRangeError
  | _ :: _ => Ok (take B it, drop B it)
  end.

(** [k] calls of [get_next]: the batches produced and the iterator left. *)
Fixpoint run_batches (k : nat) (B : nat) (it : list A) : result exn (list (list A) * list A) :=
  match k with
  | O => Ok ([], it)
  | S k' =>
      let? (b, it') := get_next B it in
      let? (bs, it'') := run_batches k' B it' in
      Ok (b :: bs, it'')
  end.

(** The reference: the batches as consecutive slices [xs[i*B:(i+1)*B]]. *)
Fixpoint batch_slices (k : nat) (B : nat) (xs : list A) : list (list A) :=
  match k with
  | O => []
  | S k' => take B xs :: batch_slices k' B (drop B xs)
  end.

(** ** Slices *)

Lemma batch_slices_lookup k B xs i :
  (i < k)%nat -> batch_slices k B xs !! i = Some (take B (drop (i * B) xs)).
Proof.
  revert xs i. induction k as [|k IH]; intros xs i Hi; [lia|].
  destruct i as [|i]; simpl; [done|].
  rewrite IH by lia. by rewrite drop_drop, Nat.add_comm.
Qed.

Lemma length_batch_slices k B xs : length (batch_slices k B xs) = k.
Proof. revert xs. induction k; simpl; auto. Qed.

Lemma concat_batch_slices k B xs : concat (batch_slices k B xs) = take (k * B) xs.
Proof.
  revert xs. induction k as [|k IH]; intros xs; simpl; [done|].
  by rewrite IH, take_take_drop.
Qed.

(** ** The iterator *)

Lemma run_batches_eq k B xs :
  (0 < B)%nat ->
  run_batches k B xs =
  if decide (k = 0%nat \/ ((k - 1) * B < length xs)%nat)
  then Ok (batch_slices k B xs, drop (k * B) xs) else Err OutOfRangeError.
Proof.
  intros HB. revert xs. induction k as [|k IH]; intros xs; [done|].
  cbn [run_batches]. destruct xs as [|x xs'].
  - destruct (decide (S k = 0%nat \/ _)) as [[H|H]|H]; [discriminate | cbn in H; lia | done].
  - cbn [get_next rbind]. rewrite IH. set (ys := x :: xs').
    assert (Hlen : (0 < length ys)%nat) by (simpl; lia).
    destruct (decide (k = 0%nat \/ _)) as [H1|H1];
      destruct (decide (S k = 0%nat \/ _)) as [H2|H2];
      rewrite ?length_drop in H1; try nia; cbn [rbind batch_slices]; [|done].
    by rewrite drop_drop.
Qed.

Lemma run_batches_S_ok k B it bs rest :
  run_batches (S k) B it = Ok (bs, rest) ->
  exists b it' bs', get_next B it = Ok (b, it') /\ run_batches k B it' = Ok (bs', rest) /\
                    bs = b :: bs'.
Proof.
  cbn [run_batches]. destruct (get_next B it) as [[b it']|e]; cbn [rbind]; [|done].
  destruct (run_batches k B it') as [[bs' r]|e] eqn:Hr; cbn [rbind]; [|done].
  intros [= <- <-]. by exists b, it', bs'.
Qed.

Lemma run_batches_Forall (P : A -> Prop) k B it bs rest :
  Forall P it -> run_batches k B it = Ok (bs, rest) -> Forall P (concat bs) /\ Forall P rest.
Proof.
  revert it bs. induction k as [|k IH]; intros it bs Hit; [by intros [= <- <-]|].
  intros (b & it' & bs' & Hg & Hr & ->)%run_batches_S_ok.
  destruct it as [|x it0]; [done|]. injection Hg as <- <-.
  destruct (IH _ _ (Forall_drop _ B _ Hit) Hr) as [H1 H2].
  split; [|done]. simpl. apply Forall_app; split; [by apply Forall_take|done].
Qed.

(** C25: [k] calls of [get_next] succeed exactly when the [k]-th call still
    finds an element, i.e. [(k-1)*B < length xs]; they then return the
    slices [xs[i*B:(i+1)*B]] for [i < k] and leave [xs[k*B:]]; otherwise
    the first call past the end raises [OutOfRangeError]. *)
Theorem run_batches_spec k B xs :
  (0 < B)%nat ->
  run_batches k B xs =
  if decide (k = 0%nat \/ ((k - 1) * B < length xs)%nat)
  then Ok (batch_slices k B xs, drop (k * B) xs) else Err OutOfRangeError.
Proof. apply run_batches_eq. Qed.

Lemma get_next_ok B (it : list A) : it <> [] -> get_next B it = Ok (take B it, drop B it).
Proof. by destruct it. Qed.

Lemma take_drop_nonempty (B i : nat) (xs : list A) :
  (0 < B)%nat -> (i * B < length xs)%nat -> take B (drop (i * B) xs) <> [].
Proof.
  intros HB Hi Heq. apply (f_equal length) in Heq.
  rewrite length_take, length_drop in Heq. simpl in Heq. lia.
Qed.

End Iterator.

(** ** The batch count *)

Lemma num_batches_ok n B : B <> 0 -> num_batches n B = Ok (- ((- Z.of_nat n) / B)).
Proof. intros HB. unfold num_batches. by destruct (Z.eqb_spec B 0). Qed.

Lemma num_batches_zero n B : B = 0 -> num_batches n B = Err ZeroDivisionError.
Proof. intros ->. reflexivity. Qed.

Lemma batch_init_ok B : 0 < B -> batch_init B = Ok (Z.to_nat B).
Proof. intros HB. unfold batch_init. destruct (Z.leb_spec B 0); [lia|done]. Qed.

Lemma batch_init_err B :
  B <= 0 -> batch_init B = Err (InvalidArgumentError "Batch size must be greater than zero.").
Proof. intros HB. unfold batch_init. by destruct (Z.leb_spec B 0); [|lia]. Qed.

#[export] Hint Resolve num_batches_zero batch_init_ok batch_init_err : zl.

Lemma num_batches_bounds n B :
  0 < B -> exists q, num_batches n B = Ok q /\ 0 <= q /\
                     (q - 1) * B < Z.of_nat n <= q * B.
Proof.
  intros HB. unfold num_batches. destruct (Z.eqb_spec B 0); [lia|].
  eexists; split; [reflexivity|].
  pose proof (Z.div_mod (- Z.of_nat n) B ltac:(lia)).
  pose proof (Z.mod_pos_bound (- Z.of_nat n) B HB).
  assert ((- Z.of_nat n) / B <= 0) by (apply Z.div_le_upper_bound; lia).
  nia.
Qed.

Lemma num_batches_nat n B :
  (0 < B)%nat -> exists k, num_batches n (Z.of_nat B) = Ok (Z.of_nat k) /\
                           (k = 0 \/ (k - 1) * B < n)%nat /\ (n <= k * B)%nat.
Proof.
  intros HB. destruct (num_batches_bounds n (Z.of_nat B)) as (q & Hq & Hq0 & Hlo & Hhi); [lia|].
  exists (Z.to_nat q). rewrite Z2Nat.id by done. split; [done|]. split; nia.
Qed.

(** ** The loop of [main] drains the iterator *)

(** C5: with a positive batch size, the [num_batches] calls of [get_next]
    made by the loop of [main] all succeed, consume the whole input and
    return batches that are non-empty and concatenate to the input in
    order; one more call would raise [OutOfRangeError], so the count is
    exact. *)
Theorem main_loop_drains {A} (B : nat) (xs : list A) :
  (0 < B)%nat ->
  exists q bs, num_batches (length xs) (Z.of_nat B) = Ok q /\
    run_batches (Z.to_nat q) B xs = Ok (bs, []) /\
    concat bs = xs /\ Forall (fun b => b <> []) bs /\
    run_batches (S (Z.to_nat q)) B xs = Err OutOfRangeError.
Proof.
  intros HB. destruct (num_batches_nat (length xs) B HB) as (k & Hk & Hlo & Hhi).
  exists (Z.of_nat k), (batch_slices k B xs). rewrite Nat2Z.id.
  split; [done|]. rewrite !run_batches_eq by done.
  rewrite decide_True by done. rewrite drop_ge by nia.
  split; [done|]. split; [rewrite concat_batch_slices; apply take_ge; nia|].
  split.
  - apply Forall_lookup. intros i b Hb.
    assert (Hi : (i < k)%nat) by (rewrite <- (length_batch_slices k B xs); by eapply lookup_lt_Some).
    rewrite batch_slices_lookup in Hb by done. injection Hb as <-.
    apply take_drop_nonempty; [done|]. destruct Hlo; nia.
  - rewrite decide_False; [done|]. intros [H|H]; [done|]. simpl in H. nia.
Qed.

Lemma loop_drains {A} (B : nat) (xs : list A) :
  (0 < B)%nat ->
  exists q bs, num_batches (length xs) (Z.of_nat B) = Ok q /\
    run_batches (Z.to_nat q) B xs = Ok (bs, []) /\ concat bs = xs.
Proof.
  intros HB. destruct (num_batches_nat (length xs) B HB) as (k & Hk & Hlo & Hhi).
  exists (Z.of_nat k), (batch_slices k B xs). rewrite Nat2Z.id.
  split; [done|]. rewrite run_batches_eq, decide_True, drop_ge by (done || nia).
  split; [done|]. rewrite concat_batch_slices. apply take_ge. nia.
Qed.

(** C23: all batches have [B] elements except the last, which holds what
    is left: [length xs - (k - 1) * B] elements, between 1 and [B]. *)
Theorem batch_sizes {A} (B : nat) (xs : list A) q bs :
  (0 < B)%nat -> num_batches (length xs) (Z.of_nat B) = Ok q ->
  run_batches (Z.to_nat q) B xs = Ok (bs, []) ->
  forall i b, bs !! i = Some b ->
  length b = (if decide (S i < length bs)%nat then B else length xs - (length bs - 1) * B)%nat.
Proof.
  intros HB Hq Hrun i b Hb.
  destruct (num_batches_nat (length xs) B HB) as (k & Hk & Hlo & Hhi).
  rewrite Hq in Hk. injection Hk as ->. rewrite Nat2Z.id in Hrun.
  rewrite run_batches_eq, decide_True in Hrun by done. injection Hrun as <- _.
  rewrite length_batch_slices.
  assert (Hi : (i < k)%nat) by (rewrite <- (length_batch_slices k B xs); by eapply lookup_lt_Some).
  rewrite batch_slices_lookup in Hb by done. injection Hb as <-.
  rewrite length_take, length_drop. case_decide; destruct Hlo; nia.
Qed.

(** ** Witnesses *)

Lemma run_batches_spec_witness :
  run_batches 3 2 [1; 2; 3; 4; 5]%nat = Ok ([[1; 2]; [3; 4]; [5]]%nat, []).
Proof. rewrite run_batches_spec by lia. vm_compute. reflexivity. Defined.

Lemma main_loop_drains_witness :
  exists q bs, num_batches (length [1; 2; 3; 4; 5]%nat) (Z.of_nat 2) = Ok q /\
    run_batches (Z.to_nat q) 2 [1; 2; 3; 4; 5]%nat = Ok (bs, []) /\
    concat bs = [1; 2; 3; 4; 5]%nat /\ Forall (fun b => b <> []) bs /\
    run_batches (S (Z.to_nat q)) 2 [1; 2; 3; 4; 5]%nat = Err OutOfRangeError.
Proof. apply main_loop_drains. lia. Defined.

Lemma batch_sizes_witness :
  length [5%nat] =
  (if decide (S 2 < length [[1; 2]; [3; 4]; [5]]%nat)%nat then 2
   else length [1; 2; 3; 4; 5]%nat - (length [[1; 2]; [3; 4]; [5]]%nat - 1) * 2)%nat.
Proof.
  apply (batch_sizes 2 [1; 2; 3; 4; 5]%nat 3 [[1; 2]; [3; 4]; [5]]%nat); [lia | reflexivity..].
Defined.

End Batching.
