(* ===== verification/PyNum.v ===== *)
(** * Python and NumPy numerics of [init_data_generator] (predict.py 59, 65)

    Line 59 computes [int(np.ceil(len(img_paths) / FLAGS.batch_size))].
    In Python 3, [/] on two ints is true division: CPython returns the
    quotient correctly rounded to a binary64 double (round half to even,
    subnormals below 2^-1022, [OverflowError] when the result is 2^1024
    or more, [ZeroDivisionError] on a zero divisor).  [np.ceil] returns a
    double and [int] converts it back exactly.  Line 65 passes
    [FLAGS.batch_size] to [dataset.batch], which converts it to an int64
    tensor: a Python int outside [[-2^63, 2^63)] raises [OverflowError].

    - [dbl]: a finite double as [mant * 2 ^ expo];
    - [log2_ratio]: the binade of [a / b];
    - [rnd_ne]: [n / d] rounded to the nearest integer, ties to even;
    - [round_div]: [a / b] rounded to 53 significant bits, the exponent
      bounded below by [emin] (the format FLT(emin, 53));
    - [py_true_div], [np_ceil], [py_int], [num_batches_py]: line 59;
    - [to_int64]: the conversion of line 65.

    [Batching.num_batches] is the exact ceiling.  The theorem
    [num_batches_py_exact] shows line 59 computes it for fewer than 2^53
    images and a batch size below 2^1075; [num_batches_py_miscount]
    shows the bound on images is needed: past 2^53 images the loop of
    [main] drops an image or runs past the end of the dataset. *)

From S2P Require Import Prelude Batching.
Import Batching.
Local Open Scope Z_scope.

Module PyNum.

(** ** binary64 *)

Definition prec : Z := 53.
Definition emin : Z := -1074.
Definition emax : Z := 1024.

(** A finite double [mant * 2 ^ expo]. *)
Record dbl : Type := Dbl { mant : Z; expo : Z }.

(** [floor (log2 (a / b))] for [a, b > 0]: the quotient is scaled by
    [2 ^ L] with [b < 2 ^ L], so that it is at least 1. *)
Definition log2_ratio (a b : Z) : Z :=
  let L := Z.log2 b + 1 in Z.log2 (a * 2 ^ L / b) - L.

(** [n / d] ([d > 0]) rounded to the nearest integer, ties to even. *)
Definition rnd_ne (n d : Z) : Z :=
  let q := n / d in
  let r := n mod d in
  if d <? 2 * r then q + 1
  else if 2 * r =? d then (if Z.even q then q else q + 1)
  else q.

(** [a / b] ([a >= 0], [b > 0]) correctly rounded to a double. *)
Definition round_div (a b : Z) : result exn dbl :=
  if a =? 0 then Ok (Dbl 0 0) else
  let e := Z.max (log2_ratio a b - (prec - 1)) emin in
  let m := rnd_ne (a * 2 ^ Z.max 0 (- e)) (b * 2 ^ Z.max 0 e) in
  if (0 <=? e) && (2 ^ emax <=? m * 2 ^ e)
  then Err (OverflowError "integer division result too large for a float")
  else Ok (Dbl m e).

(** Python's [a / b] on two ints. *)
Definition py_true_div (a b : Z) : result exn dbl :=
  if b =? 0 then Err ZeroDivisionError else
  x <-? round_div (Z.abs a) (Z.abs b) ;;
  Ok (if xorb (a <? 0) (b <? 0) then Dbl (- mant x) (expo x) else x).

(** [np.ceil(x)]: a double with a non-negative exponent is an integer. *)
Definition np_ceil (x : dbl) : dbl :=
  if 0 <=? expo x then x else Dbl (- ((- mant x) / 2 ^ (- expo x))) 0.

(** [int(x)]: truncation toward zero. *)
Definition py_int (x : dbl) : Z :=
  if 0 <=? expo x then mant x * 2 ^ expo x else Z.quot (mant x) (2 ^ (- expo x)).

(** Line 59: [int(np.ceil(len(img_paths) / FLAGS.batch_size))]. *)
Definition num_batches_py (len batch_size : Z) : result exn Z :=
  x <-? py_true_div len batch_size ;;
  Ok (py_int (np_ceil x)).

(** [tf.convert_to_tensor(v, dtype=tf.int64)] on a Python int (line 65). *)
Definition to_int64 (v : Z) : result exn Z :=
  if (- 2 ^ 63 <=? v) && (v <? 2 ^ 63) then Ok v
  else Err (OverflowError "Python int too large to convert to C long").

(** ** Rounding *)

Lemma rnd_ne_bounds n d : 0 < d -> n / d <= rnd_ne n d <= n / d + 1.
Proof.
  intros Hd. unfold rnd_ne.
  destruct (Z.ltb_spec d (2 * (n mod d))); [lia|].
  destruct (Z.eqb_spec (2 * (n mod d)) d); [destruct (Z.even _)|]; lia.
Qed.

(** Rounding goes up only when the division is not exact. *)
Lemma rnd_ne_up n d : 0 < d -> rnd_ne n d = n / d + 1 -> 0 < n mod d.
Proof.
  intros Hd. pose proof (Z.mod_pos_bound n d Hd). unfold rnd_ne.
  destruct (Z.ltb_spec d (2 * (n mod d))); [lia|].
  destruct (Z.eqb_spec (2 * (n mod d)) d); [destruct (Z.even _)|]; lia.
Qed.

(** A remainder above one half rounds up. *)
Lemma rnd_ne_half n d : 0 < d -> d < 2 * (n mod d) -> rnd_ne n d = n / d + 1.
Proof. intros Hd Hr. unfold rnd_ne. by destruct (Z.ltb_spec d (2 * (n mod d))); [|lia]. Qed.

(** [- ((- m) / t)] is the ceiling of [m / t]. *)
Lemma ceil_char m t c : 0 < t -> (c - 1) * t < m <= c * t -> - ((- m) / t) = c.
Proof.
  intros Ht Hm. enough ((- m) / t = - c) by lia.
  symmetry. apply (Z.div_unique_pos _ _ _ (c * t - m)); lia.
Qed.

(** Rounding [a / b] at the granularity [2 ^ -s] keeps its ceiling when
    [b < 2 ^ (s + 1)]: a non-zero remainder is at least [1 / b], more
    than half the granularity. *)
Lemma rnd_ceil a b s :
  0 <= a -> 0 < b -> 0 <= s -> b < 2 ^ (s + 1) ->
  - ((- rnd_ne (a * 2 ^ s) b) / 2 ^ s) = - ((- a) / b).
Proof.
  intros Ha Hb Hs Hbs.
  assert (Hp : 0 < 2 ^ s) by (apply Z.pow_pos_nonneg; lia).
  rewrite Z.pow_add_r, Z.pow_1_r in Hbs by lia.
  pose proof (Z.div_mod a b ltac:(lia)) as Ha'. pose proof (Z.mod_pos_bound a b Hb).
  set (q := a / b) in *. set (r := a mod b) in *.
  assert (HN : a * 2 ^ s = (q * 2 ^ s) * b + r * 2 ^ s) by (rewrite Ha' at 1; lia).
  assert (Hdiv : a * 2 ^ s / b = q * 2 ^ s + r * 2 ^ s / b)
    by (rewrite HN, Z.div_add_l by lia; lia).
  pose proof (rnd_ne_bounds (a * 2 ^ s) b Hb) as Hrb.
  destruct (Z.eq_dec r 0) as [Hr0|Hr0].
  - assert (Hmod : a * 2 ^ s mod b = 0)
      by (rewrite HN, Hr0, Z.mul_0_l, Z.add_0_r; apply Z.mod_mul; lia).
    assert (Hm : rnd_ne (a * 2 ^ s) b = q * 2 ^ s).
    { rewrite Hdiv, Hr0, Z.mul_0_l, Z.div_0_l, Z.add_0_r in Hrb by lia.
      destruct (Z.eq_dec (rnd_ne (a * 2 ^ s) b) (q * 2 ^ s + 1)) as [Hup|]; [|lia].
      rewrite <- (Z.add_0_r (q * 2 ^ s)), <- (Z.div_0_l b), <- Hr0 at 1 by lia.
      rewrite Hr0, Z.mul_0_l, Z.div_0_l, Z.add_0_r in Hdiv by lia.
      rewrite <- Hdiv in Hup. apply rnd_ne_up in Hup; lia. }
    rewrite Hm, (ceil_char _ _ q) by nia. symmetry. apply ceil_char; nia.
  - assert (Ht : r * 2 ^ s / b < 2 ^ s) by (apply Z.div_lt_upper_bound; nia).
    assert (Hlo : q * 2 ^ s < rnd_ne (a * 2 ^ s) b).
    { destruct (Z.eq_dec (r * 2 ^ s / b) 0) as [Ht0|]; [|pose proof (Z.div_pos (r * 2 ^ s) b); lia].
      assert (Hrs : r * 2 ^ s < b).
      { apply Z.div_small_iff in Ht0; lia. }
      assert (Hmod : a * 2 ^ s mod b = r * 2 ^ s).
      { rewrite HN, Z.add_comm, Z.mod_add by lia. apply Z.mod_small. nia. }
      rewrite rnd_ne_half by (lia || (rewrite Hmod; nia)). lia. }
    rewrite (ceil_char _ _ (q + 1)) by nia. symmetry. apply ceil_char; lia.
Qed.

(** ** The binade *)

Lemma log2_ratio_spec a b :
  0 < a -> 0 < b ->
  let L := Z.log2 b + 1 in
  0 <= log2_ratio a b + L /\
  2 ^ (log2_ratio a b + L) * b <= a * 2 ^ L < 2 ^ (log2_ratio a b + L + 1) * b.
Proof.
  intros Ha Hb L. unfold log2_ratio. fold L. rewrite Z.sub_add.
  assert (HL : 0 <= L) by (pose proof (Z.log2_nonneg b); lia).
  assert (Hb2 : b < 2 ^ L) by (apply Z.log2_spec; lia).
  assert (Hq : 0 < a * 2 ^ L / b).
  { apply Z.div_str_pos. pose proof (Z.pow_pos_nonneg 2 L ltac:(lia) HL). nia. }
  destruct (Z.log2_spec _ Hq) as [Hlo Hhi].
  pose proof (Z.mul_div_le (a * 2 ^ L) b Hb). pose proof (Z.mul_succ_div_gt (a * 2 ^ L) b Hb).
  split; [apply Z.log2_nonneg|]. split; nia.
Qed.

(** Below [2 ^ 53], a quotient [a / b] is rounded at a granularity
    [2 ^ -s] with [b < 2 ^ (s + 1)], and never overflows. *)
Lemma round_div_small a b :
  0 < a < 2 ^ 53 -> 0 < b < 2 ^ 1075 ->
  exists s, 0 <= s /\ b < 2 ^ (s + 1) /\ round_div a b = Ok (Dbl (rnd_ne (a * 2 ^ s) b) (- s)).
Proof.
  intros Ha Hb. unfold round_div. rewrite (proj2 (Z.eqb_neq a 0)) by lia.
  destruct (log2_ratio_spec a b ltac:(lia) ltac:(lia)) as (HkL & Hlo & Hhi).
  set (L := Z.log2 b + 1) in *. set (k := log2_ratio a b) in *.
  assert (HL : 0 <= L) by (pose proof (Z.log2_nonneg b); lia).
  assert (HpL : 0 < 2 ^ L) by (apply Z.pow_pos_nonneg; lia).
  assert (HpkL : 0 < 2 ^ (k + L)) by (apply Z.pow_pos_nonneg; lia).
  unfold prec, emin, emax.
  destruct (Z.le_gt_cases 0 (Z.max (k - (53 - 1)) (-1074))) as [He|He].
  - (* the quotient is an integer of 53 bits: [b = 1], exponent 0 *)
    assert (Hk : 52 <= k) by lia.
    rewrite Z.pow_add_r in Hlo, Hhi by lia. rewrite Z.pow_add_r, Z.pow_1_r in Hhi by lia.
    assert (Hk2 : 2 ^ 52 <= 2 ^ k) by (apply Z.pow_le_mono_r; lia).
    assert (Hkb : 2 ^ k * b <= a).
    { apply (Z.mul_le_mono_pos_r _ _ (2 ^ L)); [lia|]. lia. }
    assert (Hb1 : b = 1) by nia. subst b.
    assert (Hk53 : k < 53).
    { apply (Z.pow_lt_mono_r_iff 2); [lia|lia|]. lia. }
    replace (Z.max (k - (53 - 1)) (-1074)) with 0 by lia. cbn [Z.max Z.opp].
    assert (Hr1 : rnd_ne a 1 = a) by (unfold rnd_ne; rewrite Z.div_1_r, Z.mod_1_r; reflexivity).
    rewrite !Z.mul_1_r, Hr1. cbn [Z.pow Z.pow_pos Pos.iter andb].
    rewrite (proj2 (Z.leb_gt (2 ^ 1024) a)) by lia. rewrite andb_false_r.
    exists 0. rewrite Z.mul_1_r, Hr1. split; [lia|]. split; [lia|done].
  - set (e := Z.max (k - (53 - 1)) (-1074)) in *.
    exists (- e). rewrite Z.opp_involutive.
    replace (Z.max 0 (- e)) with (- e) by lia. replace (Z.max 0 e) with 0 by lia.
    rewrite Z.pow_0_r, Z.mul_1_r, (proj2 (Z.leb_gt 0 e)) by lia. cbn [andb].
    split; [lia|]. split; [|done].
    destruct (Z.le_gt_cases (k - 52) (-1074)) as [Hsub|Hnorm].
    + replace (- e + 1) with 1075 by lia. lia.
    + replace (- e + 1) with (53 - k) by lia.
      assert (H53 : 2 ^ (53 - k) * 2 ^ (k + L) = 2 ^ 53 * 2 ^ L)
        by (rewrite <- !Z.pow_add_r by lia; f_equal; lia).
      nia.
Qed.

Lemma num_batches_py_eq n B :
  Z.of_nat n < 2 ^ 53 -> 0 < B < 2 ^ 1075 -> num_batches_py (Z.of_nat n) B = num_batches n B.
Proof.
  intros Hn HB. rewrite num_batches_ok by lia. unfold num_batches_py, py_true_div.
  rewrite (proj2 (Z.eqb_neq B 0)) by lia. rewrite !Z.abs_eq by lia.
  destruct (Nat.eq_dec n 0) as [->|Hn0].
  { cbn. rewrite (proj2 (Z.ltb_ge B 0)) by lia. cbn. by rewrite Z.div_0_l by lia. }
  destruct (round_div_small (Z.of_nat n) B) as (s & Hs & Hbs & ->); [lia|lia|].
  cbn [rbind]. rewrite (proj2 (Z.ltb_ge (Z.of_nat n) 0)), (proj2 (Z.ltb_ge B 0)) by lia.
  cbn [xorb]. f_equal. rewrite <- (rnd_ceil (Z.of_nat n) B s) by lia.
  unfold np_ceil, py_int. cbn [expo mant].
  destruct (Z.eq_dec s 0) as [->|Hs0].
  - change (- 0) with 0. rewrite Z.leb_refl. cbn [expo mant]. rewrite Z.leb_refl.
    rewrite !Z.pow_0_r, !Z.mul_1_r, Z.div_1_r. cbn [mant]. lia.
  - rewrite (proj2 (Z.leb_gt 0 (- s))) by lia. cbn [expo mant].
    rewrite Z.leb_refl, Z.opp_involutive, Z.pow_0_r, Z.mul_1_r. done.
Qed.

(** A quotient of an integer below [2 ^ 53] never overflows. *)
Lemma round_div_no_overflow a b : 0 <= a < 2 ^ 53 -> 0 < b -> exists x, round_div a b = Ok x.
Proof.
  intros Ha Hb. unfold round_div. destruct (Z.eqb_spec a 0); [eauto|].
  destruct (log2_ratio_spec a b ltac:(lia) ltac:(lia)) as (HkL & Hlo & _).
  set (L := Z.log2 b + 1) in *. set (k := log2_ratio a b) in *.
  assert (HL : 0 <= L) by (pose proof (Z.log2_nonneg b); lia).
  unfold prec, emin, emax. set (e := Z.max (k - (53 - 1)) (-1074)).
  destruct (Z.le_gt_cases 0 e) as [He|He]; [|rewrite (proj2 (Z.leb_gt 0 e)) by lia; eauto].
  assert (Hk : 52 <= k) by lia.
  rewrite Z.pow_add_r in Hlo by lia.
  assert (Hkb : 2 ^ k * b <= a) by (apply (Z.mul_le_mono_pos_r _ _ (2 ^ L)); [apply Z.pow_pos_nonneg|]; lia).
  assert (Hk53 : k < 53).
  { apply (Z.pow_lt_mono_r_iff 2); [lia|lia|]. nia. }
  replace e with 0 by lia. cbn [Z.max Z.opp]. rewrite !Z.mul_1_r.
  pose proof (rnd_ne_bounds a b Hb). pose proof (Z.div_le_upper_bound a b a Hb ltac:(nia)).
  rewrite (proj2 (Z.leb_gt (2 ^ 1024) _)) by lia. rewrite andb_false_r. eauto.
Qed.

(** Below [2 ^ 53] images, line 59 raises only on a zero batch size. *)
Lemma num_batches_py_ok n B :
  Z.of_nat n < 2 ^ 53 -> B <> 0 -> exists nb, num_batches_py (Z.of_nat n) B = Ok nb.
Proof.
  intros Hn HB. unfold num_batches_py, py_true_div. rewrite (proj2 (Z.eqb_neq B 0)) by lia.
  destruct (round_div_no_overflow (Z.abs (Z.of_nat n)) (Z.abs B)) as [x ->]; [lia|lia|].
  cbn [rbind]. eauto.
Qed.

Lemma num_batches_py_zero len : num_batches_py len 0 = Err ZeroDivisionError.
Proof. reflexivity. Qed.

Lemma to_int64_ok v : - 2 ^ 63 <= v < 2 ^ 63 -> to_int64 v = Ok v.
Proof. intros Hv. unfold to_int64. by rewrite (proj2 (Z.leb_le _ _)), (proj2 (Z.ltb_lt _ _)) by lia. Qed.

Lemma to_int64_err v :
  ~ (- 2 ^ 63 <= v < 2 ^ 63) ->
  to_int64 v = Err (OverflowError "Python int too large to convert to C long").
Proof.
  intros Hv. unfold to_int64.
  destruct (Z.leb_spec (- 2 ^ 63) v), (Z.ltb_spec v (2 ^ 63)); cbn; [lia|done..].
Qed.

(** ** Between [2 ^ 53] and [2 ^ 54]

    There the doubles are the even integers: [n / 1] is [n] rounded to
    an even number, half-way cases to a multiple of four. *)

Lemma rnd_ne_odd q : 0 <= q -> rnd_ne (2 * q + 1) 2 = if Z.even q then q else q + 1.
Proof.
  intros Hq. unfold rnd_ne.
  rewrite <- (Z.div_unique_pos (2 * q + 1) 2 q 1), <- (Z.mod_unique_pos (2 * q + 1) 2 q 1) by lia.
  reflexivity.
Qed.

Lemma round_div_binade54 n : 2 ^ 53 <= n < 2 ^ 54 -> round_div n 1 = Ok (Dbl (rnd_ne n 2) 1).
Proof.
  intros Hn. unfold round_div. rewrite (proj2 (Z.eqb_neq n 0)) by lia.
  assert (Hl : log2_ratio n 1 = 53).
  { unfold log2_ratio. change (Z.log2 1 + 1) with 1. rewrite Z.div_1_r, Z.pow_1_r.
    rewrite (Z.log2_unique (n * 2) 54); [reflexivity|lia|]. cbn [Z.succ]. lia. }
  rewrite Hl. replace (Z.max (53 - (prec - 1)) emin) with 1 by reflexivity.
  change (n * 2 ^ Z.max 0 (-1)) with (n * 1). change (1 * 2 ^ Z.max 0 1) with 2.
  change (0 <=? 1) with true. rewrite Z.mul_1_r, Z.pow_1_r. cbn [andb]. unfold emax. pose proof (rnd_ne_bounds n 2 ltac:(lia)).
  pose proof (Z.div_le_upper_bound n 2 (2 ^ 53) ltac:(lia) ltac:(lia)).
  rewrite (proj2 (Z.leb_gt (2 ^ 1024) _)) by lia. reflexivity.
Qed.

Lemma num_batches_py_binade54 n : 2 ^ 53 <= n < 2 ^ 54 -> num_batches_py n 1 = Ok (rnd_ne n 2 * 2).
Proof.
  intros Hn. unfold num_batches_py, py_true_div. cbn [Z.eqb].
  rewrite (Z.abs_eq n), round_div_binade54 by lia. cbn [Z.abs rbind].
  rewrite (proj2 (Z.ltb_ge n 0)) by lia. reflexivity.
Qed.

(** C6: line 59 computes the exact ceiling of [n / B] for fewer than
    [2 ^ 53] images and a batch size in [(0, 2 ^ 1075)]: the float
    division, [np.ceil] and [int] lose nothing there. *)
Theorem num_batches_py_exact n B :
  Z.of_nat n < 2 ^ 53 -> 0 < B < 2 ^ 1075 -> num_batches_py (Z.of_nat n) B = num_batches n B.
Proof. apply num_batches_py_eq. Qed.

(** C35: the bound on the number of images is needed, and past it the
    loop of [main] is miscounted both ways.  With batches of one image
    and between [2 ^ 53] and [2 ^ 54] images, the quotient is rounded to
    an even integer.  For [4k + 1] images line 59 gives [4k] batches and
    the [4k] calls of [get_next] leave one image unfetched, so it is
    neither scored nor written; for [4k + 3] images it gives [4k + 4]
    batches, and the loop calls [get_next] past the end of the dataset
    and raises [OutOfRangeError]. *)
Theorem num_batches_py_miscount {A} k (xs ys : list A) :
  2 ^ 51 <= k < 2 ^ 52 ->
  Z.of_nat (length xs) = 4 * k + 1 -> Z.of_nat (length ys) = 4 * k + 3 ->
  (num_batches_py (Z.of_nat (length xs)) 1 = Ok (4 * k) /\
   exists bs rest, run_batches (Z.to_nat (4 * k)) 1 xs = Ok (bs, rest) /\ length rest = 1%nat) /\
  (num_batches_py (Z.of_nat (length ys)) 1 = Ok (4 * k + 4) /\
   run_batches (Z.to_nat (4 * k + 4)) 1 ys = Err OutOfRangeError).
Proof.
  intros Hk Hx Hy.
  rewrite Hx, Hy, !num_batches_py_binade54 by lia.
  replace (4 * k + 1) with (2 * (2 * k) + 1) by lia.
  replace (4 * k + 3) with (2 * (2 * k + 1) + 1) by lia.
  rewrite !rnd_ne_odd by lia.
  assert (E1 : Z.even (2 * k) = true) by (apply Z.even_spec; exists k; lia).
  destruct (Z.even (2 * k + 1)) eqn:E2; [apply Z.even_spec in E2 as [m ?]; lia|]. rewrite E1.
  rewrite !run_batches_eq by lia. split; split; [f_equal; lia| |f_equal; lia|].
  - rewrite decide_True by lia. do 2 eexists. split; [reflexivity|]. rewrite length_drop. lia.
  - rewrite decide_False by lia. reflexivity.
Qed.

(** A batch size above [2 ^ 1075] makes the quotient of one image
    underflow to [0.0]: no batch would be fetched. *)
Example num_batches_py_underflow : num_batches_py 1 (2 ^ 1076) = Ok 0.
Proof. vm_compute. reflexivity. Qed.

(** ** Witnesses *)

Lemma num_batches_py_exact_witness : num_batches_py (Z.of_nat 1000) 16 = Ok 63.
Proof. rewrite num_batches_py_exact by lia. vm_compute. reflexivity. Defined.

Lemma num_batches_py_miscount_witness :
  let xs := repeat tt (Z.to_nat (4 * 2 ^ 51 + 1)) in
  let ys := repeat tt (Z.to_nat (4 * 2 ^ 51 + 3)) in
  (num_batches_py (Z.of_nat (length xs)) 1 = Ok (4 * 2 ^ 51) /\
   exists bs rest, run_batches (Z.to_nat (4 * 2 ^ 51)) 1 xs = Ok (bs, rest) /\ length rest = 1%nat) /\
  (num_batches_py (Z.of_nat (length ys)) 1 = Ok (4 * 2 ^ 51 + 4) /\
   run_batches (Z.to_nat (4 * 2 ^ 51 + 4)) 1 ys = Err OutOfRangeError).
Proof.
  intros xs ys. apply num_batches_py_miscount; [lia | unfold xs | unfold ys];
    rewrite repeat_length, Z2Nat.id; lia.
Defined.

End PyNum.
