(* ===== verification/Dataset.v ===== *)
(** * The dataset pipeline as a concurrent state machine (predict.py 61-71, 109-113)

    [init_data_generator] builds
    [from_tensor_slices(...).map(_parse_function_test, num_parallel_calls=cpu_count())
     .batch(B).prefetch(B)].  At run time the map stage decodes up to
    [num_parallel_calls] elements at once, in threads that finish in any
    order; the batch stage takes the decoded elements in input order,
    [B] at a time (the last batch may be shorter); the prefetch stage
    keeps up to [B] finished batches ahead of the consumer; and the
    consumer, the loop of [main], calls [get_next].

    This file models that pipeline as a step relation [dstep] on
    [dstate], one constructor per event:

    - [step_start]: a decoder thread starts on the next input element,
      when fewer than [P] are running;
    - [step_finish]: any running decoder finishes (any order);
    - [step_collect]: the batch stage takes the oldest element, if it has
      been decoded, into the batch being built;
    - [step_emit]: a batch of [B] elements, or the last shorter one, goes
      to the prefetch buffer if it has room;
    - [step_get]: [get_next] hands the oldest prefetched batch to the
      consumer, which stops after the first failed batch (the exception
      ends the script).

    A batch holding a failed element fails with the first failure
    ([collect]).  The map function, the number of decoders [P], the batch
    size [bsz] and the prefetch depth [nbuf] are parameters of the
    section.

    The theorems: an invariant relating every reachable state to the
    input ([dinv]); the batches delivered are, under every interleaving,
    a prefix of the sequential batches ([observed_prefix_ref]);
    every execution is finite ([dataset_terminates], with a bound on its
    length); no reachable state is stuck before the end
    ([dataset_no_deadlock]) and every reachable state can still deliver
    every batch ([dataset_eventually_delivers]); the sequential batches
    are those of the iterator model of [Batching]. *)

From S2P Require Import Prelude Batching.
From stdpp Require Import relations.
Import Batching.

Module Dataset.

Section ParallelMap.
Context {A B E : Type} (f : A -> result E B).
Variables (P bsz nbuf : nat).

(** An element handed to a decoder thread: still running, or decoded. *)
Inductive slot : Type :=
| Running (x : A)
| Finished (r : result E B).

Definition slot_val (sl : slot) : result E B :=
  match sl with Running x => f x | Finished r => r end.

Definition running (sl : slot) : bool :=
  match sl with Running _ => true | Finished _ => false end.

Record dstate : Type := DState {
  input : list A;                         (** elements no decoder has taken *)
  inflight : list slot;                   (** taken by the map stage, in input order *)
  cur : list (result E B);                (** the batch being built *)
  buffer : list (result E (list B));      (** the prefetch buffer *)
  observed : list (result E (list B))     (** what [get_next] has returned *)
}.

(** A batch fails with its first failed element. *)
Definition collect (rs : list (result E B)) : result E (list B) := result_map id rs.

Definition batch_ok (r : result E (list B)) : Prop := exists v, r = Ok v.

Definition dinit (xs : list A) : dstate := DState xs [] [] [] [].

Inductive dstep : dstate -> dstate -> Prop :=
| step_start x i fl c bu ob :
    length fl < P ->
    dstep (DState (x :: i) fl c bu ob) (DState i (fl ++ [Running x]) c bu ob)
| step_finish i pre x post c bu ob :
    dstep (DState i (pre ++ Running x :: post) c bu ob)
          (DState i (pre ++ Finished (f x) :: post) c bu ob)
| step_collect i r fl c bu ob :
    length c < bsz ->
    dstep (DState i (Finished r :: fl) c bu ob) (DState i fl (c ++ [r]) bu ob)
| step_emit i fl c bu ob :
    c <> [] -> (length c = bsz \/ (i = [] /\ fl = [])) -> length bu < nbuf ->
    dstep (DState i fl c bu ob) (DState i fl [] (bu ++ [collect c]) ob)
| step_get i fl c b bu ob :
    Forall batch_ok ob ->
    dstep (DState i fl c (b :: bu) ob) (DState i fl c bu (ob ++ [b])).

(** ** Schedules

    An executable form of the events, used to replay a given
    interleaving: [dexec] performs one event when its guard holds. *)

Inductive event : Type :=
| EStart | EFinish (k : nat) | ECollect | EEmit | EGet.

Definition is_ok_batch (r : result E (list B)) : bool :=
  match r with Ok _ => true | Err _ => false end.

Definition dexec (ev : event) (s : dstate) : option dstate :=
  match ev, s with
  | EStart, DState (x :: i) fl c bu ob =>
      if length fl <? P then Some (DState i (fl ++ [Running x]) c bu ob) else None
  | EFinish k, DState i fl c bu ob =>
      match fl !! k with
      | Some (Running x) => Some (DState i (take k fl ++ Finished (f x) :: drop (S k) fl) c bu ob)
      | _ => None
      end
  | ECollect, DState i (Finished r :: fl) c bu ob =>
      if length c <? bsz then Some (DState i fl (c ++ [r]) bu ob) else None
  | EEmit, DState i fl c bu ob =>
      if bool_decide (c <> [] /\ (length c = bsz \/ (i = [] /\ fl = [])) /\ length bu < nbuf)
      then Some (DState i fl [] (bu ++ [collect c]) ob) else None
  | EGet, DState i fl c (b :: bu) ob =>
      if forallb is_ok_batch ob then Some (DState i fl c bu (ob ++ [b])) else None
  | _, _ => None
  end.

Fixpoint dexec_list (evs : list event) (s : dstate) : option dstate :=
  match evs with
  | [] => Some s
  | ev :: evs' => s' ← dexec ev s; dexec_list evs' s'
  end.

(** ** The sequential reference: consecutive slices of [bsz] elements *)

Fixpoint chunks_fuel {X} (n : nat) (l : list X) : list (list X) :=
  match n, l with
  | O, _ | _, [] => []
  | S n', _ :: _ => take bsz l :: chunks_fuel n' (drop bsz l)
  end.

Definition chunks {X} (l : list X) : list (list X) := chunks_fuel (length l) l.

Definition ref_batches (xs : list A) : list (result E (list B)) :=
  map collect (chunks (map f xs)).

(** ** The invariant *)

Definition dinv (xs : list A) (s : dstate) : Prop :=
  exists j, observed s ++ buffer s = take j (ref_batches xs) /\
    cur s ++ map slot_val (inflight s) ++ map f (input s) = drop (j * bsz) (map f xs) /\
    length (cur s) <= bsz /\ length (inflight s) <= P /\ length (buffer s) <= nbuf.

(** A measure every step decreases. *)
Definition measure (s : dstate) : nat :=
  8 * length (input s) + 5 * length (inflight s) + length (List.filter running (inflight s))
  + 2 * length (cur s) + length (buffer s).

(** The consumer has every batch, or has met a failed one. *)
Definition delivered (xs : list A) (s : dstate) : Prop :=
  observed s = ref_batches xs \/ exists e, Err e ∈ observed s.

(** ** Every step consumes *)

Lemma measure_step s s' : dstep s s' -> measure s' < measure s.
Proof.
  unfold measure. destruct 1 as [| | |i fl c bu ob Hne| ]; cbn [input inflight cur buffer observed];
    rewrite ?length_app, ?List.filter_app, ?length_app; cbn [List.filter running length]; try lia.
  destruct c; [done|]. cbn [length]. lia.
Qed.

Lemma nsteps_measure n s s' : nsteps dstep n s s' -> n + measure s' <= measure s.
Proof. induction 1 as [|n s1 s2 s3 H12 _ IH]; [lia|]. pose proof (measure_step _ _ H12). lia. Qed.

(** ** Replaying a schedule *)

Lemma dexec_sound ev s s' : dexec ev s = Some s' -> dstep s s'.
Proof.
  destruct ev as [|k| | |], s as [i fl c bu ob]; cbn [dexec].
  - destruct i as [|x i]; [done|]. case_match eqn:Hlt; [|done]. intros [= <-].
    apply step_start. by apply Nat.ltb_lt.
  - destruct (fl !! k) as [[x|r]|] eqn:Hk; [|done|done]. intros [= <-].
    rewrite <- (take_drop_middle fl k (Running x)) at 1 by done. apply step_finish.
  - destruct fl as [|[x|r] fl]; [done|done|]. case_match eqn:Hlt; [|done]. intros [= <-].
    apply step_collect. by apply Nat.ltb_lt.
  - case_bool_decide as Hg; [|done]. intros [= <-]. destruct Hg as (? & ? & ?). by apply step_emit.
  - destruct bu as [|b bu]; [done|]. case_match eqn:Hok; [|done]. intros [= <-].
    apply step_get. apply Forall_forall. intros r Hr.
    apply forallb_forall with (x := r) in Hok; [|by apply list_elem_of_In].
    destruct r as [v|]; [by exists v|done].
Qed.

Lemma dexec_list_nsteps evs s s' : dexec_list evs s = Some s' -> nsteps dstep (length evs) s s'.
Proof.
  revert s. induction evs as [|ev evs IH]; intros s; cbn [dexec_list length];
    [intros [= <-]; constructor|].
  destruct (dexec ev s) as [s1|] eqn:H1; [|done]. cbn. intros H.
  econstructor; [by apply (dexec_sound ev) | by apply IH].
Qed.

Lemma dexec_list_sound evs s s' : dexec_list evs s = Some s' -> rtc dstep s s'.
Proof. intros H%dexec_list_nsteps. by eapply rtc_nsteps_2. Qed.

(** ** Termination *)

(** C19: the pipeline has no infinite execution: every step decreases
    [measure]. *)
Theorem dataset_terminates : ~ exists run : nat -> dstate, forall n, dstep (run n) (run (S n)).
Proof.
  intros [run Hrun].
  assert (Hle : forall n, n + measure (run n) <= measure (run 0)).
  { induction n as [|n IH]; [lia|]. pose proof (measure_step _ _ (Hrun n)). lia. }
  specialize (Hle (S (measure (run 0)))). lia.
Qed.

(** C24: an execution of the pipeline over [xs] has at most [8 * length xs]
    steps. *)
Theorem dataset_steps_bound xs n s : nsteps dstep n (dinit xs) s -> n <= 8 * length xs.
Proof. intros H%nsteps_measure. unfold measure in H. cbn in H. lia. Qed.

Hypothesis bsz_pos : 0 < bsz.

(** ** Slices *)

Lemma chunks_fuel_irrel {X} n m (l : list X) :
  length l <= n -> length l <= m -> chunks_fuel n l = chunks_fuel m l.
Proof.
  revert m l. induction n as [|n IH]; intros m l Hn Hm.
  - destruct l; [by destruct m | simpl in Hn; lia].
  - destruct l as [|x l]; [by destruct m|]. destruct m as [|m]; [simpl in Hm; lia|].
    cbn [chunks_fuel]. f_equal. apply IH; rewrite length_drop; simpl in *; lia.
Qed.

Lemma chunks_fuel_enough {X} n (l : list X) : length l <= n -> chunks_fuel n l = chunks l.
Proof. intros H. by apply chunks_fuel_irrel. Qed.

Lemma chunks_cons {X} (l : list X) : l <> [] -> chunks l = take bsz l :: chunks (drop bsz l).
Proof.
  intros Hl. unfold chunks at 1. destruct l as [|x l]; [done|]. cbn [length chunks_fuel].
  f_equal. apply chunks_fuel_enough. rewrite length_drop. simpl. lia.
Qed.

Lemma chunks_lookup {X} (l : list X) j :
  j * bsz < length l -> chunks l !! j = Some (take bsz (drop (j * bsz) l)).
Proof.
  revert l. induction j as [|j IH]; intros l Hj.
  - rewrite chunks_cons; [done|]. intros ->. simpl in Hj. lia.
  - rewrite chunks_cons by (intros ->; simpl in Hj; lia). cbn [lookup list_lookup].
    rewrite IH by (rewrite length_drop; simpl in Hj; lia).
    by rewrite drop_drop.
Qed.

Lemma chunks_length_le {X} (l : list X) j : length l <= j * bsz -> length (chunks l) <= j.
Proof.
  revert l. induction j as [|j IH]; intros l Hj.
  - by destruct l; [|simpl in Hj; lia].
  - destruct l as [|x l']; [simpl; lia|].
    rewrite chunks_cons by done. simpl. apply le_n_S, IH. rewrite length_drop. simpl in *. lia.
Qed.

(** The batch just completed is the next slice. *)
Lemma emit_split {X} (c rest : list X) :
  (length c = bsz \/ rest = []) -> length c <= bsz ->
  take bsz (c ++ rest) = c /\ drop bsz (c ++ rest) = rest.
Proof.
  intros [Hc| ->] Hle.
  - by rewrite take_app_length', drop_app_length'.
  - rewrite app_nil_r. by rewrite take_ge, drop_ge.
Qed.

Lemma ref_batches_lookup xs j c rest :
  c <> [] -> c ++ rest = drop (j * bsz) (map f xs) ->
  (length c = bsz \/ rest = []) -> length c <= bsz ->
  ref_batches xs !! j = Some (collect c) /\ rest = drop (S j * bsz) (map f xs).
Proof.
  intros Hne HD Hcase Hle. destruct (emit_split c rest Hcase Hle) as [Ht Hd].
  assert (Hlt : j * bsz < length (map f xs)).
  { destruct c as [|y c]; [done|]. apply (f_equal length) in HD.
    rewrite length_drop in HD. simpl in HD. lia. }
  unfold ref_batches. rewrite list_lookup_fmap, chunks_lookup by done.
  rewrite <- HD, Ht. split; [done|].
  replace (S j * bsz) with (j * bsz + bsz) by lia. by rewrite <- drop_drop, <- HD, Hd.
Qed.

(** ** The invariant holds of every reachable state *)

Lemma dinv_init xs : dinv xs (dinit xs).
Proof. exists 0. cbn. repeat split; lia. Qed.

Lemma dinv_step xs s s' : dinv xs s -> dstep s s' -> dinv xs s'.
Proof.
  intros (j & Hob & Hcur & Hc & Hfl & Hbu) Hst.
  destruct Hst as [x i fl c bu ob Hlt|i pre x post c bu ob|i r fl c bu ob Hlt
                  |i fl c bu ob Hne Hcase Hlt|i fl c b bu ob Hok];
    unfold dinv; cbn [observed buffer cur inflight input] in *.
  - exists j. rewrite List.map_app, <- app_assoc, length_app. cbn [map app length].
    repeat split; [done|done|lia..].
  - exists j. rewrite List.map_app in *. cbn [map slot_val] in *. rewrite length_app in *.
    cbn [length] in *. repeat split; [done|done|lia..].
  - exists j. rewrite <- app_assoc, length_app. cbn [map app length slot_val] in *.
    repeat split; [done|done|lia..].
  - destruct (ref_batches_lookup xs j c _ Hne Hcur) as [Hj Hrest];
      [by destruct Hcase as [|[-> ->]]; [left|right] | done|].
    exists (S j). rewrite app_assoc, Hob, (take_S_r _ _ _ Hj), length_app. cbn [app length].
    repeat split; [exact Hrest|lia..].
  - exists j. rewrite <- app_assoc. cbn [app length] in *. repeat split; [done|done|lia..].
Qed.

Lemma dinv_rtc xs s s' : rtc dstep s s' -> dinv xs s -> dinv xs s'.
Proof. induction 1; eauto using dinv_step. Qed.

Lemma dinv_reachable xs s : rtc dstep (dinit xs) s -> dinv xs s.
Proof. intros Hr. eapply dinv_rtc; [exact Hr | apply dinv_init]. Qed.

(** ** The iterator of [Batching] yields the same slices *)

Lemma collect_map {X} (g : X -> result E B) (l : list X) : collect (map g l) = result_map g l.
Proof.
  unfold collect. induction l as [|x l IH]; [done|]. cbn [map result_map].
  rewrite IH. by destruct (g x).
Qed.

Lemma chunks_fuel_map {X Y} (g : X -> Y) n (l : list X) :
  chunks_fuel n (map g l) = map (map g) (chunks_fuel n l).
Proof.
  revert l. induction n as [|n IH]; intros l; [done|].
  destruct l as [|x l]; [done|]. cbn [map chunks_fuel].
  replace (g x :: map g l) with (map g (x :: l)) by reflexivity.
  by rewrite firstn_map, skipn_map, IH.
Qed.

Lemma chunks_map {X Y} (g : X -> Y) (l : list X) : chunks (map g l) = map (map g) (chunks l).
Proof. unfold chunks. rewrite length_map. apply chunks_fuel_map. Qed.

Lemma batch_slices_chunks {X} k (l : list X) :
  (k = 0 \/ (k - 1) * bsz < length l) -> length l <= k * bsz -> batch_slices k bsz l = chunks l.
Proof.
  revert l. induction k as [|k IH]; intros l Hlo Hhi.
  - by destruct l; [|simpl in Hhi; lia].
  - destruct Hlo as [Hk|Hlo]; [done|].
    rewrite (chunks_cons l) by (intros ->; simpl in Hlo; lia). cbn [batch_slices]. f_equal.
    apply IH; rewrite length_drop; [|lia].
    destruct k; [left; done | right; lia].
Qed.

(** ** Properties of the pipeline *)

(** C13: every reachable state of the pipeline satisfies [dinv]: the
    batches delivered and prefetched are the first [j] sequential
    batches, and the batch being built, the decoders' elements (running
    or finished) and the untaken input are, in this order, the rest of
    the decoded input; no more than [P] decoders, [bsz] elements in the
    batch and [nbuf] prefetched batches at any time. *)
Theorem dataset_invariant xs s : rtc dstep (dinit xs) s -> dinv xs s.
Proof. apply dinv_reachable. Qed.

(** Under every interleaving of the decoder threads, the batch stage and
    the prefetch thread, the batches [get_next] returns are a prefix of
    the sequential batches. *)
Lemma observed_prefix_ref xs s :
  rtc dstep (dinit xs) s -> observed s `prefix_of` ref_batches xs.
Proof.
  intros Hr. destruct (dinv_reachable xs s Hr) as (j & Hob & _).
  exists (buffer s ++ drop j (ref_batches xs)).
  by rewrite app_assoc, Hob, take_drop.
Qed.

(** The sequential batches are those the iterator of [Batching] returns
    in the [num_batches] calls of the loop of [main], decoded. *)
Lemma ref_batches_slices xs q bs :
  num_batches (length xs) (Z.of_nat bsz) = Ok q ->
  run_batches (Z.to_nat q) bsz xs = Ok (bs, []) ->
  ref_batches xs = map (fun b => collect (map f b)) bs.
Proof.
  intros Hq Hrun. destruct (num_batches_nat (length xs) bsz bsz_pos) as (k & Hk & Hlo & Hhi).
  rewrite Hq in Hk. injection Hk as ->. rewrite Nat2Z.id in Hrun.
  rewrite run_batches_eq, decide_True in Hrun by done. injection Hrun as <- _.
  unfold ref_batches. rewrite chunks_map, List.map_map, batch_slices_chunks by done.
  done.
Qed.

Hypothesis P_pos : 0 < P.
Hypothesis nbuf_pos : 0 < nbuf.

(** ** Progress *)

Lemma ok_or_err (ob : list (result E (list B))) :
  Forall batch_ok ob \/ exists e, Err e ∈ ob.
Proof.
  induction ob as [|[v|e] ob [IH|[e' IH]]].
  - left. constructor.
  - left. constructor; [by exists v|done].
  - right. exists e'. by right.
  - right. exists e. by left.
  - right. exists e. by left.
Qed.

Lemma running_split (fl : list slot) :
  Forall (fun sl => running sl = false) fl \/ exists pre x post, fl = pre ++ Running x :: post.
Proof.
  induction fl as [|[x|r] fl [IH|(pre & x' & post & ->)]].
  - left. constructor.
  - right. by exists [], x, fl.
  - right. by exists [], x, (pre ++ Running x' :: post).
  - left. by constructor.
  - right. by exists (Finished r :: pre), x', post.
Qed.

Lemma final_delivered xs j ob :
  ob ++ [] = take j (ref_batches xs) -> [] = drop (j * bsz) (map f xs) -> ob = ref_batches xs.
Proof.
  intros Hob Hd. rewrite app_nil_r in Hob. rewrite Hob. apply take_ge.
  unfold ref_batches. rewrite length_map. apply chunks_length_le.
  apply (f_equal length) in Hd. rewrite length_drop in Hd. simpl in Hd. lia.
Qed.

(** A reachable state has delivered everything, or can take a step. *)
Lemma progress xs s :
  rtc dstep (dinit xs) s -> delivered xs s \/ exists s', dstep s s'.
Proof.
  intros Hr. destruct (dinv_reachable xs s Hr) as (j & Hob & Hcur & Hc & Hfl & Hbu).
  destruct s as [i fl c bu ob]; cbn [input inflight cur buffer observed] in *.
  destruct (ok_or_err ob) as [Hok|[e He]]; [|left; right; by exists e].
  destruct bu as [|b bu]; [|right; eexists; by apply step_get].
  destruct (running_split fl) as [Hfin|(pre & x & post & ->)];
    [|right; eexists; apply step_finish].
  destruct fl as [|[x|r] fl]; [| by inversion Hfin |].
  2: { destruct (decide (length c < bsz)); [right; eexists; by apply step_collect|].
       right. eexists. apply step_emit; [|left; lia|simpl; lia].
       intros ->. simpl in *. lia. }
  destruct i as [|x i]; [|right; eexists; apply step_start; simpl; lia].
  destruct c as [|y c]; [|right; eexists; apply step_emit; [done|by right|simpl; lia]].
  left. left. by eapply final_delivered.
Qed.

Lemma eventually_delivered n xs s :
  measure s < n -> rtc dstep (dinit xs) s -> exists s', rtc dstep s s' /\ delivered xs s'.
Proof.
  revert s. induction n as [|n IH]; intros s Hm Hr; [lia|].
  destruct (progress xs s Hr) as [Hd|[s'' Hst]]; [exists s; split; [constructor|done]|].
  destruct (IH s'') as (s' & Hs' & Hd); [pose proof (measure_step _ _ Hst); lia|
                                         by eapply rtc_r|].
  exists s'. split; [by eapply rtc_l|done].
Qed.

(** ** Liveness *)

(** C17: a reachable state where no event can happen has delivered every
    sequential batch, or a failed one: the pipeline never blocks. *)
Theorem dataset_no_deadlock xs s : rtc dstep (dinit xs) s -> nf dstep s -> delivered xs s.
Proof. intros Hr Hnf. by destruct (progress xs s Hr) as [|[s' Hs]]; [|destruct Hnf; exists s']. Qed.

(** C18: from every reachable state the pipeline can go on to deliver every
    remaining batch, or stop at a failed one. *)
Theorem dataset_eventually_delivers xs s :
  rtc dstep (dinit xs) s -> exists s', rtc dstep s s' /\ delivered xs s'.
Proof. apply (eventually_delivered (S (measure s))). lia. Qed.

End ParallelMap.

(** ** Witnesses

    Three images, two decoders, batches of two, two prefetched batches;
    decoding multiplies by ten.  The schedule starts both decoders, lets
    the second finish first, and builds, prefetches and hands over the
    first batch; then the last, shorter one. *)

Local Abbreviation F := (fun n : nat => @Ok exn nat (10 * n)).
Local Abbreviation first_batch := [EStart; EStart; EFinish 1; EFinish 0; ECollect; ECollect; EEmit; EGet].
Local Abbreviation last_batch := [EStart; EFinish 0; ECollect; EEmit; EGet].

Lemma dataset_invariant_witness :
  dinv F 2 2 2 [1; 2; 3] (DState [3] [] [] [] [Ok [10; 20]]).
Proof.
  apply (dataset_invariant F 2 2 2); [lia..|].
  apply (dexec_list_sound F 2 2 2 first_batch). vm_compute. reflexivity.
Defined.

Lemma dataset_steps_bound_witness : 13 <= 8 * length [1; 2; 3].
Proof.
  apply (dataset_steps_bound F 2 2 2 [1; 2; 3] 13 (DState [] [] [] [] [Ok [10; 20]; Ok [30]])).
  apply (dexec_list_nsteps F 2 2 2 (first_batch ++ last_batch)). vm_compute. reflexivity.
Defined.

Lemma dataset_no_deadlock_witness :
  delivered F 2 [1; 2; 3] (DState [] [] [] [] [Ok [10; 20]; Ok [30]]).
Proof.
  apply (dataset_no_deadlock F 2 2 2); [lia..| |].
  - apply (dexec_list_sound F 2 2 2 (first_batch ++ last_batch)). vm_compute. reflexivity.
  - intros [s' Hs]. inversion Hs as [| [|? ?] ? ? ? ? ? ? Heq| | ? ? ? ? ? Hne |]; subst; try done.
    by destruct pre.
Defined.

Lemma dataset_eventually_delivers_witness :
  exists s', rtc (dstep F 2 2 2) (DState [3] [] [] [] [Ok [10; 20]]) s' /\ delivered F 2 [1; 2; 3] s'.
Proof.
  apply (dataset_eventually_delivers F 2 2 2); [lia..|].
  apply (dexec_list_sound F 2 2 2 first_batch). vm_compute. reflexivity.
Defined.

End Dataset.
