(* ===== verification/TopK.v ===== *)
(** * The inference engine's ranking: [tf.nn.top_k(logits, k=3)[1]]

    [init_model] (predict.py 77-86) builds the network and its output
    [predictions['top_3'] = tf.nn.top_k(logits, k=3)[1]], the indices of
    the three largest logits of each image, largest first, and a lower
    index first among equal logits.  [tf.nn.top_k] is a TensorFlow
    kernel the script calls; it is modelled from its documented contract
    (spec section 4.3) in two ways:

    - [top_k_kernel]: the selection the kernel performs, [k] rounds of
      picking the best index not yet chosen (a left-to-right scan that
      replaces its candidate only on a strictly larger score);
    - [top_k_ref]: the reference, a stable sort of the indices by
      descending score ([merge_sort] on the order [better]), cut at [k];
    - [top_k]: the kernel behind the check that the input has at least
      [k] columns ([InvalidArgumentError] otherwise).

    The abstract contract [is_topk] says what a top-[k] list is: [k]
    distinct indices of the row, ordered by [better], each at least as
    good as every index left out.  The theorems: the kernel and the
    reference both satisfy it, the contract has at most one solution
    (so the ranking is a function of the scores alone), hence kernel and
    reference agree, and [top_k] returns exactly the contract's list or
    its error. *)

From S2P Require Import Prelude.
From stdpp Require Import sorting.
Local Open Scope Z_scope.

Module TopK.

Section WithScores.
Variable s : list Z.

Definition score (i : nat) : Z := default 0 (s !! i).

(** [i] ranks before [j]: a larger score, or the same score and a lower
    index (the kernel's tie-break). *)
Definition better (i j : nat) : Prop :=
  score j < score i \/ (score i = score j /\ (i <= j)%nat).

#[global] Instance better_dec : RelDecision better.
Proof. intros i j. unfold better. apply _. Defined.

(** ** The kernel: selection of the best remaining index, [k] times *)

Definition argbest_step (acc : option nat) (j : nat) : option nat :=
  match acc with
  | None => Some j
  | Some b => if score b <? score j then Some j else Some b
  end.

(** The indices of the row not chosen yet, in increasing order. *)
Definition candidates (chosen : list nat) : list nat :=
  List.filter (fun j => negb (bool_decide (j ∈ chosen))) (seq 0 (length s)).

Definition argbest (chosen : list nat) : option nat :=
  fold_left argbest_step (candidates chosen) None.

Fixpoint select (k : nat) (chosen : list nat) : list nat :=
  match k with
  | O => chosen
  | S k' =>
      match argbest chosen with
      | None => chosen
      | Some j => select k' (chosen ++ [j])
      end
  end.

Definition top_k_kernel (k : nat) : list nat := select k [].

(** ** The reference: a stable descending sort, cut at [k] *)

Definition top_k_ref (k : nat) : list nat := take k (merge_sort better (seq 0 (length s))).

(** ** The contract of a top-[k] list *)

Definition is_topk (k : nat) (l : list nat) : Prop :=
  length l = k /\ NoDup l /\ Forall (fun i => i < length s)%nat l /\
  StronglySorted better l /\
  (forall i j, i ∈ l -> (j < length s)%nat -> j ∉ l -> better i j).

(** [tf.nn.top_k(row, k)[1]] on the row [s] of logits. *)
Definition top_k (k : nat) : result exn (list nat) :=
  if (length s <? k)%nat then Err (InvalidArgumentError "input must have at least k columns")
  else Ok (top_k_kernel k).

(** ** The order [better] *)

#[global] Instance better_refl : Reflexive better.
Proof. intros i. right. lia. Qed.

#[global] Instance better_trans : Transitive better.
Proof. intros i j k. unfold better. lia. Qed.

#[global] Instance better_total : Total better.
Proof. intros i j. unfold better. lia. Qed.

#[global] Instance better_antisym : AntiSymm eq better.
Proof. intros i j. unfold better. lia. Qed.

Lemma lt_better i j : score j < score i -> better i j.
Proof. by left. Qed.

(** ** Candidates and [argbest] *)

Lemma elem_of_candidates chosen j :
  j ∈ candidates chosen <-> (j < length s)%nat /\ j ∉ chosen.
Proof.
  unfold candidates. rewrite list_elem_of_In, filter_In, <- list_elem_of_In, elem_of_seq.
  rewrite negb_true_iff, bool_decide_eq_false. naive_solver lia.
Qed.

Lemma StronglySorted_filter {A} (R : relation A) (f : A -> bool) l :
  StronglySorted R l -> StronglySorted R (List.filter f l).
Proof.
  induction 1 as [|x l Hl IH Hx]; simpl; [constructor|].
  destruct (f x); [|done]. constructor; [done|].
  rewrite Forall_forall in Hx |- *. intros y Hy.
  apply list_elem_of_In, filter_In in Hy as [Hy _]. apply Hx. by apply list_elem_of_In.
Qed.

Lemma StronglySorted_seq start n : StronglySorted lt (seq start n).
Proof.
  revert start. induction n as [|n IH]; intros start; simpl; constructor; [done|].
  apply Forall_forall. intros x Hx%elem_of_seq. lia.
Qed.

Lemma argbest_fold l b :
  StronglySorted lt (b :: l) ->
  exists b', fold_left argbest_step l (Some b) = Some b' /\ b' ∈ b :: l /\
             forall c, c ∈ b :: l -> better b' c.
Proof.
  revert b. induction l as [|j l IH]; intros b Hs; simpl.
  - exists b. split; [done|]. split; [set_solver|]. intros c ->%list_elem_of_singleton. done.
  - apply StronglySorted_inv in Hs as [Hs Hb]. apply StronglySorted_inv in Hs as [Hl Hj].
    inversion Hb as [|? ? Hbj Hbl]; subst.
    destruct (Z.ltb_spec (score b) (score j)).
    + destruct (IH j) as (b' & Hf & Hin & Hbest); [by constructor|].
      exists b'. split; [done|]. split; [set_solver|].
      intros c [->|Hc]%elem_of_cons; [|by apply Hbest].
      transitivity j; [apply Hbest; set_solver | by apply lt_better].
    + destruct (IH b) as (b' & Hf & Hin & Hbest); [by constructor|].
      exists b'. split; [done|]. split; [set_solver|].
      intros c Hc. rewrite !elem_of_cons in Hc.
      destruct Hc as [->|[->|Hc]]; [apply Hbest; set_solver| |apply Hbest; set_solver].
      transitivity b; [apply Hbest; set_solver | unfold better; lia].
Qed.

Lemma argbest_spec chosen :
  candidates chosen <> [] ->
  exists b, argbest chosen = Some b /\ b ∈ candidates chosen /\
            forall c, c ∈ candidates chosen -> better b c.
Proof.
  unfold argbest. intros Hne.
  pose proof (StronglySorted_filter lt (fun j => negb (bool_decide (j ∈ chosen)))
                (seq 0 (length s)) (StronglySorted_seq 0 _)) as Hs.
  fold (candidates chosen) in Hs.
  destruct (candidates chosen) as [|c0 l]; [done|]. simpl.
  by apply argbest_fold.
Qed.

(** ** The kernel meets the contract *)

Lemma candidates_nonempty chosen :
  NoDup chosen -> Forall (fun i => i < length s)%nat chosen ->
  (length chosen < length s)%nat -> candidates chosen <> [].
Proof.
  intros Hnd Hr Hlt Hc.
  assert (Hincl : forall j, j ∈ seq 0 (length s) -> j ∈ chosen).
  { intros j Hj.
    destruct (decide (j ∈ chosen)) as [|Hn]; [done|].
    assert (Hjc : j ∈ candidates chosen) by (apply elem_of_candidates; split;
      [apply elem_of_seq in Hj; lia | done]).
    rewrite Hc in Hjc. set_solver. }
  apply NoDup_incl_length' in Hincl; [|apply NoDup_seq]. rewrite length_seq in Hincl. lia.
Qed.

Lemma topk_snoc m chosen b :
  is_topk m chosen -> b ∈ candidates chosen ->
  (forall c, c ∈ candidates chosen -> better b c) ->
  is_topk (S m) (chosen ++ [b]).
Proof.
  intros (Hlen & Hnd & Hr & Hsort & Hdom) [Hb Hbn]%elem_of_candidates Hbest.
  split; [rewrite length_app; simpl; lia|]. split.
  { apply NoDup_app. split; [done|]. split; [|apply NoDup_singleton]. set_solver. }
  split; [apply Forall_app; auto|]. split.
  { apply StronglySorted_app_2; [|done|repeat constructor].
    intros x1 x2 Hx1 ->%list_elem_of_singleton. by apply Hdom. }
  intros i j Hi Hj Hjn. apply elem_of_app in Hi as [Hi|Hi]; [apply Hdom; set_solver|].
  apply list_elem_of_singleton in Hi as ->.
  apply Hbest, elem_of_candidates. set_solver.
Qed.

Lemma select_topk k m chosen :
  is_topk m chosen -> (m + k <= length s)%nat -> is_topk (m + k) (select k chosen).
Proof.
  revert m chosen. induction k as [|k IH]; intros m chosen Htop Hle; simpl.
  - by rewrite Nat.add_0_r.
  - pose proof Htop as (Hlen & Hnd & Hr & _).
    destruct (argbest_spec chosen) as (b & -> & Hb & Hbest);
      [apply candidates_nonempty; auto; lia|].
    rewrite <- Nat.add_succ_comm. apply IH; [by apply topk_snoc | lia].
Qed.

Lemma topk_nil : is_topk 0 [].
Proof.
  split; [done|]. split; [constructor|]. split; [constructor|]. split; [constructor|].
  intros i j Hi. set_solver.
Qed.

Lemma kernel_topk k : (k <= length s)%nat -> is_topk k (top_k_kernel k).
Proof. intros Hk. apply (select_topk k 0 []); [apply topk_nil | lia]. Qed.

(** ** The reference meets the contract *)

Lemma ref_topk k : (k <= length s)%nat -> is_topk k (top_k_ref k).
Proof.
  intros Hk. unfold top_k_ref.
  set (L := merge_sort better (seq 0 (length s))).
  assert (Hperm : L ≡ₚ seq 0 (length s)) by apply merge_sort_Permutation.
  assert (Hsort : StronglySorted better L) by (apply StronglySorted_merge_sort; apply _).
  assert (HL : L = take k L ++ drop k L) by by rewrite take_drop.
  assert (Hin : forall x, x ∈ L <-> (x < length s)%nat)
    by (intros x; rewrite Hperm, elem_of_seq; lia).
  split; [rewrite length_take, Hperm, length_seq; lia|]. split.
  { assert (Hnd : NoDup L) by (rewrite Hperm; apply NoDup_seq).
    rewrite HL in Hnd. by apply NoDup_app in Hnd as [? _]. }
  split.
  { apply Forall_forall. intros x Hx. apply Hin. rewrite HL. set_solver. }
  split; [rewrite HL in Hsort; by apply StronglySorted_app_1_l in Hsort|].
  intros i j Hi Hj Hjn. rewrite HL in Hsort. apply (StronglySorted_app_1_elem_of _ _ _ _ _ Hsort Hi).
  apply Hin in Hj. rewrite HL in Hj. set_solver.
Qed.

(** ** The contract has one solution *)

Lemma topk_incl k l1 l2 : is_topk k l1 -> is_topk k l2 -> forall i, i ∈ l1 -> i ∈ l2.
Proof.
  intros (Hl1 & Hnd1 & Hr1 & _ & Hd1) (Hl2 & Hnd2 & Hr2 & _ & Hd2) i Hi.
  destruct (decide (i ∈ l2)) as [|Hni]; [done|]. exfalso.
  destruct (decide (Forall (fun j => j ∈ l1) l2)) as [Hall|Hex].
    assert (Hincl : forall x, x ∈ i :: l2 -> x ∈ l1).
    { intros x Hx. apply elem_of_cons in Hx as [->|Hx]; [done|].
      by apply (proj1 (Forall_forall _ _) Hall). }
    apply NoDup_incl_length' in Hincl; [simpl in Hincl; lia|]. by constructor.
  - apply not_Forall_Exists, Exists_exists in Hex as (j & Hj & Hjn); [|apply _].
    assert (i = j) as <-.
    { apply (anti_symm better).
      - apply Hd1; [done| by apply (proj1 (Forall_forall _ _) Hr2) | done].
      - apply Hd2; [done| by apply (proj1 (Forall_forall _ _) Hr1) | done]. }
    done.
Qed.

(** The top-[k] contract has at most one solution: the ranking is a
    function of the scores alone, whatever algorithm computes it. *)
Theorem topk_unique k l1 l2 : is_topk k l1 -> is_topk k l2 -> l1 = l2.
Proof.
  intros H1 H2. apply (StronglySorted_unique better); [apply H1 | apply H2 |].
  apply NoDup_Permutation; [apply H1 | apply H2 |].
  intros x; split; eauto using topk_incl.
Qed.

(** C9: the selection kernel computes the stable descending sort cut at
    [k]: on any row with at least [k] scores the two lists are equal. *)
Theorem kernel_eq_ref k : (k <= length s)%nat -> top_k_kernel k = top_k_ref k.
Proof. intros Hk. apply (topk_unique k); [by apply kernel_topk | by apply ref_topk]. Qed.

End WithScores.

(** C4: [top_k row k] succeeds exactly on rows of at least [k] scores and
    then returns the one list of the top-[k] contract: [k] distinct
    in-range indices, best score first and lower index first among equal
    scores, each at least as good as every index left out. *)
Theorem top_k_spec k row l :
  top_k row k = Ok l <-> (k <= length row)%nat /\ is_topk row k l.
Proof.
  unfold top_k. destruct (Nat.ltb_spec (length row) k).
  - split; [done|lia].
  - split.
    + intros [= <-]. split; [done|]. by apply kernel_topk.
    + intros [_ Htop]. f_equal. apply (topk_unique row k); [by apply kernel_topk | done].
Qed.

(** the error branch: a row with fewer than [k] scores makes the
    kernel raise [InvalidArgumentError]. *)
Theorem top_k_err k row e :
  top_k row k = Err e <->
  (length row < k)%nat /\ e = InvalidArgumentError "input must have at least k columns".
Proof.
  unfold top_k. destruct (Nat.ltb_spec (length row) k).
  - split; [intros [= <-]; done | intros [_ ->]; done].
  - split; [done | lia].
Qed.

(** ** Examples and witnesses *)

(** Two equal logits: the lower index (1) ranks before the higher (3). *)
Example top_k_tie_break : top_k [1; 5; 3; 5; 0; 7] 3 = Ok [5; 1; 3]%nat.
Proof. vm_compute. reflexivity. Qed.

Lemma kernel_eq_ref_witness :
  top_k_kernel [1; 5; 3; 5; 0; 7] 3 = top_k_ref [1; 5; 3; 5; 0; 7] 3.
Proof. apply kernel_eq_ref. simpl. lia. Defined.

End TopK.
