(* ===== verification/Model.v ===== *)
(** * The inference engine: [init_model] (predict.py 77-86)

    [init_model(features)] instantiates [MyModel(FLAGS.net)], applies it
    to the placeholder of the images and returns the dictionary
    [predictions] of two graph outputs:

    - ['classes'] = [tf.argmax(logits, axis=1)], the index of the largest
      logit of each image;
    - ['top_3'] = [tf.nn.top_k(logits, k=3)[1]] ([TopK.top_k]).

    [MyModel] lives in [model.py], outside src/: it is the interface
    [Classifier], a function from a checkpoint and an image to a row of
    logits whose length [num_classes] is fixed by the network.  The graph
    is evaluated by [sess.run] on a fed batch; [init_model ck features]
    is the value of both outputs on the batch [features] with the
    weights [ck].  [argmax] is the reduction of the [ArgMax] kernel: a
    left-to-right scan keeping the first index of the largest value,
    [InvalidArgumentError] on an empty row.

    The script fetches only ['top_3'] (line 114); the theorem
    [classes_first_of_top_3] shows the unused output agrees with it: the
    class of ['classes'] is the first of the three of ['top_3'],
    for every batch on which ['top_3'] succeeds. *)

From S2P Require Import Prelude TopK.
From stdpp Require Import sorting.
Import TopK.

Module Model.

(** [model.MyModel]: the network's logits for an image under the
    weights of a checkpoint, a row of fixed length. *)
Class Classifier (Img : Type) := {
  num_classes : nat;
  logits : string -> Img -> list Z;
  logits_length : forall ck img, length (logits ck img) = num_classes
}.

(** The reduction of [tf.argmax] along a row: [best] is the index of the
    largest value [bv] seen before index [i]; a later value replaces it
    only when strictly larger. *)
Fixpoint argmax_from (i best : nat) (bv : Z) (row : list Z) : nat :=
  match row with
  | [] => best
  | x :: row' => if (bv <? x)%Z then argmax_from (S i) i x row' else argmax_from (S i) best bv row'
  end.

(** [tf.argmax(row)]: an empty row has no maximum. *)
Definition argmax (row : list Z) : result exn nat :=
  match row with
  | [] => Err (InvalidArgumentError "Reduction axis 1 is empty")
  | x :: row' => Ok (argmax_from 1 0 x row')
  end.

(** The dictionary [predictions] of line 81. *)
Record predictions : Type := {
  classes : result exn (list nat);
  top_3 : result exn (list (list nat))
}.

Section Engine.
Context {Img : Type} `{!Classifier Img}.

(** [init_model(features)] evaluated on the batch [features]. *)
Definition init_model (ck : string) (features : list Img) : predictions :=
  let rows := map (logits ck) features in
  {| classes := result_map argmax rows;
     top_3 := result_map (fun row => top_k row 3) rows |}.

End Engine.

(** ** The reduction *)

Lemma argmax_from_best s i best :
  (best < i <= length s)%nat -> (forall j, j < i -> better s best j)%nat ->
  let r := argmax_from i best (score s best) (drop i s) in
  (r < length s)%nat /\ forall j, (j < length s)%nat -> better s r j.
Proof.
  remember (length s - i)%nat as n eqn:Hn. revert i best Hn.
  induction n as [|n IH]; intros i best Hn Hi Hbest.
  - rewrite drop_ge by lia. cbn. split; [lia|]. intros j Hj. apply Hbest. lia.
  - destruct (lookup_lt_is_Some_2 s i) as [x Hx]; [lia|].
    rewrite (drop_S _ _ _ Hx). cbn [argmax_from].
    assert (Hsi : score s i = x) by (unfold score; by rewrite Hx).
    destruct (Z.ltb_spec (score s best) x).
    + rewrite <- Hsi. apply IH; [lia|lia|]. intros j Hj.
      destruct (decide (j = i)) as [->|]; [done|].
      specialize (Hbest j ltac:(lia)). unfold better in *. lia.
    + apply IH; [lia|lia|]. intros j Hj.
      destruct (decide (j = i)) as [->|]; [|apply Hbest; lia].
      unfold better. lia.
Qed.

(** [argmax] returns the index of the row that ranks first for
    [better]: the largest value, the lowest index among equal ones. *)
Lemma argmax_spec row i :
  argmax row = Ok i -> (i < length row)%nat /\ forall j, (j < length row)%nat -> better row i j.
Proof.
  destruct row as [|x row']; cbn [argmax]; [done|]. intros [= <-].
  apply (argmax_from_best (x :: row') 1 0); cbn; [lia|].
  intros j Hj. replace j with 0%nat by lia. reflexivity.
Qed.

Lemma top_k_ok_topk row k l : top_k row k = Ok l -> is_topk row k l.
Proof.
  unfold top_k. destruct (Nat.ltb_spec (length row) k); [done|]. intros [= <-].
  by apply kernel_topk.
Qed.

(** The first index of a top-[k] list ranks first in the whole row. *)
Lemma topk_head_best row k p ps :
  is_topk row k (p :: ps) -> forall j, (j < length row)%nat -> better row p j.
Proof.
  intros (_ & _ & _ & Hsort & Hdom) j Hj.
  destruct (decide (j ∈ p :: ps)) as [Hin|Hout]; [|apply Hdom; set_solver].
  apply elem_of_cons in Hin as [->|Hin]; [reflexivity|].
  apply StronglySorted_inv in Hsort as [_ Hp]. rewrite Forall_forall in Hp. by apply Hp.
Qed.

(** The row's first-ranked index is unique. *)
Lemma best_unique row i j :
  (i < length row)%nat -> (j < length row)%nat ->
  (forall k, (k < length row)%nat -> better row i k) ->
  (forall k, (k < length row)%nat -> better row j k) -> i = j.
Proof. intros Hi Hj Hbi Hbj. apply (anti_symm (better row)); auto. Qed.

Lemma argmax_top_k row ps :
  top_k row 3 = Ok ps -> argmax row = Ok (hd 0%nat ps).
Proof.
  intros Htop. pose proof (top_k_ok_topk _ _ _ Htop) as Hk.
  destruct ps as [|p ps]; [by destruct Hk as [? _]|].
  destruct Hk as (Hlen & Hnd & Hr & Hrest). pose proof Hr as Hp%Forall_inv.
  destruct (argmax row) as [i|e] eqn:Ha.
  - apply argmax_spec in Ha as [Hi Hbi]. cbn [hd]. f_equal.
    apply (best_unique row); auto. by apply (topk_head_best row 3 p ps).
  - destruct row; [cbn in Hp; lia|done].
Qed.

Section Agreement.
Context {Img : Type} `{!Classifier Img}.

(** C21: on every batch where ['top_3'] succeeds, ['classes'] succeeds
    too and gives, for each image, the first index of its ['top_3'] row:
    the output the script never fetches agrees with the one it writes. *)
Theorem classes_first_of_top_3 ck features ps :
  top_3 (init_model ck features) = Ok ps ->
  classes (init_model ck features) = Ok (map (hd 0%nat) ps).
Proof.
  cbn [init_model classes top_3]. revert ps.
  induction features as [|img features IH]; intros ps; cbn [map result_map]; [by intros [= <-]|].
  destruct (top_k (logits ck img) 3) as [p|e] eqn:Hp; cbn [rbind]; [|done].
  destruct (result_map _ (map (logits ck) features)) as [qs|e] eqn:Hq; cbn [rbind]; [|done].
  intros [= <-]. by rewrite (argmax_top_k _ _ Hp), (IH qs eq_refl).
Qed.

End Agreement.

(** ** Witnesses

    A network of four classes whose logits are the first four values of
    the image. *)

#[local] Instance demo_classifier : Classifier (list Z) := {|
  num_classes := 4;
  logits := fun _ img => take 4 (img ++ [0; 0; 0; 0]%Z);
  logits_length := ltac:(intros; cbv beta; rewrite length_take, length_app; cbn [length]; lia)
|}.

Definition demo_batch : list (list Z) := [[1; 5; 5; 0]; [2; 2; 2; 2]]%Z.

(** Ties: the second image's logits are all equal, both outputs pick
    index 0 first. *)
Lemma classes_first_of_top_3_witness :
  top_3 (init_model "ck" demo_batch) = Ok [[1; 2; 0]; [0; 1; 2]] /\
  classes (init_model "ck" demo_batch) = Ok [1; 0].
Proof.
  split; [vm_compute; reflexivity|].
  apply (classes_first_of_top_3 "ck" demo_batch [[1; 2; 0]; [0; 1; 2]]).
  vm_compute. reflexivity.
Defined.

End Model.
