(* ===== verification/Writer.v ===== *)
(** * The result writer's rendering (predict.py 99, 117-121)

    The submission file is text: the header [id,predicted], then one
    line [id,c1 c2 c3] per image, built by
    ['{},{}\n'.format(fn.decode("utf-8"), ' '.join([str(p) for p in preds]))]
    for a usable image and ['{},93 83 2\n'.format(fn)] for a corrupted one.
    Ids are decoded from the UTF-8 bytes they were encoded to by
    [tf.convert_to_tensor]; Rocq strings are byte strings, on which this
    round trip is the identity, so ids are kept as they are.

    - [header], [row_line], [format_row], [fallback_row]: the strings the
      script writes;
    - [render_rows], [render_submission]: the text of a whole file;
    - [read_row], [read_submission]: a reader of the format (split on
      newlines, on the first comma, on spaces, [int] on each class), used
      to state that the file can be read back.

    The theorems: a corrupted file's row is the row of the ranking
    [93 83 2]; a rendered file reads back to its rows when no id holds a
    comma or a newline; an id with a newline makes two submissions
    render to the same text. *)

From S2P Require Import Prelude PyStr.
Import PyStr.
Local Open Scope string_scope.

Module Writer.

Definition nl : string := String "010"%char EmptyString.

(** [submit_file.write('id,predicted\n')] (line 99) *)
Definition header : string := "id,predicted" ++ nl.

(** The row of one prediction, without its newline. *)
Definition row_line (fn : string) (preds : list Z) : string :=
  fn ++ "," ++ py_join " " (map py_str_Z preds).

(** ['{},{}\n'.format(fn, ' '.join([str(p) for p in preds]))] (117-118) *)
Definition format_row (fn : string) (preds : list Z) : string := row_line fn preds ++ nl.

(** ['{},93 83 2\n'.format(fn)] (line 121) *)
Definition fallback_row (fn : string) : string := fn ++ ",93 83 2" ++ nl.

Fixpoint str_concat (l : list string) : string :=
  match l with [] => "" | x :: l' => x ++ str_concat l' end.

Definition render_rows (rows : list (string * list Z)) : string :=
  str_concat (map (fun '(fn, preds) => format_row fn preds) rows).

Definition render_submission (rows : list (string * list Z)) : string :=
  header ++ render_rows rows.

(** ** The reader *)

Fixpoint all_some {A} (l : list (option A)) : option (list A) :=
  match l with
  | [] => Some []
  | Some x :: l' => option_map (cons x) (all_some l')
  | None :: _ => None
  end.

Definition read_row (line : string) : option (string * list Z) :=
  match split_char "," line with
  | [fn; classes] =>
      option_map (fun ps => (fn, ps)) (all_some (map py_int_of_string (split_char " " classes)))
  | _ => None
  end.

Definition read_submission (text : string) : option (list (string * list Z)) :=
  match split_char "010"%char text with
  | h :: lines =>
      if String.eqb h "id,predicted" then
        match rev lines with
        | "" :: body => all_some (map read_row (rev body))
        | _ => None
        end
      else None
  | [] => None
  end.

Definition line_of (r : string * list Z) : string := row_line r.1 r.2.

(** An id the reader can delimit. *)
Definition plain_id (fn : string) : bool := negb (has_char "," fn || has_char "010"%char fn).

(** ** Lemmas *)

Lemma render_rows_lines rows :
  render_rows rows = str_concat (map (fun x => x ++ nl) (map line_of rows)).
Proof. unfold render_rows. induction rows as [|[fn ps] rows IH]; simpl; [done|]. by rewrite IH. Qed.

Lemma split_lines c xs :
  Forall (fun x => has_char c x = false) xs ->
  split_char c (str_concat (map (fun x => x ++ String c EmptyString) xs)) = app xs [""].
Proof.
  induction 1 as [|x xs Hx _ IH]; [done|]. cbn [map str_concat].
  rewrite str_app_assoc, str_app_String, str_app_nil_l, split_char_app by done.
  by rewrite IH.
Qed.

Lemma all_some_map_Some {A} (l : list A) : all_some (map Some l) = Some l.
Proof. induction l as [|x l IH]; simpl; [done|]. by rewrite IH. Qed.

Lemma plain_id_no fn : plain_id fn = true -> has_char "," fn = false /\ has_char "010" fn = false.
Proof. unfold plain_id. by intros [? ?]%negb_true_iff%orb_false_iff. Qed.

Lemma classes_no_char c ps :
  (nat_of_ascii c < 45)%nat -> c <> " "%char ->
  has_char c (py_join " " (map py_str_Z ps)) = false.
Proof.
  intros Hc Hsp. apply has_char_py_join.
  - cbn [has_char]. rewrite orb_false_r. apply Ascii.eqb_neq. congruence.
  - apply Forall_forall. intros x [z [-> _]]%list_elem_of_fmap_1. apply py_str_Z_no_char. lia.
Qed.

Lemma line_of_no_nl r : plain_id r.1 = true -> has_char "010" (line_of r) = false.
Proof.
  intros [_ Hn]%plain_id_no. unfold line_of, row_line.
  rewrite !has_char_app, Hn. rewrite classes_no_char; [done|apply Nat.ltb_lt; reflexivity|done].
Qed.

Lemma read_row_line fn ps :
  plain_id fn = true -> ps <> [] -> read_row (row_line fn ps) = Some (fn, ps).
Proof.
  intros [Hc _]%plain_id_no Hps. unfold read_row, row_line.
  change ("," ++ py_join " " (map py_str_Z ps)) with (String "," (py_join " " (map py_str_Z ps))).
  rewrite split_char_app, split_char_no_sep by (done || (apply classes_no_char; [apply Nat.ltb_lt; reflexivity|done])).
  rewrite py_join_split.
  - rewrite map_map, (map_ext _ Some) by apply py_str_Z_parse. by rewrite all_some_map_Some.
  - by destruct ps.
  - apply Forall_forall. intros x [z [-> _]]%list_elem_of_fmap_1. apply py_str_Z_no_char. left. apply Nat.ltb_lt; reflexivity.
Qed.

Lemma str_concat_app (a b : list string) : str_concat (a ++ b) = str_concat a ++ str_concat b.
Proof. induction a as [|x a IH]; simpl; [done|]. by rewrite IH, str_app_assoc. Qed.

Lemma render_rows_app r1 r2 : render_rows (r1 ++ r2) = render_rows r1 ++ render_rows r2.
Proof. unfold render_rows. by rewrite map_app, str_concat_app. Qed.

Lemma render_rows_map rows :
  str_concat (map (fun r => format_row r.1 r.2) rows) = render_rows rows.
Proof. unfold render_rows. f_equal. apply map_ext. by intros [? ?]. Qed.

(** ** The rows of a file *)

(** The fallback row written for a corrupted file is exactly the row
    the writer produces for the ranking [93 83 2]. *)
Theorem fallback_row_ranking fn : fallback_row fn = format_row fn [93; 83; 2]%Z.
Proof. unfold fallback_row, format_row, row_line. rewrite !str_app_assoc. reflexivity. Qed.

(** C8: a submission file reads back to the rows it was rendered from,
    when no id contains a comma or a newline and every ranking is
    non-empty: the format is unambiguous for such ids. *)
Theorem submission_roundtrip rows :
  Forall (fun r => plain_id r.1 = true /\ r.2 <> []) rows ->
  read_submission (render_submission rows) = Some rows.
Proof.
  intros Hrows. unfold render_submission.
  change (header ++ render_rows rows) with ("id,predicted" ++ String "010" (render_rows rows)).
  unfold read_submission. rewrite split_char_app by done.
  rewrite render_rows_lines, split_lines.
  2: { apply Forall_forall. intros x [r [-> Hr]]%list_elem_of_fmap_1.
       apply line_of_no_nl. by apply (proj1 (Forall_forall _ _) Hrows). }
  simpl. rewrite rev_app_distr. simpl. rewrite rev_involutive, map_map.
  rewrite (map_ext_in _ (fun r => Some r)); [apply all_some_map_Some|].
  intros [fn ps] Hin%list_elem_of_In. apply (proj1 (Forall_forall _ _) Hrows) in Hin as [? ?].
  by apply read_row_line.
Qed.

(** C37: the file does not determine its rows once an id may hold a
    newline: for all ids [a], [b] and rankings [r1], [r2], the single row
    whose id is [a]'s row line, a newline and [b], ranked [r2], is written
    as exactly the same text as the two rows [(a, r1)] and [(b, r2)], so
    no reader of the file can tell the two submissions apart. *)
Theorem render_submission_newline_collision a r1 b r2 :
  [(row_line a r1 ++ nl ++ b, r2)] <> [(a, r1); (b, r2)] /\
  render_submission [(row_line a r1 ++ nl ++ b, r2)] = render_submission [(a, r1); (b, r2)].
Proof.
  split; [discriminate|]. unfold render_submission, render_rows. cbn [map str_concat].
  unfold format_row, row_line. rewrite !str_app_assoc. reflexivity.
Qed.

(** ** Witnesses *)

Lemma submission_roundtrip_witness :
  read_submission (render_submission [("a", [5; 1; 3]%Z); ("b", [93; 83; 2]%Z)]) =
  Some [("a", [5; 1; 3]%Z); ("b", [93; 83; 2]%Z)].
Proof.
  apply submission_roundtrip.
  repeat constructor; vm_compute; discriminate.
Defined.

End Writer.
