(* ===== verification/Pipeline.v ===== *)
(** * The driver: [main] (predict.py 89-124)

    [main] composes the components in the order the script runs them,
    as a program of the state-and-error monad [st world exn] of
    [Prelude]: an exception aborts the run and keeps the world reached
    so far (the rows already written stay in the file, which CPython
    flushes when it reclaims the file object at exit).

    The world has the file system of [Validator], the latest checkpoint
    of each checkpoint directory ([tf.train.latest_checkpoint]) and the
    list of output handles not yet closed.  Two collaborators the script
    imports from files outside src/ are interfaces:

    - [ImageCodec]: [data_generator._parse_function_test], which reads a
      file and decodes it into a normalised image or fails;
    - [Classifier] (declared in [Model]): [model.MyModel] restored from
      a checkpoint, which maps an image to its row of logits, always
      [num_classes] long; [predict_batch] fetches ['top_3'] of
      [Model.init_model] on a batch.

    The operations: [listdir] ([os.listdir]), [open_w] ([open(path,'w')]:
    create or truncate, register the handle), [write_str]
    ([file.write]), [close], [restore] ([saver.restore] of the latest
    checkpoint), [parse_function_test] (the dataset's map step),
    [init_data_generator] (lines 57-73), [inference_loop] (lines
    110-118) and [main]. *)

From S2P Require Import Prelude PyStr Imghdr Config Validator Batching PyNum TopK Model Writer.
Import PyStr Validator Batching PyNum TopK Model Writer.
Local Open Scope string_scope.

Module Pipeline.

(** ** Interfaces of the collaborators *)

Class ImageCodec (Img : Type) := decode_image : list byte -> option Img.


(** ** The world *)

Record world : Type := {
  fs : gmap string node;
  checkpoints : gmap string string;
  handles : list string
}.

Definition set_fs (w : world) (m : gmap string node) : world :=
  {| fs := m; checkpoints := checkpoints w; handles := handles w |}.

Definition set_handles (w : world) (hs : list string) : world :=
  {| fs := fs w; checkpoints := checkpoints w; handles := hs |}.

Definition M (A : Type) : Type := st world exn A.

(** ** Operations on the world *)

Definition submissions_dir : string := "submissions/".

(** [os.listdir(dir)] *)
Definition listdir (dir : string) : M (list string) :=
  fun w => (w, match fs w !! dir with
                | Some (Dir _ es) => Ok es
                | _ => Err (OSError dir)
                end).

(** The name of line 98: ['{}_submission_{}.csv'.format(count, net)]. *)
Definition submission_name (count : Z) (net : string) : string :=
  py_str_Z count ++ "_submission_" ++ net ++ ".csv".

(** [open(dir + name, 'w')]: truncate or create the file, add a new name
    to the directory's listing, register the handle. *)
Definition open_w (dir name : string) : M string :=
  fun w =>
    let path := dir ++ name in
    match fs w !! path, fs w !! dir with
    | Some (Dir _ _), _ => (w, Err (IsADirectoryError path))
    | _, None => (w, Err (OSError path))
    | _, Some (File _) => (w, Err (OSError path))
    | old, Some (Dir sz es) =>
        let es' := match old with Some _ => es | None => app es [name] end in
        let m := <[path := File []]> (<[dir := Dir sz es']> (fs w)) in
        (set_handles (set_fs w m) (path :: handles w), Ok path)
    end.

(** [file.write(s)] on an open handle. *)
Definition write_str (path s : string) : M unit :=
  fun w =>
    match fs w !! path with
    | Some (File d) =>
        (set_fs w (<[path := File (app d (String.list_byte_of_string s))]> (fs w)), Ok tt)
    | _ => (w, Err (OSError path))
    end.

Fixpoint write_all (path : string) (ss : list string) : M unit :=
  match ss with
  | [] => st_ret tt
  | s :: ss' => write_str path s ;;; write_all path ss'
  end.

Definition close (path : string) : M unit :=
  st_modify (fun w => set_handles w (List.remove String.string_dec path (handles w))).

(** [saver.restore(sess, tf.train.latest_checkpoint(checkpoint_dir))] *)
Definition restore (ckdir : string) : M string :=
  fun w => (w, match checkpoints w !! ckdir with
                | Some ck => Ok ck
                | None => Err (ValueError "Can't load save_path when it is None.")
                end).

Definition is_dir (n : option node) : bool :=
  match n with Some (Dir _ _) => true | _ => false end.

(** [init_data_generator(img_paths, fns)] (lines 57-73): the number of
    batches in Python's float arithmetic (line 59, [PyNum.num_batches_py]),
    then the dataset of the pairs [(img_paths[i], fns[i])] (lines 61-63),
    whose two tensors [from_tensor_slices] requires to have the same
    length, then [dataset.batch(FLAGS.batch_size)] (line 65), which
    converts the batch size to an int64 tensor.  The stages and the
    iterator's ops are built, not run: the sign of the batch size is
    checked when [init_data] runs ([batch_init], line 108) and the
    stages are the subject of [Dataset]. *)
Definition init_data_generator (cfg : config) (img_paths fns : list string)
    : result exn (list (string * string) * Z) :=
  nb <-? num_batches_py (Z.of_nat (length img_paths)) (batch_size cfg) ;;
  if decide (length img_paths = length fns) then
    _ <-? to_int64 (batch_size cfg) ;;
    Ok (zip img_paths fns, nb)
  else Err (ValueError "Dimensions of the components are not compatible").

(** The configuration with another batch size. *)
Definition with_batch_size (cfg : config) (B : Z) : config :=
  {| data_dir := data_dir cfg; checkpoint_dir := checkpoint_dir cfg; batch_size := B;
     num_threads := num_threads cfg; image_size := image_size cfg; net := net cfg;
     allow_soft_placement := allow_soft_placement cfg |}.

(** The text the script writes on a successful run. *)
Definition output_text (rows : list (string * list Z)) (corrupted : list string) : string :=
  header ++ render_rows rows ++ str_concat (map fallback_row corrupted).

(** The listing of a directory after [open(dir + name, 'w')]. *)
Definition listing_after_open (m : gmap string node) (dir name : string) (es : list string)
    : list string :=
  match m !! (dir ++ name) with Some _ => es | None => app es [name] end.

(** The world after lines 98-99: [dir ++ name] created or truncated,
    holding [contents], listed in [dir], its handle open. *)
Definition opened_world (w : world) (dir name : string) (sz : Z) (es : list string)
    (contents : string) : world := {|
  fs := <[dir ++ name := File (String.list_byte_of_string contents)]>
        (<[dir := Dir sz (listing_after_open (fs w) dir name es)]> (fs w));
  checkpoints := checkpoints w;
  handles := (dir ++ name) :: handles w |}.

(** ** Collaborators and worlds used by the examples

    A codec that takes a file's bytes as the image, and a classifier
    whose four logits are the first four bytes of the image (padded with
    zeros): enough to run [main] on concrete worlds. *)

#[local] Instance toy_codec : ImageCodec (list byte) := fun d => Some d.

Definition toy_logits (ck : string) (img : list byte) : list Z :=
  map (fun b => Z.of_N (Byte.to_N b)) (take 4 (app img [x00; x00; x00; x00])).

#[local] Instance toy_classifier : Classifier (list byte) := {|
  num_classes := 4;
  logits := toy_logits;
  logits_length := ltac:(intros; unfold toy_logits;
                         rewrite length_map, length_take, length_app; cbn [length]; lia)
|}.

(** The data directory of [Validator.demo_fs], an empty [submissions/]
    and a checkpoint for [m]. *)
Definition demo_world : world := {|
  fs := <[submissions_dir := Dir 4096 []]> demo_fs;
  checkpoints := <["m" := "m/ck-1"]> ∅;
  handles := []
|}.

(** [submissions/] already holds one file, named as the next run's. *)
Definition collide_world : world := {|
  fs := <["submissions/1_submission_toy.csv" := File (String.list_byte_of_string "old")]>
        (<[submissions_dir := Dir 4096 ["1_submission_toy.csv"]]> demo_fs);
  checkpoints := <["m" := "m/ck-1"]> ∅;
  handles := []
|}.

Section Main.
Context {Img : Type} `{!ImageCodec Img} `{!Classifier Img}.

(** The map step of the dataset: read the file, decode it. *)
Definition parse_function_test (m : gmap string node) (path : string) : result exn Img :=
  match m !! path with
  | Some (File d) =>
      match decode_image d with
      | Some img => Ok img
      | None => Err (InvalidArgumentError "decode")
      end
  | _ => Err (NotFoundError path)
  end.

(** [sess.run(predictions['top_3'], feed_dict={x: img_batch})] *)
Definition predict_batch (ck : string) (imgs : list Img) : result exn (list (list nat)) :=
  top_3 (init_model ck imgs).

(** The rows of one batch: [for fn, preds in zip(fn_batch, _top3_preds)]. *)
Definition batch_rows (fns : list string) (preds : list (list nat)) : list string :=
  map (fun '(fn, p) => format_row fn (map Z.of_nat p)) (zip fns preds).

(** Lines 110-118: [k] iterations of get-next, score, write. *)
Fixpoint inference_loop (ck path : string) (B : nat) (k : nat)
    (it : list (string * string)) : M unit :=
  match k with
  | O => st_ret tt
  | S k' =>
      let! (batch, it') := st_lift (get_next B it) in
      w <- st_get ;;
      imgs <- st_lift (result_map (parse_function_test (fs w)) (map fst batch)) ;;
      preds <- st_lift (predict_batch ck imgs) ;;
      write_all path (batch_rows (map snd batch) preds) ;;;
      inference_loop ck path B k' it'
  end.

(** What the pipeline computes for one usable image: its id and its
    ranking, or the exception that stops the run. *)
Definition predict_item (ck : string) (m : gmap string node) (item : string * string)
    : result exn (string * list Z) :=
  img <-? parse_function_test m item.1 ;;
  ps <-? top_k (logits ck img) 3 ;;
  Ok (item.2, map Z.of_nat ps).

(** The body of [with tf.Session(...) as sess:] (lines 103-123): restore
    the checkpoint, initialise the iterator, run the batches, write the
    fallback rows, close the file. *)
Definition session_block (cfg : config) (path : string) (nb : Z)
    (dataset : list (string * string)) (corrupted_fns : list string) : M unit :=
  ck <- restore (checkpoint_dir cfg) ;;
  B <- st_lift (batch_init (batch_size cfg)) ;;
  inference_loop ck path B (Z.to_nat nb) dataset ;;;
  write_all path (map fallback_row corrupted_fns) ;;;
  close path.

Definition main (cfg : config) : M unit :=
  w <- st_get ;;
  let! (img_paths, fns, corrupted_fns) := st_lift (list_files cfg (fs w)) in
  let! (dataset, nb) := st_lift (init_data_generator cfg img_paths fns) in
  prior <- listdir submissions_dir ;;
  path <- open_w submissions_dir (submission_name (Z.of_nat (length prior)) (net cfg)) ;;
  write_str path header ;;;
  session_block cfg path nb dataset corrupted_fns.

(** ** Lemmas on the world operations *)

Lemma set_fs_set_fs w m1 m2 : set_fs (set_fs w m1) m2 = set_fs w m2.
Proof. by destruct w. Qed.

Lemma write_str_ok path s w d :
  fs w !! path = Some (File d) ->
  write_str path s w =
  (set_fs w (<[path := File (app d (String.list_byte_of_string s))]> (fs w)), Ok tt).
Proof. intros H. unfold write_str. by rewrite H. Qed.

Lemma write_all_ok path ss w d :
  fs w !! path = Some (File d) ->
  write_all path ss w =
  (set_fs w (<[path := File (app d (String.list_byte_of_string (str_concat ss)))]> (fs w)), Ok tt).
Proof.
  revert w d. induction ss as [|s ss IH]; intros w d H; cbn [write_all str_concat].
  - cbn. rewrite app_nil_r, insert_id by done. by destruct w.
  - erewrite st_bind_ok by (by apply write_str_ok).
    rewrite (IH _ (app d (String.list_byte_of_string s))) by (cbn; by rewrite lookup_insert_eq).
    cbn [fs set_fs]. by rewrite insert_insert_eq, set_fs_set_fs, list_byte_of_string_app, app_assoc.
Qed.

Lemma open_w_ok dir name w sz es :
  fs w !! dir = Some (Dir sz es) -> is_dir (fs w !! (dir ++ name)) = false ->
  open_w dir name w =
  (set_handles (set_fs w (<[dir ++ name := File []]>
                          (<[dir := Dir sz (listing_after_open (fs w) dir name es)]> (fs w))))
               ((dir ++ name) :: handles w), Ok (dir ++ name)).
Proof.
  intros Hdir Hnd. unfold open_w, listing_after_open.
  destruct (fs w !! (dir ++ name)) as [[d|sz' es']|]; [by rewrite Hdir | done | by rewrite Hdir].
Qed.

Lemma remove_cons_notin (x : string) hs :
  x ∉ hs -> List.remove String.string_dec x (x :: hs) = hs.
Proof.
  intros Hx. cbn. destruct (String.string_dec x x); [|done].
  apply notin_remove. by rewrite <- list_elem_of_In.
Qed.

Lemma listdir_ok dir w sz es : fs w !! dir = Some (Dir sz es) -> listdir dir w = (w, Ok es).
Proof. unfold listdir. by intros ->. Qed.

Lemma restore_ok ckdir w ck : checkpoints w !! ckdir = Some ck -> restore ckdir w = (w, Ok ck).
Proof. unfold restore. by intros ->. Qed.

Lemma restore_err ckdir w :
  checkpoints w !! ckdir = None ->
  restore ckdir w = (w, Err (ValueError "Can't load save_path when it is None.")).
Proof. unfold restore. by intros ->. Qed.

#[local] Hint Resolve listdir_ok restore_ok restore_err write_all_ok open_w_ok : zl.

(** ** One batch *)

Lemma batch_step ck m batch ys :
  result_map (predict_item ck m) batch = Ok ys ->
  exists imgs preds, result_map (parse_function_test m) (map fst batch) = Ok imgs /\
    predict_batch ck imgs = Ok preds /\
    batch_rows (map snd batch) preds = map (fun r => format_row r.1 r.2) ys.
Proof.
  revert ys. induction batch as [|[p fn] batch IH]; intros ys; cbn [result_map].
  - intros [= <-]. by exists [], [].
  - unfold predict_item at 1. cbn [fst snd].
    destruct (parse_function_test m p) as [img|e] eqn:Hpar; cbn [rbind]; [|done].
    destruct (top_k (logits ck img) 3) as [ps|e] eqn:Hps; cbn [rbind]; [|done].
    destruct (result_map (predict_item ck m) batch) as [ys'|e]; cbn [rbind]; [|done].
    intros [= <-]. destruct (IH ys' eq_refl) as (imgs & preds & Hi & Hp & Hr).
    exists (img :: imgs), (ps :: preds). cbn [map result_map fst].
    rewrite Hpar. cbn [rbind]. rewrite Hi. split; [done|]. split.
    + unfold predict_batch, init_model in *. cbn [top_3 map result_map] in *. by rewrite Hps, Hp.
    + unfold batch_rows in *. cbn. by rewrite Hr.
Qed.

Lemma predict_item_insert ck m path v item :
  item.1 <> path -> predict_item ck (<[path := v]> m) item = predict_item ck m item.
Proof.
  intros Hne. unfold predict_item, parse_function_test. by rewrite lookup_insert_ne by done.
Qed.

Lemma result_map_predict_insert ck m path v items :
  Forall (fun x => x.1 <> path) items ->
  result_map (predict_item ck (<[path := v]> m)) items = result_map (predict_item ck m) items.
Proof.
  induction 1 as [|x items Hx _ IH]; cbn [result_map]; [done|].
  by rewrite predict_item_insert, IH.
Qed.

(** ** The inference loop *)

(** One iteration of the loop on a batch whose items all decode and
    score appends their rows to the output file. *)
Lemma inference_loop_step ck path B k it w d b it' ys :
  fs w !! path = Some (File d) -> get_next B it = Ok (b, it') ->
  result_map (predict_item ck (fs w)) b = Ok ys ->
  inference_loop ck path B (S k) it w =
  inference_loop ck path B k it'
    (set_fs w (<[path := File (app d (String.list_byte_of_string (render_rows ys)))]> (fs w))).
Proof.
  intros Hpath Hg Hys. destruct (batch_step _ _ _ _ Hys) as (imgs & preds & Hi & Hp & Hb).
  cbn [inference_loop]. st_run. by rewrite Hb, render_rows_map.
Qed.

Lemma get_next_Forall (P : string * string -> Prop) B it b it' :
  Forall P it -> get_next B it = Ok (b, it') -> Forall P it'.
Proof. destruct it; [done|]. intros H [= _ <-]. by apply Forall_drop. Qed.

(** [k] iterations of the loop append to the output file the rows of
    the items of the [k] batches, in order, one per image. *)
Lemma inference_loop_ok ck path B k it w d bs rest rows :
  (0 < B)%nat -> fs w !! path = Some (File d) -> Forall (fun x => x.1 <> path) it ->
  run_batches k B it = Ok (bs, rest) ->
  result_map (predict_item ck (fs w)) (concat bs) = Ok rows ->
  inference_loop ck path B k it w =
  (set_fs w (<[path := File (app d (String.list_byte_of_string (render_rows rows)))]> (fs w)),
   Ok tt).
Proof.
  revert it w d bs rows. induction k as [|k IH]; intros it w d bs rows HB Hpath Hit Hrun Hrows.
  - injection Hrun as <- <-. injection Hrows as <-. cbn. rewrite app_nil_r, insert_id by done.
    by destruct w.
  - destruct (run_batches_S_ok _ _ _ _ _ Hrun) as (b & it' & bs' & Hg & Hr & ->).
    cbn [concat] in Hrows. apply result_map_app_inv in Hrows as (ys1 & ys2 & -> & H1 & H2).
    rewrite (inference_loop_step _ _ _ _ _ _ _ _ _ _ Hpath Hg H1).
    rewrite (IH it' _ (app d (String.list_byte_of_string (render_rows ys1))) bs' ys2); try done.
    + cbn [fs set_fs]. rewrite insert_insert_eq, set_fs_set_fs, render_rows_app.
      by rewrite list_byte_of_string_app, app_assoc.
    + cbn. by rewrite lookup_insert_eq.
    + by eapply get_next_Forall.
    + cbn [fs set_fs]. rewrite result_map_predict_insert; [done|].
      by apply (run_batches_Forall _ k B it' bs' rest); [eapply get_next_Forall|].
Qed.

(** ** The whole run *)

(** The images the loop reads are neither the output file nor
    [submissions/]: they are regular files, and the output name is not
    one of them. *)
Lemma items_apart cfg w paths ids cor sz es out :
  list_files cfg (fs w) = Ok (paths, ids, cor) -> fs w !! submissions_dir = Some (Dir sz es) ->
  out ∉ paths -> Forall (fun x => x.1 <> out /\ x.1 <> submissions_dir) (zip paths ids).
Proof.
  intros Hlf Hsub Hout. pose proof (list_files_paths_files _ _ _ _ _ Hlf) as Hf.
  eapply Forall_impl; [apply Forall_zip_fst|]. intros x Hx.
  cbv beta in Hx. split; intros Heq; rewrite Heq in Hx; [done|].
  apply (proj1 (Forall_forall _ _) Hf) in Hx as [d Hd]. congruence.
Qed.

Lemma list_files_lengths cfg m paths ids cor :
  list_files cfg m = Ok (paths, ids, cor) -> length paths = length ids.
Proof.
  intros Hlf. destruct (list_files_ok_partition _ _ _ Hlf) as (fns & _ & _ & Hr).
  unfold partition_of in Hr. simplify_eq. by rewrite !length_map.
Qed.

(** On the lists of a scan, [init_data_generator] fails only in the
    division or in the int64 conversion: the two tensors always have the
    same length. *)
Lemma init_data_generator_ok cfg m paths ids cor nb :
  list_files cfg m = Ok (paths, ids, cor) -> (- 2 ^ 63 <= batch_size cfg < 2 ^ 63)%Z ->
  num_batches_py (Z.of_nat (length paths)) (batch_size cfg) = Ok nb ->
  init_data_generator cfg paths ids = Ok (zip paths ids, nb).
Proof.
  intros Hlf HB Hnb. unfold init_data_generator. rewrite Hnb. cbn [rbind].
  rewrite decide_True by (eapply list_files_lengths; eauto). by rewrite to_int64_ok.
Qed.

(** A positive batch size that converts to int64, fewer than [2 ^ 53]
    images: the exact number of batches. *)
Lemma init_data_generator_exact cfg m paths ids cor nb :
  list_files cfg m = Ok (paths, ids, cor) -> (Z.of_nat (length paths) < 2 ^ 53)%Z ->
  (0 < batch_size cfg < 2 ^ 63)%Z -> num_batches (length paths) (batch_size cfg) = Ok nb ->
  init_data_generator cfg paths ids = Ok (zip paths ids, nb).
Proof.
  intros Hlf Hn HB Hnb. eapply init_data_generator_ok; [done|lia|].
  rewrite num_batches_py_eq by lia. done.
Qed.

Lemma init_data_generator_nonzero cfg m paths ids cor :
  list_files cfg m = Ok (paths, ids, cor) -> (Z.of_nat (length paths) < 2 ^ 53)%Z ->
  batch_size cfg <> 0%Z -> (- 2 ^ 63 <= batch_size cfg < 2 ^ 63)%Z ->
  exists nb, init_data_generator cfg paths ids = Ok (zip paths ids, nb).
Proof.
  intros Hlf Hn HB HB63. destruct (num_batches_py_ok (length paths) (batch_size cfg)) as [nb Hnb]; [done..|].
  exists nb. by eapply init_data_generator_ok.
Qed.

Lemma init_data_generator_zero cfg paths ids :
  batch_size cfg = 0%Z -> init_data_generator cfg paths ids = Err ZeroDivisionError.
Proof. unfold init_data_generator. by intros ->. Qed.

#[local] Hint Resolve init_data_generator_zero : zl.

(** Up to the header (lines 91-99), a run whose scan, batch count and
    [open] succeed reaches [opened_world] and enters the session block. *)
Lemma main_prefix cfg w paths ids cor nb sz es :
  list_files cfg (fs w) = Ok (paths, ids, cor) ->
  init_data_generator cfg paths ids = Ok (zip paths ids, nb) ->
  fs w !! submissions_dir = Some (Dir sz es) ->
  is_dir (fs w !! (submissions_dir ++ submission_name (Z.of_nat (length es)) (net cfg))) = false ->
  main cfg w =
  session_block cfg (submissions_dir ++ submission_name (Z.of_nat (length es)) (net cfg)) nb
    (zip paths ids) cor
    (opened_world w submissions_dir (submission_name (Z.of_nat (length es)) (net cfg)) sz es header).
Proof.
  intros Hlf Hnb Hsub Hnd. unfold main. st_run.
  erewrite st_bind_ok by (apply write_str_ok; cbn; apply lookup_insert_eq).
  f_equal. unfold opened_world. cbn. by rewrite insert_insert_eq.
Qed.

(** The run on a world meeting the preconditions, step by step: the
    output handle is closed, whether or not it was open before. *)
Lemma main_run_gen cfg w paths ids cor sz es ck rows :
  list_files cfg (fs w) = Ok (paths, ids, cor) -> (Z.of_nat (length paths) < 2 ^ 53)%Z ->
  (0 < batch_size cfg < 2 ^ 63)%Z ->
  fs w !! submissions_dir = Some (Dir sz es) ->
  is_dir (fs w !! (submissions_dir ++ submission_name (Z.of_nat (length es)) (net cfg))) = false ->
  submissions_dir ++ submission_name (Z.of_nat (length es)) (net cfg) ∉ paths ->
  checkpoints w !! checkpoint_dir cfg = Some ck ->
  result_map (predict_item ck (fs w)) (zip paths ids) = Ok rows ->
  main cfg w =
  ({| fs := <[submissions_dir ++ submission_name (Z.of_nat (length es)) (net cfg) :=
               File (String.list_byte_of_string (output_text rows cor))]>
            (<[submissions_dir := Dir sz (listing_after_open (fs w) submissions_dir
                                   (submission_name (Z.of_nat (length es)) (net cfg)) es)]> (fs w));
      checkpoints := checkpoints w;
      handles := List.remove String.string_dec (submissions_dir ++ submission_name
                   (Z.of_nat (length es)) (net cfg)) ((submissions_dir ++ submission_name
                   (Z.of_nat (length es)) (net cfg)) :: handles w) |}, Ok tt).
Proof.
  set (name := submission_name _ _). set (out := submissions_dir ++ name).
  intros Hlf Hn HB Hsub Hnd Hout Hck Hrows.
  pose proof (list_files_lengths _ _ _ _ _ Hlf) as Hlen.
  assert (HB' : (0 < Z.to_nat (batch_size cfg))%nat) by lia.
  destruct (loop_drains _ (zip paths ids) HB') as (q & bs & Hq & Hrun & Hcat).
  rewrite length_zip, Hlen, Nat.min_id, <- Hlen, Z2Nat.id in Hq by lia.
  pose proof (items_apart cfg w paths ids cor sz es out Hlf Hsub Hout) as Hitems.
  rewrite (main_prefix cfg w paths ids cor q sz es) by (try eapply init_data_generator_exact; eauto).
  unfold session_block.
  st_run. erewrite st_bind_ok.
  2: { apply (inference_loop_ok ck out (Z.to_nat (batch_size cfg)) (Z.to_nat q) (zip paths ids)
                _ (String.list_byte_of_string header) bs [] rows HB').
       - cbn. apply lookup_insert_eq.
       - eapply Forall_impl; [exact Hitems|]. by intros x [? _].
       - exact Hrun.
       - rewrite Hcat. cbn [fs opened_world].
         rewrite !result_map_predict_insert; [exact Hrows|..];
           (eapply Forall_impl; [exact Hitems|]); by intros x [? ?]. }
  erewrite st_bind_ok by (apply write_all_ok; cbn; apply lookup_insert_eq).
  unfold close, st_modify. cbn [fs set_fs set_handles handles checkpoints opened_world].
  rewrite !insert_insert_eq, <- !app_assoc, <- !list_byte_of_string_app.
  done.
Qed.

(** The run on a world meeting the preconditions, step by step. *)
Lemma main_run_ok cfg w paths ids cor sz es ck rows :
  list_files cfg (fs w) = Ok (paths, ids, cor) -> (Z.of_nat (length paths) < 2 ^ 53)%Z ->
  (0 < batch_size cfg < 2 ^ 63)%Z ->
  fs w !! submissions_dir = Some (Dir sz es) ->
  is_dir (fs w !! (submissions_dir ++ submission_name (Z.of_nat (length es)) (net cfg))) = false ->
  submissions_dir ++ submission_name (Z.of_nat (length es)) (net cfg) ∉ paths ->
  submissions_dir ++ submission_name (Z.of_nat (length es)) (net cfg) ∉ handles w ->
  checkpoints w !! checkpoint_dir cfg = Some ck ->
  result_map (predict_item ck (fs w)) (zip paths ids) = Ok rows ->
  main cfg w =
  ({| fs := <[submissions_dir ++ submission_name (Z.of_nat (length es)) (net cfg) :=
               File (String.list_byte_of_string (output_text rows cor))]>
            (<[submissions_dir := Dir sz (listing_after_open (fs w) submissions_dir
                                   (submission_name (Z.of_nat (length es)) (net cfg)) es)]> (fs w));
      checkpoints := checkpoints w; handles := handles w |}, Ok tt).
Proof.
  intros Hlf Hn HB Hsub Hnd Hout Hh Hck Hrows.
  rewrite (main_run_gen cfg w paths ids cor sz es ck rows) by done.
  by rewrite remove_cons_notin.
Qed.

(** C1: a run that meets the script's preconditions (the data directory
    lists fewer than [2 ^ 53] usable images, the batch size is positive
    and converts to int64, [submissions/] exists and the new
    name is not a directory, a checkpoint exists, every usable image
    decodes and scores) succeeds, writes to [submissions/<n>_submission_<net>.csv]
    ([n] the number of entries already there) the header, one row per
    usable image in listing order with its top-3 ranking, then one
    fallback row per corrupted file, closes the file, and changes nothing
    else but the listing of [submissions/]. *)
Theorem main_ok cfg w paths ids cor sz es ck rows :
  list_files cfg (fs w) = Ok (paths, ids, cor) -> (Z.of_nat (length paths) < 2 ^ 53)%Z ->
  (0 < batch_size cfg < 2 ^ 63)%Z ->
  fs w !! submissions_dir = Some (Dir sz es) ->
  is_dir (fs w !! (submissions_dir ++ submission_name (Z.of_nat (length es)) (net cfg))) = false ->
  submissions_dir ++ submission_name (Z.of_nat (length es)) (net cfg) ∉ paths ->
  submissions_dir ++ submission_name (Z.of_nat (length es)) (net cfg) ∉ handles w ->
  checkpoints w !! checkpoint_dir cfg = Some ck ->
  result_map (predict_item ck (fs w)) (zip paths ids) = Ok rows ->
  main cfg w =
  ({| fs := <[submissions_dir ++ submission_name (Z.of_nat (length es)) (net cfg) :=
               File (String.list_byte_of_string (output_text rows cor))]>
            (<[submissions_dir := Dir sz (listing_after_open (fs w) submissions_dir
                                   (submission_name (Z.of_nat (length es)) (net cfg)) es)]> (fs w));
      checkpoints := checkpoints w; handles := handles w |}, Ok tt).
Proof. apply main_run_ok. Qed.

(** C7: the batch size does not change what a run does: with any two
    positive batch sizes that convert to int64 the run ends in the same world, so the rows and
    their order are the same for batch size 1, for one batch holding
    every image, and for every size in between. *)
Corollary main_batch_size_independent cfg w paths ids cor sz es ck rows B1 B2 :
  list_files cfg (fs w) = Ok (paths, ids, cor) -> (Z.of_nat (length paths) < 2 ^ 53)%Z ->
  fs w !! submissions_dir = Some (Dir sz es) ->
  is_dir (fs w !! (submissions_dir ++ submission_name (Z.of_nat (length es)) (net cfg))) = false ->
  submissions_dir ++ submission_name (Z.of_nat (length es)) (net cfg) ∉ paths ->
  submissions_dir ++ submission_name (Z.of_nat (length es)) (net cfg) ∉ handles w ->
  checkpoints w !! checkpoint_dir cfg = Some ck ->
  result_map (predict_item ck (fs w)) (zip paths ids) = Ok rows ->
  (0 < B1 < 2 ^ 63)%Z -> (0 < B2 < 2 ^ 63)%Z ->
  main (with_batch_size cfg B1) w = main (with_batch_size cfg B2) w.
Proof.
  intros. by rewrite !(main_run_ok _ w paths ids cor sz es ck rows).
Qed.

(** ** The run on each error path *)

(** C28: when the scan of the data directory raises, the run stops with
    that exception before anything is written: the world is unchanged. *)
Theorem main_scan_error cfg w e :
  list_files cfg (fs w) = Err e -> main cfg w = (w, Err e).
Proof.
  intros H. unfold main. by st_run.
Qed.

(** C29: a batch size of 0 raises [ZeroDivisionError] in
    [init_data_generator], before the output file is opened. *)
Theorem main_zero_batch_size cfg w paths ids cor :
  list_files cfg (fs w) = Ok (paths, ids, cor) -> batch_size cfg = 0%Z ->
  main cfg w = (w, Err ZeroDivisionError).
Proof.
  intros Hlf HB. unfold main. by st_run.
Qed.

(** C26: a missing checkpoint is detected only after the output file has
    been created and its header written: the run raises [ValueError]
    in the world [opened_world] of lines 98-99, where
    [submissions/<n>_submission_<net>.csv] holds the header alone and
    its handle is still open. *)
Theorem main_missing_checkpoint cfg w paths ids cor sz es :
  list_files cfg (fs w) = Ok (paths, ids, cor) -> (Z.of_nat (length paths) < 2 ^ 53)%Z ->
  batch_size cfg <> 0%Z -> (- 2 ^ 63 <= batch_size cfg < 2 ^ 63)%Z ->
  fs w !! submissions_dir = Some (Dir sz es) ->
  is_dir (fs w !! (submissions_dir ++ submission_name (Z.of_nat (length es)) (net cfg))) = false ->
  checkpoints w !! checkpoint_dir cfg = None ->
  main cfg w =
  (opened_world w submissions_dir (submission_name (Z.of_nat (length es)) (net cfg)) sz es header,
   Err (ValueError "Can't load save_path when it is None.")).
Proof.
  intros Hlf Hn HB HB63 Hsub Hnd Hck.
  destruct (init_data_generator_nonzero _ _ _ _ _ Hlf Hn HB HB63) as [nb Hid].
  rewrite (main_prefix _ _ _ _ _ _ _ _ Hlf Hid Hsub Hnd). unfold session_block.
  by st_run.
Qed.

(** C27: A negative batch size in the int64 range passes the division
    of line 59 and the conversion of line 65 and is only
    rejected when the iterator is initialised (line 109), after the
    output file has been created and its header written. *)
Theorem main_negative_batch_size cfg w paths ids cor sz es ck :
  list_files cfg (fs w) = Ok (paths, ids, cor) -> (Z.of_nat (length paths) < 2 ^ 53)%Z ->
  (- 2 ^ 63 <= batch_size cfg < 0)%Z ->
  fs w !! submissions_dir = Some (Dir sz es) ->
  is_dir (fs w !! (submissions_dir ++ submission_name (Z.of_nat (length es)) (net cfg))) = false ->
  checkpoints w !! checkpoint_dir cfg = Some ck ->
  main cfg w =
  (opened_world w submissions_dir (submission_name (Z.of_nat (length es)) (net cfg)) sz es header,
   Err (InvalidArgumentError "Batch size must be greater than zero.")).
Proof.
  intros Hlf Hn HB Hsub Hnd Hck.
  destruct (init_data_generator_nonzero _ _ _ _ _ Hlf Hn ltac:(lia) ltac:(lia)) as [nb Hid].
  rewrite (main_prefix _ _ _ _ _ _ _ _ Hlf Hid Hsub Hnd). unfold session_block.
  by st_run.
Qed.

(** C30: a batch size outside the int64 range passes the division of
    line 59 but not its conversion to an int64 tensor by
    [dataset.batch] (line 65): the run raises [OverflowError] in
    [init_data_generator], before the output file is opened, and the
    world is unchanged. *)
Theorem main_batch_size_overflow cfg w paths ids cor :
  list_files cfg (fs w) = Ok (paths, ids, cor) -> (Z.of_nat (length paths) < 2 ^ 53)%Z ->
  ~ (- 2 ^ 63 <= batch_size cfg < 2 ^ 63)%Z ->
  main cfg w = (w, Err (OverflowError "Python int too large to convert to C long")).
Proof.
  intros Hlf Hn HB. destruct (num_batches_py_ok (length paths) (batch_size cfg)) as [nb Hnb]; [lia|lia|].
  unfold main. st_run. erewrite st_bind_err; [done|]. apply st_lift_err.
  unfold init_data_generator. rewrite Hnb. cbn [rbind].
  rewrite decide_True by (eapply list_files_lengths; eauto). by rewrite to_int64_err.
Qed.

(** C36: when [submissions/] holds [n] entries one of which is already
    the regular file [<n>_submission_<net>.csv] (an earlier file was
    removed, so the count names a surviving one), a run that meets the
    other preconditions of [main_ok] replaces that file's content [d] by
    its own output, and leaves the listing of [submissions/] as it was:
    the next run counts [n] entries again and overwrites the same file. *)
Theorem main_overwrites_prior_artifact cfg w paths ids cor sz es ck rows d :
  list_files cfg (fs w) = Ok (paths, ids, cor) -> (Z.of_nat (length paths) < 2 ^ 53)%Z ->
  (0 < batch_size cfg < 2 ^ 63)%Z ->
  fs w !! submissions_dir = Some (Dir sz es) ->
  fs w !! (submissions_dir ++ submission_name (Z.of_nat (length es)) (net cfg)) = Some (File d) ->
  submissions_dir ++ submission_name (Z.of_nat (length es)) (net cfg) ∉ paths ->
  checkpoints w !! checkpoint_dir cfg = Some ck ->
  result_map (predict_item ck (fs w)) (zip paths ids) = Ok rows ->
  fs (main cfg w).1 !! (submissions_dir ++ submission_name (Z.of_nat (length es)) (net cfg)) =
    Some (File (String.list_byte_of_string (output_text rows cor))) /\
  fs (main cfg w).1 !! submissions_dir = Some (Dir sz es).
Proof.
  intros Hlf Hn HB Hsub Hold Hout Hck Hrows.
  rewrite (main_run_gen cfg w paths ids cor sz es ck rows) by (rewrite ?Hold; done).
  cbn [fst fs]. split; [apply lookup_insert_eq|].
  rewrite lookup_insert_ne by (intros Heq; rewrite <- Heq in Hsub; congruence).
  rewrite lookup_insert_eq. unfold listing_after_open. by rewrite Hold.
Qed.

End Main.

#[export] Hint Resolve listdir_ok restore_ok restore_err write_all_ok open_w_ok : zl.

(** ** Examples and witnesses *)

Ltac discharge :=
  first [ vm_compute; reflexivity | vm_compute; intros ?; discriminate | lia | apply (bool_decide_unpack _); vm_compute; exact I ].

Lemma main_ok_witness :
  main demo_cfg demo_world =
  ({| fs := <["submissions/0_submission_toy.csv" :=
                File (String.list_byte_of_string (output_text [("a", [1; 0; 2]%Z)] ["b"; "c"]))]>
            (<[submissions_dir := Dir 4096 ["0_submission_toy.csv"]]> (fs demo_world));
      checkpoints := checkpoints demo_world; handles := [] |}, Ok tt).
Proof.
  apply (main_ok demo_cfg demo_world ["d/a.jpg"] ["a"] ["b"; "c"] 4096 [] "m/ck-1"
           [("a", [1; 0; 2]%Z)]); discharge.
Defined.

Lemma main_batch_size_independent_witness :
  main (with_batch_size demo_cfg 1) demo_world = main (with_batch_size demo_cfg 5) demo_world.
Proof.
  apply (main_batch_size_independent demo_cfg demo_world ["d/a.jpg"] ["a"] ["b"; "c"] 4096 []
           "m/ck-1" [("a", [1; 0; 2]%Z)]); discharge.
Defined.

Lemma main_scan_error_witness :
  main (Config.Build_config "nope" "m" 2 8 299 "toy" true) demo_world
  = (demo_world, Err (NotFoundError "nope")).
Proof. apply main_scan_error. discharge. Defined.

Lemma main_zero_batch_size_witness :
  main (with_batch_size demo_cfg 0) demo_world = (demo_world, Err ZeroDivisionError).
Proof. apply (main_zero_batch_size _ _ ["d/a.jpg"] ["a"] ["b"; "c"]); discharge. Defined.

Lemma main_missing_checkpoint_witness :
  main (Config.Build_config "d" "x" 2 8 299 "toy" true) demo_world =
  (opened_world demo_world submissions_dir (submission_name 0 "toy") 4096 [] header,
   Err (ValueError "Can't load save_path when it is None.")).
Proof.
  apply (main_missing_checkpoint (Config.Build_config "d" "x" 2 8 299 "toy" true) demo_world
           ["d/a.jpg"] ["a"] ["b"; "c"] 4096 []); discharge.
Defined.

Lemma main_negative_batch_size_witness :
  main (Config.Build_config "d" "m" (-2) 8 299 "toy" true) demo_world =
  (opened_world demo_world submissions_dir (submission_name 0 "toy") 4096 [] header,
   Err (InvalidArgumentError "Batch size must be greater than zero.")).
Proof.
  apply (main_negative_batch_size (Config.Build_config "d" "m" (-2) 8 299 "toy" true) demo_world
           ["d/a.jpg"] ["a"] ["b"; "c"] 4096 [] "m/ck-1"); discharge.
Defined.

Lemma main_batch_size_overflow_witness :
  main (Config.Build_config "d" "m" (2 ^ 63) 8 299 "toy" true) demo_world =
  (demo_world, Err (OverflowError "Python int too large to convert to C long")).
Proof.
  apply (main_batch_size_overflow (Config.Build_config "d" "m" (2 ^ 63) 8 299 "toy" true) demo_world
           ["d/a.jpg"] ["a"] ["b"; "c"]); [discharge|discharge|cbn; lia].
Defined.

Lemma main_overwrites_prior_artifact_witness :
  fs (main demo_cfg collide_world).1 !! "submissions/1_submission_toy.csv" =
    Some (File (String.list_byte_of_string (output_text [("a", [1; 0; 2]%Z)] ["b"; "c"]))) /\
  fs (main demo_cfg collide_world).1 !! submissions_dir = Some (Dir 4096 ["1_submission_toy.csv"]).
Proof.
  apply (main_overwrites_prior_artifact demo_cfg collide_world ["d/a.jpg"] ["a"] ["b"; "c"] 4096
           ["1_submission_toy.csv"] "m/ck-1" [("a", [1; 0; 2]%Z)] (String.list_byte_of_string "old"));
    discharge.
Defined.

End Pipeline.
