(* ===== verification/Loader.v ===== *)
(** * The script's dataset pipeline feeds [main] the sequential batches

    [init_data_generator] (predict.py 61-71) instantiates the pipeline of
    [Dataset] with the map function [_parse_function_test], which reads
    and decodes an image and passes its id along ([parse_elem]), with
    [cpu_count()] decoder threads and with [FLAGS.batch_size] as both the
    batch size and the prefetch depth ([script_step]).

    The theorem [loader_refines]: under every interleaving, the batches
    the loop of [main] receives are, in order, the batches the sequential
    model of [Pipeline.inference_loop] reads with [get_next] and decodes;
    so the order of the rows in the submission file does not depend on
    the scheduling of the decoder threads. *)

From S2P Require Import Prelude Config Validator Batching Dataset Model Pipeline.
From stdpp Require Import relations.
Import Validator Batching Dataset Model Pipeline.

Module Loader.

Section Script.
Context {Img : Type} `{!ImageCodec Img} `{!Classifier Img}.

(** [_parse_function_test(img_path, fn)]: the decoded image and its id. *)
Definition parse_elem (m : gmap string node) (item : string * string) : result exn (Img * string) :=
  img <-? parse_function_test m item.1 ;; Ok (img, item.2).

(** The pipeline of lines 63-66 for a configuration, with [ncpu] decoders. *)
Definition script_step (m : gmap string node) (ncpu : nat) (cfg : config) :=
  dstep (parse_elem m) ncpu (Z.to_nat (batch_size cfg)) (Z.to_nat (batch_size cfg)).

(** What the sequential loop gets for one batch: [get_next] gives the
    paths and ids, the map step decodes the paths. *)
Definition decoded_batch (m : gmap string node) (b : list (string * string))
    : result exn (list (Img * string)) :=
  imgs <-? result_map (parse_function_test m) (map fst b) ;; Ok (zip imgs (map snd b)).

Lemma result_map_parse_elem m b : result_map (parse_elem m) b = decoded_batch m b.
Proof.
  unfold decoded_batch. induction b as [|[p fn] b IH]; [done|].
  cbn [result_map map fst snd]. unfold parse_elem at 1. cbn [fst snd].
  destruct (parse_function_test m p); cbn [rbind]; [|done].
  rewrite IH. by destruct (result_map (parse_function_test m) (map fst b)).
Qed.

(** C12: whatever the interleaving of the [cpu_count()] decoder threads,
    the batch stage and the prefetch thread, the batches the loop of
    [main] receives are, in order, a prefix of the batches the
    sequential iterator gives in its [num_batches] calls, decoded. *)
Theorem loader_refines cfg m ncpu xs s :
  (0 < batch_size cfg)%Z ->
  rtc (script_step m ncpu cfg) (dinit xs) s ->
  exists q bs, num_batches (length xs) (batch_size cfg) = Ok q /\
    run_batches (Z.to_nat q) (Z.to_nat (batch_size cfg)) xs = Ok (bs, []) /\
    observed s `prefix_of` map (decoded_batch m) bs.
Proof.
  intros HB Hr. set (B := Z.to_nat (batch_size cfg)).
  assert (HB' : (0 < B)%nat) by lia.
  destruct (loop_drains B xs HB') as (q & bs & Hq & Hrun & _).
  exists q, bs. split; [by replace (batch_size cfg) with (Z.of_nat B) by lia|]. split; [done|].
  rewrite <- (map_ext (fun b => collect (map (parse_elem m) b))) by
    (intros b; by rewrite collect_map, result_map_parse_elem).
  rewrite <- (ref_batches_slices (parse_elem m) B HB' xs q bs Hq Hrun).
  by apply (observed_prefix_ref (parse_elem m) ncpu B B HB').
Qed.

End Script.

(** ** Witness: one image of [demo_world], two decoder threads *)

#[local] Existing Instance toy_codec.
#[local] Existing Instance toy_classifier.

Lemma loader_refines_witness :
  exists q bs, num_batches (length (zip ["d/a.jpg"] ["a"])) (batch_size demo_cfg) = Ok q /\
    run_batches (Z.to_nat q) (Z.to_nat (batch_size demo_cfg)) (zip ["d/a.jpg"] ["a"]) = Ok (bs, []) /\
    observed (@DState (string * string) (list byte * string) exn [] [] [] []
                [collect [parse_elem (fs demo_world) ("d/a.jpg", "a")]])
      `prefix_of` map (decoded_batch (fs demo_world)) bs.
Proof.
  apply (loader_refines demo_cfg (fs demo_world) 2); [vm_compute; reflexivity|].
  apply (dexec_list_sound _ 2 2 2 [EStart; EFinish 0; ECollect; EEmit; EGet]).
  vm_compute. reflexivity.
Defined.

End Loader.
