(* ===== verification/Rows.v ===== *)
(** * What a prediction row holds (predict.py 113-118)

    Each usable image gets the row [fn,c1 c2 c3] where [c1 c2 c3] is
    [tf.nn.top_k(logits, k=3)[1]] of its logits.  [row_typed] says what
    such a ranking is: three distinct class indices of the network's
    output, [0 <= c < num_classes].  The theorem [rows_typed]: the rows
    the loop of [main] computes carry the images' ids, in order, and
    well-typed rankings. *)

From S2P Require Import Prelude TopK Model Pipeline.
Import TopK Model Pipeline.

Module Rows.

(** A well-formed ranking of [nclasses] classes. *)
Definition row_typed (nclasses : nat) (r : string * list Z) : Prop :=
  length r.2 = 3%nat /\ NoDup r.2 /\ Forall (fun c => 0 <= c < Z.of_nat nclasses)%Z r.2.

Section Rows.
Context {Img : Type} `{!ImageCodec Img} `{!Classifier Img}.

Lemma predict_item_typed ck m item r :
  predict_item ck m item = Ok r -> r.1 = item.2 /\ row_typed num_classes r.
Proof.
  unfold predict_item. destruct (parse_function_test m item.1) as [img|e]; cbn [rbind]; [|done].
  destruct (top_k (logits ck img) 3) as [l|e] eqn:Hl; cbn [rbind]; [|done]. intros [= <-].
  apply top_k_ok_topk in Hl as (Hlen & Hnd & Hr & _). rewrite logits_length in Hr.
  split; [done|]. unfold row_typed. cbn [snd]. split; [by rewrite length_map|]. split.
  - apply NoDup_fmap_2; [intros ? ? ?; lia|done].
  - apply Forall_map. eapply Forall_impl; [exact Hr|]. cbn. lia.
Qed.

(** C20: the rows computed for the usable images carry their ids, in
    order, and each ranking holds three distinct class indices in
    [0, num_classes). *)
Theorem rows_typed ck m items rows :
  result_map (predict_item ck m) items = Ok rows ->
  map fst rows = map snd items /\ Forall (row_typed num_classes) rows.
Proof.
  revert rows. induction items as [|x items IH]; intros rows; cbn [result_map].
  - intros [= <-]. split; constructor.
  - destruct (predict_item ck m x) as [r|e] eqn:Hx; cbn [rbind]; [|done].
    destruct (result_map (predict_item ck m) items) as [rs|e]; cbn [rbind]; [|done].
    intros [= <-]. destruct (IH rs eq_refl) as [Hids Hty].
    destruct (predict_item_typed _ _ _ _ Hx) as [Hid Hr].
    split; [cbn; by rewrite Hid, Hids | by constructor].
Qed.

End Rows.

(** ** Witness *)

#[local] Existing Instance toy_codec.
#[local] Existing Instance toy_classifier.

Lemma rows_typed_witness :
  map fst [("a", [1; 0; 2]%Z)] = map snd [("d/a.jpg", "a")] /\
  Forall (row_typed num_classes) [("a", [1; 0; 2]%Z)].
Proof.
  apply (rows_typed "m/ck-1" (fs demo_world)). vm_compute. reflexivity.
Defined.

End Rows.
