(* ===== verification/PartialRun.v ===== *)
(** * A run interrupted by an image that does not decode (predict.py 109-118)

    [list_files] keeps a file when its header is a jpeg, png or gif one;
    the decoder of [_parse_function_test] reads the whole file and can
    still fail on it (a truncated or damaged body).  The failure is raised
    by [sess.run(get_next)] (line 113) for the batch holding that image,
    and nothing catches it: the batches before it have been written, the
    fallback rows are never written and the file is never closed.

    - [inference_loop_err]: [k] iterations of the loop over
      [pre ++ x :: post], where every item of [pre] decodes and [x] does
      not, write the rows of the complete batches before the one holding
      [x] and raise the decoder's error;
    - [main_decode_error]: the whole run in that case.

    The classifier is assumed to output at least three logits per image,
    as any network of the script does, so that [top_k] never raises and
    the first error of a batch is its first decoding error. *)

From S2P Require Import Prelude Imghdr Config Validator Batching TopK Model Writer Pipeline.
Import Validator Batching TopK Model Writer Pipeline.
Local Open Scope string_scope.

Module PartialRun.

(** ** A data directory with a truncated image

    [t] holds three files with a GIF header; the third is cut after ten
    bytes.  The codec [strict_codec] rejects files shorter than twelve
    bytes, as a decoder rejects a truncated body. *)

#[local] Instance strict_codec : ImageCodec (list byte) :=
  fun d => if (length d <? 12)%nat then None else Some d.

#[local] Existing Instance toy_classifier.

Definition gif_bytes (n : nat) : list byte :=
  app (Imghdr.bytes_of "GIF89a") (repeat x01 (n - 6)).

Definition trunc_world : world := {|
  fs := <[submissions_dir := Dir 4096 []]>
        (<["t" := Dir 4096 ["p1.gif"; "p2.gif"; "p3.gif"]]>
        (<["t/p1.gif" := File (gif_bytes 12)]>
        (<["t/p2.gif" := File (gif_bytes 12)]>
        (<["t/p3.gif" := File (gif_bytes 10)]> ∅))));
  checkpoints := <["m" := "m/ck-1"]> ∅;
  handles := []
|}.

Definition trunc_cfg (B : Z) : config := {|
  data_dir := "t"; checkpoint_dir := "m"; batch_size := B; num_threads := 8;
  image_size := 299; net := "toy"; allow_soft_placement := true |}.

Section Interrupted.
Context {Img : Type} `{!ImageCodec Img} `{!Classifier Img}.
Hypothesis three_classes : (3 <= num_classes)%nat.

Lemma top_k_three ck img : exists ps, top_k (logits ck img) 3 = Ok ps.
Proof.
  unfold top_k. rewrite logits_length. destruct (Nat.ltb_spec num_classes 3); [lia|eauto].
Qed.

Lemma predict_item_err ck m x e :
  predict_item ck m x = Err e -> parse_function_test m x.1 = Err e.
Proof.
  unfold predict_item. destruct (parse_function_test m x.1) as [img|e']; cbn [rbind]; [|by intros [= ->]].
  destruct (top_k_three ck img) as [ps ->]. cbn [rbind]. discriminate.
Qed.

(** The batch holding the first undecodable image raises its error. *)
Lemma parse_batch_err ck m pre x post rs e :
  result_map (predict_item ck m) pre = Ok rs -> predict_item ck m x = Err e ->
  result_map (parse_function_test m) (map fst (app pre (x :: post))) = Err e.
Proof.
  intros Hpre Hx. destruct (batch_step _ _ _ _ Hpre) as (imgs & _ & Himgs & _).
  rewrite map_app. cbn [map]. eapply result_map_err_mid; [exact Himgs|].
  by apply (predict_item_err ck).
Qed.

Lemma loop_world_eq (w : world) path d rows :
  fs w !! path = Some (File d) -> rows = [] ->
  set_fs w (<[path := File (app d (String.list_byte_of_string (render_rows rows)))]> (fs w)) = w.
Proof. intros Hd ->. cbn. rewrite app_nil_r, insert_id by done. by destruct w. Qed.

(** [k] iterations over [pre ++ x :: post], where [x] is the first item
    that does not decode and [k] batches reach it, write the rows of the
    [length pre / B] complete batches before [x] and raise [x]'s error. *)
Lemma inference_loop_err ck path B k pre x post w d rs e :
  (0 < B)%nat -> fs w !! path = Some (File d) ->
  Forall (fun y => y.1 <> path) (app pre (x :: post)) -> (length pre < k * B)%nat ->
  result_map (predict_item ck (fs w)) pre = Ok rs -> predict_item ck (fs w) x = Err e ->
  inference_loop ck path B k (app pre (x :: post)) w =
  (set_fs w (<[path := File (app d (String.list_byte_of_string
                                     (render_rows (take (length pre / B * B) rs))))]> (fs w)),
   Err e).
Proof.
  revert pre w d rs. induction k as [|k IH]; intros pre w d rs HB Hpath Hit Hlt Hpre Hx; [lia|].
  assert (Hg : get_next B (app pre (x :: post)) =
               Ok (take B (app pre (x :: post)), drop B (app pre (x :: post))))
    by (apply get_next_ok; by destruct pre).
  destruct (decide (length pre < B)%nat) as [Hsmall|Hbig].
  - rewrite Nat.div_small, loop_world_eq by done.
    cbn [inference_loop]. st_run. erewrite st_bind_err; [done|]. apply st_lift_err.
    rewrite take_app_ge by lia. destruct (B - length pre)%nat as [|n] eqn:Hn; [lia|].
    by eapply parse_batch_err.
  - rewrite <- (take_drop B pre) in Hpre.
    apply result_map_app_inv in Hpre as (rs1 & rs2 & -> & H1 & H2).
    rewrite take_app_le, drop_app_le in Hg by lia.
    rewrite (inference_loop_step _ _ _ _ _ _ _ _ _ _ Hpath Hg H1).
    assert (Hlen1 : length rs1 = B).
    { rewrite (result_map_length _ _ _ H1), length_take. lia. }
    rewrite (IH (drop B pre) _ (app d (String.list_byte_of_string (render_rows rs1))) rs2).
    + cbn [fs set_fs]. rewrite insert_insert_eq, set_fs_set_fs. do 4 f_equal.
      replace (length pre) with (1 * B + length (drop B pre))%nat by (rewrite length_drop; lia).
      rewrite Nat.div_add_l by lia.
      replace ((1 + length (drop B pre) / B) * B)%nat
        with (length rs1 + length (drop B pre) / B * B)%nat by lia.
      by rewrite take_app_add, render_rows_app, list_byte_of_string_app, app_assoc.
    + done.
    + cbn. by rewrite lookup_insert_eq.
    + rewrite <- (take_drop B pre), <- app_assoc, Forall_app in Hit. apply Hit.
    + rewrite length_drop. lia.
    + cbn [fs set_fs]. rewrite result_map_predict_insert; [done|].
      rewrite <- (take_drop B pre), <- app_assoc, !Forall_app in Hit. apply Hit.
    + cbn [fs set_fs]. rewrite predict_item_insert; [done|].
      rewrite Forall_app, Forall_cons in Hit. apply Hit.
Qed.

(** C15: a usable image that does not decode stops the run at its batch:
    the run raises the decoder's error and leaves the output file open,
    holding the header and the rows of the [length pre / B] complete
    batches before the image ([B] the batch size), and no fallback row.
    Which rows survive depends on the batch size. *)
Theorem main_decode_error cfg w paths ids cor sz es ck pre x post rs e :
  list_files cfg (fs w) = Ok (paths, ids, cor) -> (Z.of_nat (length paths) < 2 ^ 53)%Z ->
  (0 < batch_size cfg < 2 ^ 63)%Z ->
  fs w !! submissions_dir = Some (Dir sz es) ->
  is_dir (fs w !! (submissions_dir ++ submission_name (Z.of_nat (length es)) (net cfg))) = false ->
  submissions_dir ++ submission_name (Z.of_nat (length es)) (net cfg) ∉ paths ->
  checkpoints w !! checkpoint_dir cfg = Some ck ->
  zip paths ids = app pre (x :: post) ->
  result_map (predict_item ck (fs w)) pre = Ok rs -> predict_item ck (fs w) x = Err e ->
  main cfg w =
  (opened_world w submissions_dir (submission_name (Z.of_nat (length es)) (net cfg)) sz es
     (header ++ render_rows (take (length pre / Z.to_nat (batch_size cfg)
                                   * Z.to_nat (batch_size cfg)) rs)),
   Err e).
Proof.
  set (name := submission_name _ _). set (out := submissions_dir ++ name).
  set (B := Z.to_nat (batch_size cfg)).
  intros Hlf Hn HB Hsub Hnd Hout Hck Hzip Hpre Hx.
  assert (HB' : (0 < B)%nat) by lia.
  destruct (num_batches_nat (length paths) B HB') as (k & Hk & _ & Hhi).
  replace (Z.of_nat B) with (batch_size cfg) in Hk by (unfold B; lia).
  pose proof (items_apart cfg w paths ids cor sz es out Hlf Hsub Hout) as Hitems.
  rewrite Hzip in Hitems.
  assert (Hlt : (length pre < k * B)%nat).
  { pose proof (f_equal length Hzip) as Hl. rewrite length_zip, length_app in Hl. simpl in Hl. lia. }
  rewrite (main_prefix cfg w paths ids cor _ sz es Hlf
             (init_data_generator_exact _ _ _ _ _ _ Hlf Hn HB Hk) Hsub Hnd).
  unfold session_block.
  st_run. erewrite st_bind_err.
  2: { rewrite Nat2Z.id, Hzip.
       apply (inference_loop_err ck out B k pre x post _ (String.list_byte_of_string header) rs e).
       - done.
       - cbn. apply lookup_insert_eq.
       - eapply Forall_impl; [exact Hitems|]. by intros y [? _].
       - done.
       - apply Forall_app in Hitems as [Hp _]. cbn [fs opened_world].
         rewrite !result_map_predict_insert; [done|..];
           (eapply Forall_impl; [exact Hp|]); by intros y [? ?].
       - apply Forall_app in Hitems as [_ [[? ?] _]%Forall_cons].
         cbn [fs opened_world]. by rewrite !predict_item_insert. }
  unfold opened_world. cbn. by rewrite insert_insert_eq, list_byte_of_string_app.
Qed.

End Interrupted.

(** ** Witnesses *)

Lemma main_decode_error_witness :
  main (trunc_cfg 2) trunc_world =
  (opened_world trunc_world submissions_dir (submission_name 0 "toy") 4096 []
     (header ++ render_rows [("p1", [1; 0; 2]%Z); ("p2", [1; 0; 2]%Z)]),
   Err (InvalidArgumentError "decode")).
Proof.
  apply (main_decode_error ltac:(discharge) (trunc_cfg 2) trunc_world
           ["t/p1.gif"; "t/p2.gif"; "t/p3.gif"] ["p1"; "p2"; "p3"] [] 4096 [] "m/ck-1"
           [("t/p1.gif", "p1"); ("t/p2.gif", "p2")] ("t/p3.gif", "p3") []
           [("p1", [1; 0; 2]%Z); ("p2", [1; 0; 2]%Z)]); discharge.
Defined.

End PartialRun.
