(* ===== verification/Footprint.v ===== *)
(** * What a run may change, and successive runs

    [main] writes to two entries of the file system only: the listing of
    [submissions/] and the file it opens there.  This file states that
    footprint for every outcome of a run, success or exception, and
    draws the consequence for two successive runs: a second run, with
    any configuration and whatever its outcome, leaves the first run's
    submission as it was, because its counter has moved past it.

    - [keeps P m]: the computation [m] changes no entry of the file
      system outside [P], on any world;
    - [keeps_bind] composes footprints; the footprint of each operation
      of [Pipeline] and of [session_block];
    - [main_footprint]: the run changes nothing but [submissions/] and
      [submissions/<n>_submission_<net>.csv];
    - [rerun_keeps_previous]: the file of a first successful run
      survives a second run. *)

From S2P Require Import Prelude PyStr Config Validator Batching Model Writer Pipeline.
Import PyStr Validator Batching Model Writer Pipeline.
Local Open Scope string_scope.

Module Footprint.

Section Footprint.
Context {Img : Type} `{!ImageCodec Img} `{!Classifier Img}.

Definition keeps (P : string -> Prop) {A} (m : M A) : Prop :=
  forall w p, ~ P p -> fs (m w).1 !! p = fs w !! p.

(** The output path of the run that finds [n] entries in [submissions/]. *)
Definition output_path (n : Z) (net : string) : string :=
  submissions_dir ++ submission_name n net.

(** ** Footprints of the operations *)

Lemma keeps_bind {A B} P (m : M A) (k : A -> M B) :
  keeps P m -> (forall a, keeps P (k a)) -> keeps P (st_bind m k).
Proof.
  intros Hm Hk w p Hp. unfold st_bind. specialize (Hm w p Hp).
  destruct (m w) as [w' [a|e]]; cbn [fst] in *; [by rewrite Hk|done].
Qed.

Lemma keeps_same {A} P (m : M A) : (forall w, fs (m w).1 = fs w) -> keeps P m.
Proof. intros H w p _. by rewrite H. Qed.

Ltac keeps_step := apply keeps_bind; [try (apply keeps_same; reflexivity) | intros ?].

Lemma keeps_write_str path s : keeps (eq path) (write_str path s).
Proof.
  intros w p Hp. unfold write_str.
  destruct (fs w !! path) as [[d|? ?]|]; cbn; [by rewrite lookup_insert_ne|done|done].
Qed.

Lemma keeps_write_all path ss : keeps (eq path) (write_all path ss).
Proof.
  induction ss as [|s ss IH]; cbn [write_all]; [by apply keeps_same|].
  keeps_step; [apply keeps_write_str | apply IH].
Qed.

Lemma keeps_inference_loop ck path B k it : keeps (eq path) (inference_loop ck path B k it).
Proof.
  revert it. induction k as [|k IH]; intros it; cbn [inference_loop]; [by apply keeps_same|].
  apply keeps_bind; [by apply keeps_same | intros [b it']].
  do 3 keeps_step. keeps_step; [apply keeps_write_all | apply IH].
Qed.

Lemma keeps_session_block cfg path nb ds c : keeps (eq path) (session_block cfg path nb ds c).
Proof.
  unfold session_block. do 2 keeps_step.
  keeps_step; [apply keeps_inference_loop|].
  keeps_step; [apply keeps_write_all | by apply keeps_same].
Qed.

Lemma open_w_footprint dir name w p :
  p <> dir -> p <> dir ++ name -> fs (open_w dir name w).1 !! p = fs w !! p.
Proof.
  intros Hd Hn. unfold open_w.
  destruct (fs w !! (dir ++ name)) as [[?|? ?]|], (fs w !! dir) as [[?|? ?]|]; cbn; try done;
    by rewrite !lookup_insert_ne by congruence.
Qed.

Lemma open_w_path dir name w w' path : open_w dir name w = (w', Ok path) -> path = dir ++ name.
Proof. unfold open_w. repeat case_match; congruence. Qed.

(** ** Output paths *)

Lemma str_app_String_nonempty (a s : string) c : a ++ String c s <> "".
Proof. destruct a; [discriminate|]. rewrite str_app_String. discriminate. Qed.

Lemma str_app_nil_r (a : string) : a ++ "" = a.
Proof. induction a as [|x a IH]; [done|]. by rewrite str_app_String, IH. Qed.

Lemma submission_name_String n net :
  submission_name n net = py_str_Z n ++ String "_" ("submission_" ++ net ++ ".csv").
Proof. reflexivity. Qed.

Lemma output_path_ne_dir n net : output_path n net <> submissions_dir.
Proof.
  unfold output_path. intros H. rewrite <- (str_app_nil_r submissions_dir) in H at 2.
  apply str_app_inv_l in H. rewrite submission_name_String in H.
  by apply str_app_String_nonempty in H.
Qed.

(** Two runs that find different numbers of entries write different files. *)
Lemma output_path_inj a b n1 n2 : output_path a n1 = output_path b n2 -> a = b.
Proof.
  unfold output_path. intros H%str_app_inv_l. rewrite !submission_name_String in H.
  apply py_str_Z_sep_inj in H; [done|]. right. vm_compute. lia.
Qed.

(** ** The footprint of a run *)

Lemma main_keeps cfg w p :
  p <> submissions_dir ->
  (forall sz es, fs w !! submissions_dir = Some (Dir sz es) ->
                 p <> output_path (Z.of_nat (length es)) (net cfg)) ->
  fs (main cfg w).1 !! p = fs w !! p.
Proof.
  intros Hdir Hout. unfold main.
  erewrite st_bind_ok by reflexivity.
  unfold st_lift at 1. destruct (list_files cfg (fs w)) as [[[paths ids] cor]|e];
    [|by erewrite st_bind_err].
  erewrite st_bind_ok by reflexivity. cbv beta iota.
  unfold st_lift at 1. destruct (init_data_generator _ _ _) as [[ds nb]|e]; [|by erewrite st_bind_err].
  erewrite st_bind_ok by reflexivity.
  destruct (fs w !! submissions_dir) as [[d|sz es]|] eqn:Hsub;
    [by erewrite st_bind_err by (unfold listdir; by rewrite Hsub)| |
     by erewrite st_bind_err by (unfold listdir; by rewrite Hsub)].
  erewrite st_bind_ok by (unfold listdir; by rewrite Hsub).
  specialize (Hout sz es eq_refl). unfold output_path in Hout.
  pose proof (open_w_footprint submissions_dir (submission_name (Z.of_nat (length es)) (net cfg))
                w p Hdir Hout) as Hfp.
  destruct (open_w submissions_dir (submission_name (Z.of_nat (length es)) (net cfg)) w)
    as [w1 [path|e]] eqn:Hopen; cbn [fst] in Hfp.
  - erewrite st_bind_ok by exact Hopen. apply open_w_path in Hopen as ->. rewrite <- Hfp.
    set (path := submissions_dir ++ _) in Hout |- *.
    apply (keeps_bind (eq path)); [apply keeps_write_str | intros; apply keeps_session_block |].
    congruence.
  - by erewrite st_bind_err by exact Hopen.
Qed.

(** C14: whatever its outcome (success or any exception), a run changes
    no entry of the file system except the listing of [submissions/]
    and the file [submissions/<n>_submission_<net>.csv] it opens, [n]
    being the number of entries [submissions/] held: input images,
    other submissions and every other file are left as they were. *)
Theorem main_footprint cfg w p :
  p <> submissions_dir ->
  (forall sz es, fs w !! submissions_dir = Some (Dir sz es) ->
                 p <> output_path (Z.of_nat (length es)) (net cfg)) ->
  fs (main cfg w).1 !! p = fs w !! p.
Proof. apply main_keeps. Qed.

(** C16: the submission of a successful first run survives a second run
    with any configuration and any outcome: the first run added its
    file to [submissions/], so the second run's counter names another
    file. *)
Theorem rerun_keeps_previous cfg cfg' w paths ids cor sz es ck rows :
  list_files cfg (fs w) = Ok (paths, ids, cor) -> (Z.of_nat (length paths) < 2 ^ 53)%Z ->
  (0 < batch_size cfg < 2 ^ 63)%Z ->
  fs w !! submissions_dir = Some (Dir sz es) ->
  fs w !! output_path (Z.of_nat (length es)) (net cfg) = None ->
  output_path (Z.of_nat (length es)) (net cfg) ∉ paths ->
  output_path (Z.of_nat (length es)) (net cfg) ∉ handles w ->
  checkpoints w !! checkpoint_dir cfg = Some ck ->
  result_map (predict_item ck (fs w)) (zip paths ids) = Ok rows ->
  fs (main cfg' (main cfg w).1).1 !! output_path (Z.of_nat (length es)) (net cfg) =
  Some (File (String.list_byte_of_string (output_text rows cor))).
Proof.
  intros Hlf Hn HB Hsub Hnone Hout Hh Hck Hrows. unfold output_path in *.
  rewrite (main_run_ok cfg w paths ids cor sz es ck rows) by (rewrite ?Hnone; done).
  cbn [fst]. pose proof (output_path_ne_dir (Z.of_nat (length es)) (net cfg)) as Hne.
  unfold output_path in Hne. rewrite main_keeps; [cbn [fs]; by rewrite lookup_insert_eq|done|].
  intros sz' es'. cbn [fs]. rewrite lookup_insert_ne, lookup_insert_eq by congruence.
  unfold listing_after_open. rewrite Hnone. intros [= _ <-] Heq%output_path_inj.
  rewrite length_app in Heq. simpl in Heq. lia.
Qed.

End Footprint.

(** ** Witnesses *)

#[local] Existing Instance toy_codec.
#[local] Existing Instance toy_classifier.

Lemma main_footprint_witness :
  fs (main demo_cfg demo_world).1 !! "d/a.jpg" = fs demo_world !! "d/a.jpg".
Proof.
  apply main_footprint; [discharge|].
  intros sz es Hsub. vm_compute in Hsub. injection Hsub as <- <-. discharge.
Defined.

Lemma rerun_keeps_previous_witness :
  fs (main (with_batch_size demo_cfg 1) (main demo_cfg demo_world).1).1 !! output_path 0 "toy" =
  Some (File (String.list_byte_of_string (output_text [("a", [1; 0; 2]%Z)] ["b"; "c"]))).
Proof.
  apply (rerun_keeps_previous demo_cfg (with_batch_size demo_cfg 1) demo_world
           ["d/a.jpg"] ["a"] ["b"; "c"] 4096 [] "m/ck-1" [("a", [1; 0; 2]%Z)]); discharge.
Defined.

End Footprint.
