(* ===== verification/Entry.v ===== *)
(** * The entry point: [tf.app.run()] (predict.py 127-128)

    [tf.app.run()] parses the command line into [FLAGS], calls
    [main(argv)] and ends the process with [sys.exit(main(argv))]: [main]
    returns [None], so a run that finishes exits with status 0; an
    exception escapes [tf.app.run], the interpreter prints it and exits
    with status 1.  At exit CPython closes the file objects still open
    and the system releases their handles.

    Flag parsing is a library the script only calls (absl's parser): it
    is the input [flags] of [app_run], the configuration or the
    exception the parser raised.

    - [exit_status]: the status of [sys.exit(main(argv))];
    - [process_exit]: the handles released at exit;
    - [app_run]: lines 127-128.

    The theorem [app_run_status]: when the name the counter produces is
    free in [submissions/], the process exits with status 0 exactly when
    the data directory scans, the batch size is positive, [submissions/]
    exists, a checkpoint exists and every usable image decodes and
    scores; it is the converse of [Pipeline.main_ok] composed with the
    exit status. *)

From S2P Require Import Prelude Config Validator Batching PyNum TopK Model Pipeline.
Import Validator Batching PyNum TopK Model Pipeline.
Local Open Scope string_scope.

Module Entry.

(** [sys.exit(main(argv))]: [None] is status 0, an uncaught exception 1. *)
Definition exit_status {A} (r : result exn A) : Z :=
  match r with Ok _ => 0 | Err _ => 1 end.

(** The end of the process: every handle is released. *)
Definition process_exit (w : world) : world := set_handles w [].

(** The output name is free: [submissions/] holds no entry with the name
    the counter of line 98 produces. *)
Definition fresh_output (cfg : config) (w : world) : Prop :=
  forall sz es, fs w !! submissions_dir = Some (Dir sz es) ->
  fs w !! (submissions_dir ++ submission_name (Z.of_nat (length es)) (net cfg)) = None.

(** The scan finds fewer than [2 ^ 53] usable images, the range where
    line 59 computes the exact number of batches. *)
Definition countable_scan (cfg : config) (w : world) : Prop :=
  forall paths ids cor, list_files cfg (fs w) = Ok (paths, ids, cor) ->
  (Z.of_nat (length paths) < 2 ^ 53)%Z.

Section Entry.
Context {Img : Type} `{!ImageCodec Img} `{!Classifier Img}.

(** Lines 127-128: [tf.app.run()] on the parsed flags. *)
Definition app_run (flags : result exn config) (w : world) : world * Z :=
  let '(w', r) := (cfg <- st_lift flags ;; main cfg) w in
  (process_exit w', exit_status r).

(** ** A successful loop read every image *)

Lemma batch_step_inv ck m batch imgs preds :
  result_map (parse_function_test m) (map fst batch) = Ok imgs ->
  predict_batch ck imgs = Ok preds ->
  exists ys, result_map (predict_item ck m) batch = Ok ys.
Proof.
  unfold predict_batch, init_model. cbn [top_3]. revert imgs preds.
  induction batch as [|[p fn] batch IH]; intros imgs preds; cbn [map result_map fst]; [eauto|].
  unfold predict_item at 1. cbn [fst snd].
  destruct (parse_function_test m p) as [img|e]; cbn [rbind]; [|done].
  destruct (result_map (parse_function_test m) (map fst batch)) as [imgs'|e]; cbn [rbind]; [|done].
  intros [= <-]. cbn [map result_map].
  destruct (top_k (logits ck img) 3) as [ps|e]; cbn [rbind]; [|done].
  destruct (result_map _ (map (logits ck) imgs')) as [preds'|e] eqn:Hp; cbn [rbind]; [|done].
  intros _. destruct (IH imgs' preds' eq_refl Hp) as [ys ->]. cbn [rbind]. eauto.
Qed.

(** [k] iterations of the loop over [it] that finish, with [k] batches
    enough for [it], have decoded and scored every item of [it]. *)
Lemma inference_loop_ok_inv ck path B k it w d w' :
  (0 < B)%nat -> fs w !! path = Some (File d) -> Forall (fun x => x.1 <> path) it ->
  (length it <= k * B)%nat -> inference_loop ck path B k it w = (w', Ok tt) ->
  exists rows, result_map (predict_item ck (fs w)) it = Ok rows.
Proof.
  revert it w d. induction k as [|k IH]; intros it w d HB Hpath Hit Hlen H.
  - destruct it; [by exists []|cbn in Hlen; lia].
  - destruct it as [|x it0]; [by exists []|]. set (it := x :: it0) in *.
    cbn [inference_loop] in H.
    apply st_bind_inv_ok in H as (w1 & [b it'] & Hg & H).
    apply st_lift_inv in Hg as [Hg ->]. rewrite get_next_ok in Hg by done. injection Hg as <- <-.
    apply st_bind_inv_ok in H as (w1 & w2 & Hw & H). apply st_get_inv in Hw as [-> ->].
    apply st_bind_inv_ok in H as (w1 & imgs & Hi & H). apply st_lift_inv in Hi as [Hi ->].
    apply st_bind_inv_ok in H as (w1 & preds & Hp & H). apply st_lift_inv in Hp as [Hp ->].
    destruct (batch_step_inv _ _ _ _ _ Hi Hp) as [ys1 Hys1].
    apply st_bind_inv_ok in H as (w1 & [] & Hwr & H). erewrite write_all_ok in Hwr by done.
    injection Hwr as <-.
    rewrite <- (take_drop B it), Forall_app in Hit. destruct Hit as [_ Hit].
    eapply IH in H as [ys2 Hys2];
      [|done|cbn; apply lookup_insert_eq|done|rewrite length_drop; lia].
    cbn [fs set_fs] in Hys2. rewrite result_map_predict_insert in Hys2 by done.
    exists (ys1 ++ ys2)%list. rewrite <- (take_drop B it). by apply result_map_app_ok.
Qed.

Lemma fresh_not_listed cfg w paths ids cor sz es :
  fresh_output cfg w -> list_files cfg (fs w) = Ok (paths, ids, cor) ->
  fs w !! submissions_dir = Some (Dir sz es) ->
  submissions_dir ++ submission_name (Z.of_nat (length es)) (net cfg) ∉ paths.
Proof.
  intros Hfresh Hlf Hsub Hin. apply list_files_paths_files in Hlf.
  eapply Forall_forall in Hlf as [d Hd]; [|exact Hin]. by rewrite Hfresh in Hd.
Qed.

Lemma init_data_generator_inv cfg paths ids ds nb :
  init_data_generator cfg paths ids = Ok (ds, nb) ->
  ds = zip paths ids /\ num_batches_py (Z.of_nat (length paths)) (batch_size cfg) = Ok nb /\
  (- 2 ^ 63 <= batch_size cfg < 2 ^ 63)%Z.
Proof.
  unfold init_data_generator.
  destruct (num_batches_py _ _) as [nb'|e] eqn:Hnb; cbn [rbind]; [|done].
  destruct (decide _); [|done]. unfold to_int64.
  destruct (Z.leb_spec (- 2 ^ 63) (batch_size cfg)), (Z.ltb_spec (batch_size cfg) (2 ^ 63));
    cbn; [intros [= <- <-]; auto|done..].
Qed.

(** A run that finishes met the preconditions of [Pipeline.main_ok]. *)
Lemma main_ok_inv cfg w w' :
  fresh_output cfg w -> countable_scan cfg w -> main cfg w = (w', Ok tt) ->
  exists paths ids cor sz es ck rows,
    list_files cfg (fs w) = Ok (paths, ids, cor) /\ (0 < batch_size cfg < 2 ^ 63)%Z /\
    fs w !! submissions_dir = Some (Dir sz es) /\
    checkpoints w !! checkpoint_dir cfg = Some ck /\
    result_map (predict_item ck (fs w)) (zip paths ids) = Ok rows.
Proof.
  intros Hfresh Hcount H. unfold main in H.
  apply st_bind_inv_ok in H as (w1 & w2 & Hw & H). apply st_get_inv in Hw as [-> ->].
  apply st_bind_inv_ok in H as (w1 & [[paths ids] cor] & Hlf & H).
  apply st_lift_inv in Hlf as [Hlf ->].
  apply st_bind_inv_ok in H as (w1 & [ds nb] & Hid & H). apply st_lift_inv in Hid as [Hid ->].
  apply st_bind_inv_ok in H as (w1 & es & Hls & H). unfold listdir in Hls.
  destruct (fs w !! submissions_dir) as [[d|sz es']|] eqn:Hsub; [done| |done].
  injection Hls as <- ->.
  pose proof (fresh_not_listed _ _ _ _ _ _ _ Hfresh Hlf Hsub) as Hout.
  apply st_bind_inv_ok in H as (w1 & path & Hopen & H).
  rewrite (open_w_ok _ _ _ sz es Hsub) in Hopen by (by rewrite Hfresh). injection Hopen as <- <-.
  apply st_bind_inv_ok in H as (w1 & [] & Hhdr & H).
  erewrite write_str_ok in Hhdr by (cbn; apply lookup_insert_eq). injection Hhdr as <-.
  unfold session_block in H.
  apply st_bind_inv_ok in H as (w1 & ck & Hck & H). unfold restore in Hck. cbn in Hck.
  destruct (checkpoints w !! checkpoint_dir cfg) as [ck'|] eqn:Hc; [|done]. injection Hck as <- <-.
  apply st_bind_inv_ok in H as (w1 & B & HB & H). apply st_lift_inv in HB as [HB ->].
  unfold batch_init in HB. destruct (Z.leb_spec (batch_size cfg) 0); [done|]. injection HB as <-.
  apply st_bind_inv_ok in H as (w1 & [] & Hloop & _).
  apply init_data_generator_inv in Hid as (-> & Hnb & HB63).
  pose proof (Hcount _ _ _ Hlf) as Hn.
  destruct (num_batches_bounds (length paths) (batch_size cfg)) as (q & Hq & Hq0 & Hqb); [lia|].
  rewrite num_batches_py_eq, Hq in Hnb by lia. injection Hnb as <-.
  pose proof (items_apart cfg w paths ids cor sz es _ Hlf Hsub Hout) as Hitems.
  eapply inference_loop_ok_inv in Hloop as [rows Hrows];
    [| lia | cbn; apply lookup_insert_eq | by eapply Forall_impl; [exact Hitems|]; intros x [? _] |].
  - cbn [fs set_fs set_handles] in Hrows.
    rewrite !result_map_predict_insert in Hrows by
      (eapply Forall_impl; [exact Hitems|]; by intros x [? ?]).
    exists paths, ids, cor, sz, es, ck', rows. repeat split; done || lia.
  - rewrite length_zip. nia.
Qed.

End Entry.

Section Status.
Context {Img : Type} `{!ImageCodec Img} `{!Classifier Img}.

(** C2: when [submissions/] holds no entry with the name the counter
    produces and the scan finds fewer than [2 ^ 53] images, the process of [tf.app.run()] exits with status 0 exactly
    when the data directory scans, the batch size is positive and
    converts to int64,
    [submissions/] exists, a checkpoint exists and every usable image
    decodes and scores: no other condition makes the script fail, and
    none of these can be dropped. *)
Theorem app_run_status cfg w :
  fresh_output cfg w -> countable_scan cfg w ->
  (app_run (Ok cfg) w).2 = 0%Z <->
  exists paths ids cor sz es ck rows,
    list_files cfg (fs w) = Ok (paths, ids, cor) /\ (0 < batch_size cfg < 2 ^ 63)%Z /\
    fs w !! submissions_dir = Some (Dir sz es) /\
    checkpoints w !! checkpoint_dir cfg = Some ck /\
    result_map (predict_item ck (fs w)) (zip paths ids) = Ok rows.
Proof.
  intros Hfresh Hcount. unfold app_run. rewrite (st_bind_ok _ _ w w cfg) by done.
  destruct (main cfg w) as [w' r] eqn:Hm. cbn [snd]. split.
  - destruct r as [[]|e]; [|done]. intros _. by apply (main_ok_inv cfg w w').
  - intros (paths & ids & cor & sz & es & ck & rows & Hlf & HB & Hsub & Hck & Hrows).
    rewrite (main_run_gen cfg w paths ids cor sz es ck rows) in Hm;
      [by injection Hm as _ <-|done|by eapply Hcount|done|done|by rewrite Hfresh
      |by eapply fresh_not_listed|done|done].
Qed.

End Status.

(** ** Witness: the run of [Pipeline.main_ok_witness] exits with 0 *)

#[local] Existing Instance toy_codec.
#[local] Existing Instance toy_classifier.

Lemma demo_fresh : fresh_output demo_cfg demo_world.
Proof. intros sz es Hs. vm_compute in Hs. injection Hs as <- <-. vm_compute. reflexivity. Qed.

Lemma demo_countable : countable_scan demo_cfg demo_world.
Proof. intros paths ids cor Hlf. vm_compute in Hlf. injection Hlf as <- <- <-. vm_compute. reflexivity. Qed.

Lemma app_run_status_witness :
  fresh_output demo_cfg demo_world /\ countable_scan demo_cfg demo_world /\
  (app_run (Ok demo_cfg) demo_world).2 = 0%Z.
Proof.
  split; [exact demo_fresh|]. split; [exact demo_countable|].
  apply (proj2 (app_run_status demo_cfg demo_world demo_fresh demo_countable)).
  exists ["d/a.jpg"], ["a"], ["b"; "c"], 4096%Z, [], "m/ck-1", [("a", [1; 0; 2]%Z)].
  repeat split; vm_compute; reflexivity.
Defined.

End Entry.
